(** * Youth Alive ticketing backend

    A shallow embedding of the webhook normaliser and of the reader of
    the live events ([src/services/jotform.service.ts]) and of the
    handlers (the compiled [event.controller] and [checkin.controller]),
    with the properties of the written specification stated over it and,
    after them, further properties read off the code.

    Layout: JavaScript values, the builtins the code calls, the parser,
    the document store and the handlers, a reference runtime for closed
    examples, the live events and their listing, and finally the lemmas. *)

From Stdlib Require Import NArith ZArith String Ascii List Bool Lia Floats.
From Stdlib Require Import Sorted Permutation.
From stdpp Require Import base option list sorting gmap strings pretty.
Import ListNotations.

#[local] Set Warnings "-register-all".
#[local] Open Scope string_scope.
#[local] Open Scope list_scope.

(** ** JavaScript values

    The payloads are [any]-typed: whatever [JSON.parse] or the body parser
    produced.  Numbers are IEEE doubles.  An object carries its own
    properties and a prototype slot: [None] stands for [Object.prototype],
    [Some VNull] for no prototype at all, [Some p] for an object [p]
    installed through the [__proto__] setter.  A string is a sequence of
    code units; only the units below 256 are represented. *)

Inductive value : Type :=
| VUndef
| VNull
| VBool (b : bool)
| VNum (n : float)
| VStr (s : string)
| VArr (l : list value)
| VObj (proto : option value) (m : gmap string value).

(** An object literal or a freshly parsed JSON object. *)
Definition obj (m : gmap string value) : value := VObj None m.

(** [!!v] in JavaScript. *)
Definition num_truthy (n : float) : bool :=
  negb (PrimFloat.is_zero n || PrimFloat.is_nan n).

Definition truthy (v : value) : bool :=
  match v with
  | VUndef | VNull => false
  | VBool b => b
  | VNum n => num_truthy n
  | VStr s => negb (String.eqb s "")
  | VArr _ | VObj _ _ => true
  end.

(** [a || b] on values and on numbers. *)
Definition jsor (a b : value) : value := if truthy a then a else b.
Definition num_or (a b : float) : float := if num_truthy a then a else b.

Notation "a ||| b" := (jsor a b) (at level 50, left associativity).

(** [typeof v === 'object' && v !== null] *)
Definition is_object (v : value) : bool :=
  match v with VArr _ | VObj _ _ => true | _ => false end.

Definition isArray (v : value) : bool :=
  match v with VArr _ => true | _ => false end.

(** Array index of a property key: the canonical decimal numerals. *)
Definition digit_of (a : ascii) : option nat :=
  let n := nat_of_ascii a in
  if (48 <=? n)%nat && (n <=? 57)%nat then Some (n - 48)%nat else None.

Fixpoint digits_value (acc : nat) (s : string) : option nat :=
  match s with
  | EmptyString => Some acc
  | String a s' =>
      match digit_of a with
      | Some d => digits_value (10 * acc + d) s'
      | None => None
      end
  end.

Definition index_of_key (k : string) : option nat :=
  match k with
  | EmptyString => None
  | String a EmptyString => digit_of a
  | String a _ => if Ascii.eqb a "0" then None else digits_value 0 k
  end.

Definition num_of_nat (n : nat) : float :=
  SF2Prim (binary_normalize 53 1024 (Z.of_nat n) 0 false).

Definition char_at (s : string) (i : nat) : value :=
  match String.get i s with
  | Some a => VStr (String a EmptyString)
  | None => VUndef
  end.

(** Property read [v.k] / [v[k]] on a receiver that is neither [null] nor
    [undefined].  Own properties first, then the prototype chain.  The
    properties of the builtin prototypes are methods whose names the
    program never reads, so the chain ends in [undefined]. *)
Fixpoint prop (v : value) (k : string) : value :=
  match v with
  | VObj p m =>
      match m !! k with
      | Some x => x
      | None => match p with Some q => prop q k | None => VUndef end
      end
  | VArr l =>
      match index_of_key k with
      | Some i => default VUndef (l !! i)
      | None => if String.eqb k "length" then VNum (num_of_nat (length l)) else VUndef
      end
  | VStr s =>
      match index_of_key k with
      | Some i => char_at s i
      | None => if String.eqb k "length" then VNum (num_of_nat (String.length s)) else VUndef
      end
  | _ => VUndef
  end.

(** Property read on an arbitrary receiver: [None] is the [TypeError]
    raised on [null] and [undefined]. *)
Definition prop_throw (v : value) (k : string) : option value :=
  match v with
  | VUndef | VNull => None
  | _ => Some (prop v k)
  end.

(** Assignment [o[k] = v] on an ordinary object.  The key [__proto__]
    normally reaches the setter inherited from [Object.prototype]: it
    replaces the prototype when [v] is an object or [null] and does nothing
    otherwise; no own property is created.  The setter is not reached when
    a data property of that name comes first on the chain, or when the
    chain ends in [null]: then the assignment creates an own property. *)
Fixpoint setter_applies (o : value) : bool :=
  match o with
  | VObj p m =>
      match m !! "__proto__" with
      | Some _ => false
      | None => match p with None => true | Some q => setter_applies q end
      end
  | VArr _ => true
  | _ => false
  end.

Definition set_prop (o : value) (k : string) (v : value) : value :=
  match o with
  | VObj p m =>
      if String.eqb k "__proto__" && setter_applies o then
        match v with
        | VObj _ _ | VArr _ | VNull => VObj (Some v) m
        | _ => o
        end
      else VObj p (<[k:=v]> m)
  | _ => o
  end.

(** [Object.entries(v)]: the own enumerable string-keyed properties;
    [None] is the [TypeError] on [null] and [undefined]. *)
Fixpoint string_entries (i : nat) (s : string) : list (string * value) :=
  match s with
  | EmptyString => []
  | String a s' => (pretty i, VStr (String a EmptyString)) :: string_entries (S i) s'
  end.

Definition Object_entries (v : value) : option (list (string * value)) :=
  match v with
  | VUndef | VNull => None
  | VObj _ m => Some (map_to_list m)
  | VArr l => Some (imap (fun i x => (pretty i, x)) l)
  | VStr s => Some (string_entries 0 s)
  | VBool _ | VNum _ => Some []
  end.

(** ** Strings *)

(** White space and line terminators among the represented code units:
    what [\s] matches and what [trim] removes. *)
Definition is_js_space (a : ascii) : bool :=
  let n := nat_of_ascii a in
  ((9 <=? n)%nat && (n <=? 13)%nat) || (n =? 32)%nat || (n =? 160)%nat.

Definition is_digit (a : ascii) : bool :=
  let n := nat_of_ascii a in (48 <=? n)%nat && (n <=? 57)%nat.

Fixpoint trimStart (s : string) : string :=
  match s with
  | String a s' => if is_js_space a then trimStart s' else s
  | EmptyString => EmptyString
  end.

Definition trim (s : string) : string :=
  String.rev (trimStart (String.rev (trimStart s))).

(** [s.startsWith(p)] and [s.substring(n)] *)
Definition startsWith (s p : string) : bool := String.prefix p s.

Fixpoint substring_from (n : nat) (s : string) : string :=
  match n, s with
  | O, _ => s
  | S n', String _ s' => substring_from n' s'
  | S _, EmptyString => EmptyString
  end.

(** The lower-case form of a letter of the basic alphabet. *)
Definition lower (a : ascii) : ascii :=
  let n := nat_of_ascii a in
  if (65 <=? n)%nat && (n <=? 90)%nat then ascii_of_nat (n + 32) else a.

Fixpoint join (sep : string) (l : list string) : string :=
  match l with
  | [] => ""
  | [x] => x
  | x :: l' => x +:+ sep +:+ join sep l'
  end.

(** ** Builtins of the language

    The conversions between numbers and text, the JSON reader, the
    regular-expression engine and the locale formatting are taken as they
    come: every lemma below holds for any implementation of them.  They
    work on texts and numbers and do not throw; the conversion of an
    arbitrary value to a text, which can throw, is written out after
    them. *)

Class Builtins := {
  (** [JSON.parse] on a text; [None] is the [SyntaxError]. *)
  JSON_parse : string -> option value;
  (** [String(n)] for a number. *)
  Number_toString : float -> string;
  (** the number that a text stands for ([Number(text)]) *)
  StringToNumber : string -> float;
  (** [parseInt(text, 10)] and [parseFloat(text)] *)
  parseInt10 : string -> float;
  parseFloat : string -> float;
  (** [Array.prototype.toString] called on an object that is not an
      array but inherits from one; [None] is an exception. *)
  Array_toString_on : value -> option string;
  (** [new RegExp(source, 'i')]; [None] is the [SyntaxError] of an
      invalid pattern, otherwise the test against a string. *)
  RegExp_i : string -> option (string -> bool);
  (** [Date.prototype.toLocaleString] and [toLocaleDateString] on an
      instant given in epoch milliseconds. *)
  toLocaleString : N -> string;
  toLocaleDateString : N -> string
}.

(** What the lookup of [toString] on an object finds.  The values of
    the payloads are data, never functions: a data property of that name,
    own or inherited, is not callable, and the conversion to a primitive
    then fails, since [valueOf] gives back the object itself.  A chain
    that ends in [Object.prototype] finds its [toString]; a chain that
    goes through an array finds the one of [Array.prototype]; a chain
    that ends in [null] finds nothing. *)
Inductive toString_method :=
| ObjectToString
| ArrayToString
| NoToString.

Fixpoint toString_of (v : value) : toString_method :=
  match v with
  | VObj p m =>
      match m !! "toString" with
      | Some _ => NoToString
      | None => match p with None => ObjectToString | Some q => toString_of q end
      end
  | VArr _ => ArrayToString
  | _ => NoToString
  end.

(** [String(v)], also the conversion applied inside a template literal
    and by [JSON.parse], [parseInt], [parseFloat] and [new RegExp] to
    their argument; [None] is the [TypeError] of a value that cannot be
    converted to a primitive.  [number_toString] prints the numbers and
    [array_toString_on] is [Array_toString_on]. *)
Fixpoint ToString (number_toString : float -> string)
    (array_toString_on : value -> option string) (v : value) : option string :=
  match v with
  | VUndef => Some "undefined"
  | VNull => Some "null"
  | VBool true => Some "true"
  | VBool false => Some "false"
  | VNum n => Some (number_toString n)
  | VStr s => Some s
  | VArr l =>
      join "," <$>
        (fix elements (l : list value) : option (list string) :=
           match l with
           | [] => Some []
           | x :: l' =>
               match match x with
                     | VUndef | VNull => Some ""
                     | _ => ToString number_toString array_toString_on x
                     end with
               | Some s =>
                   match elements l' with
                   | Some ss => Some (s :: ss)
                   | None => None
                   end
               | None => None
               end
           end) l
  | VObj _ _ =>
      match toString_of v with
      | ObjectToString => Some "[object Object]"
      | ArrayToString => array_toString_on v
      | NoToString => None
      end
  end.

Definition String_ `{Builtins} : value -> option string :=
  ToString Number_toString Array_toString_on.

(** The numeric conversion applied by [*]; an object is first converted
    to a primitive, where [valueOf] gives nothing and [toString] is what
    [String_] calls. *)
Definition ToNumber `{Builtins} (v : value) : option float :=
  match v with
  | VUndef => Some PrimFloat.nan
  | VNull => Some 0%float
  | VBool true => Some 1%float
  | VBool false => Some 0%float
  | VNum n => Some n
  | VStr s => Some (StringToNumber s)
  | VArr _ | VObj _ _ => StringToNumber <$> String_ v
  end.

(** ** The product field  ([parseProductDetails])

    The two regular expressions of the source, [/Quantity:\s*(\d+)/] and
    [/Amount:\s*([\d.]+)/], are a literal label, optional white space and
    a non-empty run of one character class.  The classes are disjoint from
    white space, so the leftmost match takes the longest runs and the
    matcher below needs no backtracking.  The result is the capture. *)

Fixpoint skip_while (p : ascii -> bool) (s : string) : string :=
  match s with
  | String a s' => if p a then skip_while p s' else s
  | EmptyString => EmptyString
  end.

Fixpoint take_while (p : ascii -> bool) (s : string) : string :=
  match s with
  | String a s' => if p a then String a (take_while p s') else EmptyString
  | EmptyString => EmptyString
  end.

Definition match_label_at (label : string) (cls : ascii -> bool) (s : string)
  : option string :=
  if startsWith s label then
    let cap :=
      take_while cls (skip_while is_js_space (substring_from (String.length label) s)) in
    if String.eqb cap "" then None else Some cap
  else None.

Fixpoint search_label (label : string) (cls : ascii -> bool) (s : string)
  : option string :=
  match match_label_at label cls s with
  | Some c => Some c
  | None =>
      match s with
      | String _ s' => search_label label cls s'
      | EmptyString => None
      end
  end.

Definition match_Quantity : string -> option string :=
  search_label "Quantity:" is_digit.

Definition match_Amount : string -> option string :=
  search_label "Amount:" (fun a => is_digit a || Ascii.eqb a ".").

Module Product.
Record t := mk { quantity : float; productDetails : string; totalAmount : float }.
(** the initial values of the three locals *)
Definition defaults : t :=
  {| quantity := 1; productDetails := ""; totalAmount := 0 |}.
End Product.

(** What the two [catch] blocks of [parseProductDetails] do: they write a
    line to the log and nothing else. *)
Inductive LogLine :=
| ErrorParsingPaymentArray   (* console.error('Error parsing paymentArray:', ...) *)
| WarnParsingProductDetails. (* logger.warn('Error parsing product details', ...) *)

Section Parser.
Context `{Builtins}.

(** The body of the inner [try]: the locals on entry, the locals on exit
    and the lines logged.  A throw leaves the locals as they were at that
    point: as on entry when it comes from [JSON.parse], from the read of
    [product] or from [productString.match], and with the quantity and the
    product string assigned when it comes from [parseFloat] of the
    total. *)
Definition paymentArray_block (paymentArray : value) (acc : Product.t)
  : Product.t * list LogLine :=
  match String_ paymentArray ≫= JSON_parse with
  | None => (acc, [ErrorParsingPaymentArray])
  | Some paymentData =>
      match prop_throw paymentData "product" with
      | None => (acc, [ErrorParsingPaymentArray])
      | Some product =>
          let after_product : option Product.t :=
            if truthy product && isArray product then
              match prop product "0" ||| VStr "" with
              | VStr productString =>
                  let quantity :=
                    match match_Quantity productString with
                    | Some d => num_or (parseInt10 d) 1
                    | None => Product.quantity acc
                    end in
                  Some {| Product.quantity := quantity;
                          Product.productDetails := productString;
                          Product.totalAmount := Product.totalAmount acc |}
              | _ => None (* productString.match is not a function *)
              end
            else Some acc in
          match after_product with
          | None => (acc, [ErrorParsingPaymentArray])
          | Some acc1 =>
              let total := prop paymentData "total" in
              if truthy total then
                match String_ total with
                | Some text =>
                    ({| Product.quantity := Product.quantity acc1;
                        Product.productDetails := Product.productDetails acc1;
                        Product.totalAmount := num_or (parseFloat text) 0 |}, [])
                | None => (acc1, [ErrorParsingPaymentArray])
                end
              else (acc1, [])
          end
      end
  end.

(** The block guarded by [productField['1']]; it sits directly in the outer
    [try].  Its three assignments follow one another, and a throw in one
    of them keeps what the earlier ones assigned. *)
Definition direct_block (one : value) (acc : Product.t)
  : Product.t * list LogLine :=
  match String_ one ≫= JSON_parse with
  | None => (acc, [WarnParsingProductDetails])
  | Some productData =>
      match prop_throw productData "quantity" with
      | None => (acc, [WarnParsingProductDetails])
      | Some q =>
          (* if (productData.quantity) quantity = parseInt(...) || 1 *)
          match (if truthy q then (fun text => num_or (parseInt10 text) 1) <$> String_ q
                 else Some (Product.quantity acc)) with
          | None => (acc, [WarnParsingProductDetails])
          | Some quantity =>
              let acc1 :=
                {| Product.quantity := quantity;
                   Product.productDetails := Product.productDetails acc;
                   Product.totalAmount := Product.totalAmount acc |} in
              (* if (productData.name) productDetails = `${name} (Quantity: ${quantity})` *)
              let name := prop productData "name" in
              match (if truthy name
                     then (fun text => text +:+ " (Quantity: "
                                       +:+ Number_toString quantity +:+ ")")
                          <$> String_ name
                     else Some (Product.productDetails acc)) with
              | None => (acc1, [WarnParsingProductDetails])
              | Some productDetails =>
                  let acc2 :=
                    {| Product.quantity := quantity;
                       Product.productDetails := productDetails;
                       Product.totalAmount := Product.totalAmount acc |} in
                  (* if (productData.price) totalAmount = price * quantity *)
                  let price := prop productData "price" in
                  match (if truthy price
                         then (fun p => PrimFloat.mul p quantity) <$> ToNumber price
                         else Some (Product.totalAmount acc)) with
                  | None => (acc2, [WarnParsingProductDetails])
                  | Some totalAmount =>
                      ({| Product.quantity := quantity;
                          Product.productDetails := productDetails;
                          Product.totalAmount := totalAmount |}, [])
                  end
              end
          end
      end
  end.

Definition string_block (productField : string) : Product.t :=
  let quantity :=
    match match_Quantity productField with
    | Some d => num_or (parseInt10 d) 1
    | None => 1%float
    end in
  let totalAmount :=
    match match_Amount productField with
    | Some a => PrimFloat.mul (num_or (parseFloat a) 0) quantity
    | None => 0%float
    end in
  {| Product.quantity := quantity;
     Product.productDetails := productField;
     Product.totalAmount := totalAmount |}.

(** [parseProductDetails] with the lines its [catch] blocks logged. *)
Definition parseProductDetails_logged (productField : value)
  : Product.t * list LogLine :=
  if truthy productField && is_object productField then
    let paymentArray := prop productField "paymentArray" in
    let '(acc1, log1) :=
      if truthy paymentArray
      then paymentArray_block paymentArray Product.defaults
      else (Product.defaults, []) in
    let one := prop productField "1" in
    if truthy one then
      let '(acc2, log2) := direct_block one acc1 in (acc2, log1 ++ log2)
    else (acc1, log1)
  else
    match productField with
    | VStr s => (string_block s, [])
    | _ => (Product.defaults, [])
    end.

Definition parseProductDetails (productField : value) : Product.t :=
  fst (parseProductDetails_logged productField).

End Parser.

(** ** The normaliser  ([parseFormFields], [parseWebhook]) *)

(** The interface [ParsedSubmission].  Its members are declared as strings
    and numbers, but the parser copies [any]-typed input into several of
    them, so those are values here.  [youthMinistry], [eventName] and
    [eventDate] are optional members that the parser never sets. *)
Record ParsedSubmission := {
  formId : value;
  email : value;
  name : string;
  invoiceNo : value;
  phone : value;
  church : value;
  quantity : float;
  productDetails : string;
  totalAmount : float;
  youthMinistry : value;
  eventName : value;
  eventDate : value
}.

Section Normalizer.
Context `{Builtins}.

(** The name block that the source repeats for [q4_fullName || q4_name],
    [q3_ltstronggtnameltstronggt] and [q3_name]. *)
Definition nameOf (nameValue : value) : option string :=
  if is_object nameValue then
    first ← String_ (prop nameValue "first" ||| VStr "");
    last ← String_ (prop nameValue "last" ||| VStr "");
    Some (trim (first +:+ " " +:+ last))
  else String_ nameValue.

(** One of the three [if (typeof invoiceNo === 'string' &&
    invoiceNo.startsWith(p)) invoiceNo = invoiceNo.substring(n)]. *)
Definition strip_prefix (p : string) (n : nat) (invoiceNo : value) : value :=
  match invoiceNo with
  | VStr s => if startsWith s p then VStr (substring_from n s) else invoiceNo
  | _ => invoiceNo
  end.

(** The three statements in the order of the source: none of them is an
    [else] branch of another. *)
Definition cleanInvoiceNo (invoiceNo : value) : value :=
  strip_prefix "INV-" 4 (strip_prefix "# " 2 (strip_prefix "# INV-" 6 invoiceNo)).

(** The value selected by the chain of invoice aliases; [now] is
    [Date.now()], read when the default is built. *)
Definition rawInvoiceNo (now : N) (fields : value) : value :=
  let f := prop fields in
  if truthy (f "q38_invoiceId") || truthy (f "38") then f "q38_invoiceId" ||| f "38"
  else if truthy (f "q11_invoiceId") then f "q11_invoiceId"
  else if truthy (f "q7_invoiceId") then f "q7_invoiceId"
  else if truthy (f "q11_autoincrement") then f "q11_autoincrement"
  else if truthy (f "invoiceId") then f "invoiceId"
  else VStr ("INV-" +:+ pretty now).

(** The blocks of [parseFormFields], one for each field, in the order of
    the source.  The email is settled in two places, before and after the
    name: both are in [emailOf]. *)
Definition emailOf (fields : value) : value :=
  let f := prop fields in
  let email :=
    if truthy (f "q4_email4") then f "q4_email4"
    else if truthy (f "q5_email") then f "q5_email"
    else if truthy (f "q4_email") then f "q4_email"
    else if truthy (f "email") then f "email"
    else VStr "" in
  if negb (truthy email) && truthy (f "q5_email") then f "q5_email" else email.

Definition nameFrom (fields : value) : option string :=
  let f := prop fields in
  if truthy (f "q4_fullName") || truthy (f "q4_name") then
    nameOf (f "q4_fullName" ||| f "q4_name")
  else if truthy (f "q3_ltstronggtnameltstronggt") then
    nameOf (f "q3_ltstronggtnameltstronggt")
  else if truthy (f "q3_name") then
    nameOf (f "q3_name")
  else if truthy (f "q3_name[first]") && truthy (f "q3_name[last]") then
    first ← String_ (f "q3_name[first]");
    last ← String_ (f "q3_name[last]");
    Some (trim (first +:+ " " +:+ last))
  else if truthy (f "name") then
    String_ (f "name")
  else Some "".

Definition productOf (fields : value) : Product.t :=
  let f := prop fields in
  if truthy (f "q3_products") || truthy (f "q3_myProducts") || truthy (f "3") then
    parseProductDetails (f "q3_products" ||| f "q3_myProducts" ||| f "3")
  else Product.defaults.

Definition phoneOf (fields : value) : option value :=
  let f := prop fields in
  if truthy (f "q7_phone") || truthy (f "q7_phoneNumber") then
    Some (f "q7_phone" ||| f "q7_phoneNumber")
  else if truthy (f "q16_ltstronggtphoneNumberltstronggt") then
    Some (f "q16_ltstronggtphoneNumberltstronggt")
  else if truthy (f "q11_phoneNumber") then
    if is_object (f "q11_phoneNumber")
       && truthy (prop (f "q11_phoneNumber") "full")
    then Some (prop (f "q11_phoneNumber") "full")
    else VStr <$> String_ (f "q11_phoneNumber")
  else if truthy (f "q11_phoneNumber[full]") then
    Some (f "q11_phoneNumber[full]")
  else if truthy (f "phone") then
    Some (f "phone")
  else Some (VStr "").

Definition churchOf (fields : value) : value :=
  let f := prop fields in
  if truthy (f "q10_church") || truthy (f "q10_youthGroup") then
    f "q10_church" ||| f "q10_youthGroup"
  else if truthy (f "q12_ltstronggtwhichYouth") then
    f "q12_ltstronggtwhichYouth"
  else if truthy (f "q9_youthGroup") then
    f "q9_youthGroup"
  else if truthy (f "q12_textbox") then
    f "q12_textbox"
  else if truthy (f "church") || truthy (f "youthGroup") then
    f "church" ||| f "youthGroup"
  else VStr "".

(** [parseFormFields]; [None] is a thrown exception: the [TypeError] of
    the first property read on [null] or [undefined], or the one of a name
    or phone value that cannot be converted to a string.  The other
    blocks do not throw. *)
Definition parseFormFields (now : N) (fields : value) : option ParsedSubmission :=
  match fields with
  | VUndef | VNull => None
  | _ =>
      let f := prop fields in
      name ← nameFrom fields;
      let product := productOf fields in
      phone ← phoneOf fields;
      Some {| formId := f "formID" ||| f "form_id" ||| f "formId" ||| VStr "";
              email := emailOf fields;
              name := name;
              invoiceNo := cleanInvoiceNo (rawInvoiceNo now fields);
              phone := phone;
              church := churchOf fields;
              quantity := Product.quantity product;
              productDetails := Product.productDetails product;
              totalAmount := Product.totalAmount product;
              youthMinistry := VUndef;
              eventName := VUndef;
              eventDate := VUndef |}
  end.

(** The object built in the [rawRequest] branch: the two form-id
    properties first, then every entry of the parsed request assigned on
    top of them. *)
Definition formFields_of (formId : value) (entries : list (string * value)) : value :=
  foldl (fun formFields '(key, v) => set_prop formFields key v)
        (set_prop (set_prop (obj ∅) "formID" formId) "formId" formId)
        entries.

(** [parseWebhook]; [None] is a thrown exception (the outer [catch]
    rethrows).  The first statements read [Object.keys(payload)] and
    [payload.formID], which throws on [null] and [undefined].  The
    [rawRequest] branch is one [try]: the [TypeError] of a [rawRequest]
    that cannot be converted, the [SyntaxError] of [JSON.parse], the
    [TypeError] of [Object.entries(null)] and an exception of
    [parseFormFields] on the extracted fields are all caught there and
    lead to the legacy parse of the payload itself, whose exception
    leaves [parseWebhook]. *)
Definition parseWebhook (now : N) (payload : value) : option ParsedSubmission :=
  match payload with
  | VUndef | VNull => None
  | _ =>
      let formId :=
        prop payload "formID" ||| prop payload "form_id" ||| prop payload "formId"
        ||| VStr "" in
      let rawRequest := prop payload "rawRequest" in
      let nested : option ParsedSubmission :=
        if truthy rawRequest then
          text ← String_ rawRequest;
          rawData ← JSON_parse text;
          entries ← Object_entries rawData;
          parseFormFields now (formFields_of formId entries)
        else None in
      match nested with
      | Some ticketData => Some ticketData
      | None => parseFormFields now payload
      end
  end.

End Normalizer.

(** ** The document store

    The three models and the store behind them are not among the sources;
    they are set down here from sections 3 and 6 of the specification. *)

(** Modelled from the spec: the ids the store gives to its documents. *)
Definition ObjectId := N.

(** Modelled from the spec: the entity Event of section 3, for the missing
    [event.model]. *)
Module Event.
Record t := mk {
  _id : ObjectId;
  formId : string;
  title : value;
  startTime : N;
  endTime : N
}.
End Event.

(** Modelled from the spec: the entity User of section 3, for the missing
    [user.model]. *)
Module User.
Record t := mk {
  _id : ObjectId;
  email : string;
  passwordHash : string
}.
End User.

(** Modelled from the spec: the entity Ticket of section 3, for the missing
    [ticket.model].  The key fields are strings; the members that the
    parser fills with [any]-typed input are kept as values. *)
Module Ticket.
Record t := mk {
  _id : ObjectId;
  invoiceNo : string;
  user : ObjectId;
  event : ObjectId;
  name : string;
  email : string;
  phone : value;
  church : value;
  youthMinistry : value;
  quantity : float;
  productDetails : string;
  totalAmount : float;
  checkedIn : bool;
  checkInTime : option N
}.
End Ticket.

(** The argument of [emailService.sendTicketEmail]. *)
Module Mail.
Record t := mk {
  to : value;
  name : string;
  eventTitle : value;
  eventDate : value;
  invoiceNo : value;
  qrDataUrl : string
}.
End Mail.

(** Modelled from the spec: the collaborators of section 6 (the casts of
    the missing schemas, the QR generator, the email sender), each taken
    as it comes; and with them the [bcrypt] module that [webhookHandler]
    loads. *)
Class Services := {
  (** [mongoose.Types.ObjectId.isValid] *)
  ObjectId_isValid : value -> bool;
  (** the casts of the schema; [None] is a [CastError] *)
  castObjectId : value -> option ObjectId;
  castString : value -> option string;
  (** [generateQrCode]; [None] is a rejection *)
  generateQrCode : value -> option string;
  (** [sendTicketEmail]: does the promise resolve? *)
  sendTicketEmail : Mail.t -> bool;
  (** [require('bcrypt')] followed by [bcrypt.hash] of the random
      temporary password; [None] when the module cannot be loaded or the
      hash is rejected; the randomness is indexed by the id that the new
      user would get *)
  bcrypt_hash : ObjectId -> option string
}.

Inductive Collection := Events | Users | Tickets.

(** A call that reached the store. *)
Inductive DbCall :=
| Read (c : Collection)
| Write (c : Collection) (id : ObjectId).

(** The state the handlers act on: the three collections, the id
    generator, and the calls made so far to the store, to the QR service
    and to the mailer. *)
Record World := {
  events : list Event.t;
  users : list User.t;
  tickets : list Ticket.t;
  next_id : ObjectId;
  db_log : list DbCall;
  qr_log : list value;
  mail_log : list Mail.t
}.

Definition log_db (c : DbCall) (w : World) : World :=
  {| events := events w; users := users w; tickets := tickets w;
     next_id := next_id w; db_log := db_log w ++ [c];
     qr_log := qr_log w; mail_log := mail_log w |}.

(** ** Handlers as state-and-exception computations *)

Inductive Res (A : Type) :=
| Ok (a : A)
| Thrown.
Arguments Ok {A} a.
Arguments Thrown {A}.

Definition M (A : Type) : Type := World -> World * Res A.

Definition ret {A} (a : A) : M A := fun w => (w, Ok a).
Definition throw {A} : M A := fun w => (w, Thrown).
Definition bind {A B} (m : M A) (k : A -> M B) : M B :=
  fun w => match m w with
           | (w', Ok a) => k a w'
           | (w', Thrown) => (w', Thrown)
           end.
Definition modify (f : World -> World) : M unit := fun w => (f w, Ok tt).
Definition gets {A} (f : World -> A) : M A := fun w => (w, Ok (f w)).
Definition or_throw {A} (o : option A) : M A :=
  match o with Some a => ret a | None => throw end.

Notation "x <- m ;; k" := (bind m (fun x => k))
  (at level 100, m at next level, right associativity).

(** The data of a response.  The handlers send a projection of a ticket;
    the document stands for it here. *)
Inductive Payload :=
| NoData
| Received (email formId invoiceNo : value)
| TicketId (id : ObjectId)
| TicketData (ticket : Ticket.t)
| TicketList (l : list Ticket.t).

(** What [res.status(...).json(...)] sends. *)
Record Response := {
  status : nat;
  success : bool;
  message : option string;
  data : Payload
}.

Definition failure (code : nat) (msg : string) : Response :=
  {| status := code; success := false; message := Some msg; data := NoData |}.

(** [try { body } catch (error) { res.status(500).json(...) }] *)
Definition handler (msg500 : string) (body : M Response) : World -> World * Response :=
  fun w => match body w with
           | (w', Ok r) => (w', r)
           | (w', Thrown) => (w', failure 500 msg500)
           end.

Section Store.
Context `{Services}.

(** Modelled from the spec: [findOne] and [save] of section 6 on the
    events and on the users.  A query value goes through the cast of the
    schema first; a document is found by its key field; a new document
    gets the next id and is appended to its collection. *)
Definition Event_findOne (formId : value) : M (option Event.t) :=
  f <- or_throw (castString formId) ;;
  _ <- modify (log_db (Read Events)) ;;
  gets (fun w => List.find (fun e => String.eqb (Event.formId e) f) (events w)).

Definition Event_create (formId title : value) (startTime endTime : N) : M Event.t :=
  f <- or_throw (castString formId) ;;
  id <- gets next_id ;;
  let e := {| Event._id := id; Event.formId := f; Event.title := title;
              Event.startTime := startTime; Event.endTime := endTime |} in
  _ <- modify (fun w =>
         log_db (Write Events id)
           {| events := events w ++ [e]; users := users w; tickets := tickets w;
              next_id := N.succ (next_id w); db_log := db_log w;
              qr_log := qr_log w; mail_log := mail_log w |}) ;;
  ret e.

Definition User_findOne (email : value) : M (option User.t) :=
  m <- or_throw (castString email) ;;
  _ <- modify (log_db (Read Users)) ;;
  gets (fun w => List.find (fun u => String.eqb (User.email u) m) (users w)).

Definition User_create (email : value) (passwordHash : string) : M User.t :=
  m <- or_throw (castString email) ;;
  id <- gets next_id ;;
  let u := {| User._id := id; User.email := m;
              User.passwordHash := passwordHash |} in
  _ <- modify (fun w =>
         log_db (Write Users id)
           {| events := events w; users := users w ++ [u]; tickets := tickets w;
              next_id := N.succ (next_id w); db_log := db_log w;
              qr_log := qr_log w; mail_log := mail_log w |}) ;;
  ret u.

(** Modelled from the spec: [findOne] of section 6 on the tickets.  The
    two shapes of query are [{ _id }] and [{ invoiceNo }], each with an
    optional [event]. *)
Inductive TicketKey :=
| ById (ticketId : value)
| ByInvoiceNo (invoiceNo : value).

Definition ticket_matches (key : ObjectId + string) (event : option ObjectId)
    (t : Ticket.t) : bool :=
  match key with
  | inl id => N.eqb (Ticket._id t) id
  | inr inv => String.eqb (Ticket.invoiceNo t) inv
  end
  && match event with
     | Some e => N.eqb (Ticket.event t) e
     | None => true
     end.

Definition cast_key (key : TicketKey) : option (ObjectId + string) :=
  match key with
  | ById ticketId => inl <$> castObjectId ticketId
  | ByInvoiceNo invoiceNo => inr <$> castString invoiceNo
  end.

(** [if (eventId) query.event = eventId] *)
Definition event_filter (eventId : value) : option value :=
  if truthy eventId then Some eventId else None.

Definition cast_event (eventId : option value) : option (option ObjectId) :=
  match eventId with
  | Some e => Some <$> castObjectId e
  | None => Some None
  end.

Definition Ticket_findOne (key : TicketKey) (eventId : option value)
  : M (option Ticket.t) :=
  k <- or_throw (cast_key key) ;;
  e <- or_throw (cast_event eventId) ;;
  _ <- modify (log_db (Read Tickets)) ;;
  gets (fun w => List.find (ticket_matches k e) (tickets w)).

(** Modelled from the spec: [new Ticket({...})] followed by
    [ticket.save()]; a new ticket starts [NOT_CHECKED_IN] (section 4.4). *)
Definition Ticket_create (s : ParsedSubmission) (user : User.t) (event : Event.t)
  : M Ticket.t :=
  inv <- or_throw (castString (invoiceNo s)) ;;
  m <- or_throw (castString (email s)) ;;
  id <- gets next_id ;;
  let t := {| Ticket._id := id;
              Ticket.invoiceNo := inv;
              Ticket.user := User._id user;
              Ticket.event := Event._id event;
              Ticket.name := name s;
              Ticket.email := m;
              Ticket.phone := phone s;
              Ticket.church := church s;
              Ticket.youthMinistry := youthMinistry s;
              Ticket.quantity := num_or (quantity s) 1;
              Ticket.productDetails := productDetails s;
              Ticket.totalAmount := totalAmount s;
              Ticket.checkedIn := false;
              Ticket.checkInTime := None |} in
  _ <- modify (fun w =>
         log_db (Write Tickets id)
           {| events := events w; users := users w; tickets := tickets w ++ [t];
              next_id := N.succ (next_id w); db_log := db_log w;
              qr_log := qr_log w; mail_log := mail_log w |}) ;;
  ret t.

(** The in-memory document after [ticket.checkedIn = true;
    ticket.checkInTime = new Date()]. *)
Definition mark_checkedIn (now : N) (t : Ticket.t) : Ticket.t :=
  {| Ticket._id := Ticket._id t;
     Ticket.invoiceNo := Ticket.invoiceNo t;
     Ticket.user := Ticket.user t;
     Ticket.event := Ticket.event t;
     Ticket.name := Ticket.name t;
     Ticket.email := Ticket.email t;
     Ticket.phone := Ticket.phone t;
     Ticket.church := Ticket.church t;
     Ticket.youthMinistry := Ticket.youthMinistry t;
     Ticket.quantity := Ticket.quantity t;
     Ticket.productDetails := Ticket.productDetails t;
     Ticket.totalAmount := Ticket.totalAmount t;
     Ticket.checkedIn := true;
     Ticket.checkInTime := Some now |}.

(** Modelled from the spec: [save] of section 6 on a document that was
    read from the store and then marked; the two modified paths are
    written to the stored document of that [_id]. *)
Definition Ticket_save_checkIn (id : ObjectId) (now : N) : M unit :=
  modify (fun w =>
    log_db (Write Tickets id)
      {| events := events w; users := users w;
         tickets := map (fun t => if N.eqb (Ticket._id t) id
                                  then mark_checkedIn now t else t) (tickets w);
         next_id := next_id w; db_log := db_log w;
         qr_log := qr_log w; mail_log := mail_log w |}).

(** Modelled from the spec: [Ticket.find(criteria).sort({ name: 1
    }).limit(50)] with the criteria of [searchGuests]: the event and, when
    a query was given, the [$or] of the regular expression on [name] and
    on [email].  Names are compared code unit by code unit. *)
Definition search_matches (event : ObjectId) (searchRegex : option (string -> bool))
    (t : Ticket.t) : bool :=
  N.eqb (Ticket.event t) event
  && match searchRegex with
     | Some re => re (Ticket.name t) || re (Ticket.email t)
     | None => true
     end.

Definition name_le (a b : Ticket.t) : Prop :=
  String.le (Ticket.name a) (Ticket.name b).

#[local] Instance name_le_dec : RelDecision name_le.
Proof. intros a b. unfold name_le. apply _. Defined.

Definition Ticket_find_sorted (eventId : value) (searchRegex : option (string -> bool))
  : M (list Ticket.t) :=
  e <- or_throw (castObjectId eventId) ;;
  _ <- modify (log_db (Read Tickets)) ;;
  gets (fun w =>
    take 50 (merge_sort name_le (filter (fun t => search_matches e searchRegex t = true)
                                        (tickets w)))).

End Store.

(** ** The handlers *)

Section Handlers.
Context `{Builtins} `{Services}.

Definition seven_days : N := 7 * 24 * 60 * 60 * 1000.

(** [generateQrCode(text)] and [sendTicketEmail(mail)], each recorded
    before its outcome is known. *)
Definition call_generateQrCode (text : value) : M string :=
  _ <- modify (fun w =>
         {| events := events w; users := users w; tickets := tickets w;
            next_id := next_id w; db_log := db_log w;
            qr_log := qr_log w ++ [text]; mail_log := mail_log w |}) ;;
  or_throw (generateQrCode text).

Definition call_sendTicketEmail (mail : Mail.t) : M unit :=
  _ <- modify (fun w =>
         {| events := events w; users := users w; tickets := tickets w;
            next_id := next_id w; db_log := db_log w;
            qr_log := qr_log w; mail_log := mail_log w ++ [mail] |}) ;;
  if sendTicketEmail mail then ret tt else throw.

(** The three blocks of [webhookHandler] that follow the validation, named
    after their comments in the source.  [now] is the clock reading of the
    request. *)

(** "Find or create the event" *)
Definition findOrCreateEvent (now : N) (submissionData : ParsedSubmission)
  : M Event.t :=
  found <- Event_findOne (formId submissionData) ;;
  match found with
  | Some event => ret event
  | None =>
      Event_create (formId submissionData)
        (eventName submissionData ||| VStr "Youth Alive Event")
        now (now + seven_days)
  end.

(** "Find or create the user".  For a new user the source loads [bcrypt]
    and hashes a random password before it builds the document: a failure
    there ends the request before anything is saved. *)
Definition findOrCreateUser (submissionData : ParsedSubmission) : M User.t :=
  found <- User_findOne (email submissionData) ;;
  match found with
  | Some user => ret user
  | None =>
      id <- gets next_id ;;
      hashedPassword <- or_throw (bcrypt_hash id) ;;
      User_create (email submissionData) hashedPassword
  end.

(** "Check if ticket already exists": the existing ticket, or a new one
    followed by the QR code and the confirmation email. *)
Definition findOrCreateTicket (submissionData : ParsedSubmission)
    (user : User.t) (event : Event.t) : M Ticket.t :=
  found <- Ticket_findOne (ByInvoiceNo (invoiceNo submissionData)) None ;;
  match found with
  | Some ticket => ret ticket
  | None =>
      ticket <- Ticket_create submissionData user event ;;
      qrDataUrl <- call_generateQrCode (invoiceNo submissionData) ;;
      _ <- call_sendTicketEmail
             {| Mail.to := email submissionData;
                Mail.name := name submissionData;
                Mail.eventTitle := Event.title event;
                Mail.eventDate :=
                  eventDate submissionData
                  ||| VStr (toLocaleDateString (Event.startTime event));
                Mail.invoiceNo := invoiceNo submissionData;
                Mail.qrDataUrl := qrDataUrl |} ;;
      ret ticket
  end.

(** [webhookHandler] from the first of these blocks to the response: what
    the specification calls [processSubmission]. *)
Definition processSubmission (now : N) (submissionData : ParsedSubmission)
  : M Response :=
  event <- findOrCreateEvent now submissionData ;;
  user <- findOrCreateUser submissionData ;;
  ticket <- findOrCreateTicket submissionData user event ;;
  ret {| status := 200; success := true;
         message := Some "Webhook processed successfully";
         data := TicketId (Ticket._id ticket) |}.

Definition webhookHandler (now : N) (body : value) : World -> World * Response :=
  handler "Error processing webhook"
    (submissionData <- or_throw (parseWebhook now body) ;;
     if negb (truthy (email submissionData))
        || negb (truthy (formId submissionData))
        || negb (truthy (invoiceNo submissionData))
     then
       ret {| status := 400; success := false;
              message := Some "Invalid webhook data: missing required fields";
              data := Received (email submissionData) (formId submissionData)
                               (invoiceNo submissionData) |}
     else processSubmission now submissionData).

(** [if (query) { const searchRegex = new RegExp(String(query), 'i'); ... }]:
    the regular expression of the criteria, if any; the outer [None] is the
    [TypeError] of a query that cannot be converted to a string or the
    [SyntaxError] of an invalid pattern. *)
Definition searchRegex_of (q : value) : option (option (string -> bool)) :=
  if truthy q then Some <$> (String_ q ≫= RegExp_i) else Some None.

(** [searchGuests]; [query] is [req.query]. *)
Definition searchGuests (query : value) : World -> World * Response :=
  handler "Error searching guests"
    (_ <- or_throw (prop_throw query "eventId") ;;
     let eventId := prop query "eventId" in
     let q := prop query "query" in
     if negb (truthy eventId) then ret (failure 400 "Event ID is required")
     else
       searchRegex <- or_throw (searchRegex_of q) ;;
       found <- Ticket_find_sorted eventId searchRegex ;;
       ret {| status := 200; success := true; message := None;
              data := TicketList found |}).

Definition notFoundMessage (eventId : value) : string :=
  if truthy eventId
  then "Ticket not found for this event. This QR code may be for a different event."
  else "Ticket not found".

(** [`${ticket.name} has already been checked in at
    ${ticket.checkInTime?.toLocaleString()}`] *)
Definition alreadyCheckedInMessage (ticket : Ticket.t) : string :=
  Ticket.name ticket +:+ " has already been checked in at "
  +:+ match Ticket.checkInTime ticket with
      | Some d => toLocaleString d
      | None => "undefined"
      end.

(** [checkIn] runs in two stretches, separated by the two awaited store
    calls.  The first goes from the start to [Ticket.findOne]: either a
    response is sent at once or the store is read. *)
Definition checkIn_find (body : value) : M (Response + option Ticket.t) :=
  _ <- or_throw (prop_throw body "ticketId") ;;
  let ticketId := prop body "ticketId" in
  let invoiceNo := prop body "invoiceNo" in
  let eventId := prop body "eventId" in
  if negb (truthy ticketId) && negb (truthy invoiceNo) then
    ret (inl (failure 400 "Ticket ID or invoice number is required"))
  else if truthy ticketId then
    if negb (ObjectId_isValid ticketId) then
      ret (inl (failure 400 "Invalid ticket ID format"))
    else
      found <- Ticket_findOne (ById ticketId) (event_filter eventId) ;;
      ret (inr found)
  else
    found <- Ticket_findOne (ByInvoiceNo invoiceNo) (event_filter eventId) ;;
    ret (inr found).

(** The second stretch works on the document that was read: it answers
    404 or 400, or marks the document, saves it and answers 200. *)
Definition checkIn_save (now : N) (body : value) (found : option Ticket.t)
  : M Response :=
  match found with
  | None => ret (failure 404 (notFoundMessage (prop body "eventId")))
  | Some ticket =>
      if Ticket.checkedIn ticket then
        ret (failure 400 (alreadyCheckedInMessage ticket))
      else
        let ticket' := mark_checkedIn now ticket in
        _ <- Ticket_save_checkIn (Ticket._id ticket) now ;;
        ret {| status := 200; success := true;
               message := Some ("Welcome " +:+ Ticket.name ticket'
                                +:+ "! Check-in successful.");
               data := TicketData ticket' |}
  end.

(** [checkIn]; [body] is [req.body], [now] the value of [new Date()]. *)
Definition checkIn (now : N) (body : value) : World -> World * Response :=
  handler "Error checking in guest"
    (r <- checkIn_find body ;;
     match r with
     | inl response => ret response
     | inr found => checkIn_save now body found
     end).

(** [lookupTicket]; [body] is [req.body]. *)
Definition lookupTicket (body : value) : World -> World * Response :=
  handler "Error looking up ticket"
    (_ <- or_throw (prop_throw body "invoiceNo") ;;
     let invoiceNo := prop body "invoiceNo" in
     let eventId := prop body "eventId" in
     if negb (truthy invoiceNo) then ret (failure 400 "Invoice number is required")
     else
       found <- Ticket_findOne (ByInvoiceNo invoiceNo) (event_filter eventId) ;;
       match found with
       | None =>
           ret (failure 404
                  (if truthy eventId
                   then "Ticket not found for this event. Please verify the QR code and event."
                   else "Ticket not found"))
       | Some ticket =>
           ret {| status := 200; success := true; message := Some "Ticket found";
                  data := TicketData ticket |}
       end).

(** The operations of the core, as one request type. *)
Inductive Request :=
| Webhook (body : value)
| SearchGuests (query : value)
| CheckIn (body : value)
| LookupTicket (body : value).

Definition serve (now : N) (r : Request) : World -> World * Response :=
  match r with
  | Webhook body => webhookHandler now body
  | SearchGuests query => searchGuests query
  | CheckIn body => checkIn now body
  | LookupTicket body => lookupTicket body
  end.

(** Check-in attempts served one after the other: each with its clock
    reading, each run to its response before the next one starts. *)
Fixpoint checkIn_each (attempts : list (N * value)) (w : World)
  : World * list Response :=
  match attempts with
  | [] => (w, [])
  | (now, body) :: rest =>
      let '(w1, response) := checkIn now body w in
      let '(w2, responses) := checkIn_each rest w1 in
      (w2, response :: responses)
  end.

(** *** Requests in flight

    The runtime runs one handler at a time but switches between requests
    wherever a handler awaits.  A check-in in flight is at its start, or
    holds the document it read, or has answered. *)
Inductive Task :=
| Start (body : value)
| Holding (body : value) (found : option Ticket.t)
| Done (response : Response).

(** One stretch of a check-in, up to and including its next store call. *)
Definition step (now : N) (t : Task) : World -> World * Task :=
  fun w =>
    match t with
    | Start body =>
        match checkIn_find body w with
        | (w', Ok (inl response)) => (w', Done response)
        | (w', Ok (inr found)) => (w', Holding body found)
        | (w', Thrown) => (w', Done (failure 500 "Error checking in guest"))
        end
    | Holding body found =>
        match checkIn_save now body found w with
        | (w', Ok response) => (w', Done response)
        | (w', Thrown) => (w', Done (failure 500 "Error checking in guest"))
        end
    | Done response => (w, Done response)
    end.

(** Two check-ins in flight and a schedule: at each turn the first
    ([true]) or the second ([false]) request runs its next stretch, at the
    given clock reading. *)
Fixpoint run2 (schedule : list (bool * N)) (a b : Task) (w : World)
  : World * (Task * Task) :=
  match schedule with
  | [] => (w, (a, b))
  | (true, now) :: rest => let '(w', a') := step now a w in run2 rest a' b w'
  | (false, now) :: rest => let '(w', b') := step now b w in run2 rest a b' w'
  end.

End Handlers.

(** ** A reference runtime

    Concrete builtins and services for the closed examples.  They cover a
    fragment of what the language accepts: JSON texts whose numbers are
    integer numerals and whose strings escape only the quote, the
    backslash and the slash; decimal numerals without exponent and with
    at most fifteen significant digits; the integers below 2^53 when
    printing; patterns made of ordinary characters and the dot.  Outside
    the fragment the functions answer with a failure or with [NaN]; the
    examples stay inside it.  The module [bcrypt] is not among the
    dependencies that [package.json] declares ([bcryptjs] is), so loading
    it fails in the reference services. *)

Module Reference.

Definition dquote : ascii := ascii_of_nat 34.
Definition backslash : ascii := ascii_of_nat 92.

(** JSON texts are written below with apostrophes in place of the
    double quotes; [dq] puts the double quotes back. *)
Fixpoint dq (s : string) : string :=
  match s with
  | EmptyString => EmptyString
  | String a s' => String (if Ascii.eqb a "'" then dquote else a) (dq s')
  end.

Definition num_of_Z (z : Z) : float :=
  SF2Prim (binary_normalize 53 1024 z 0 false).

Definition nan : float := PrimFloat.div 0 0.

Definition is_json_ws (a : ascii) : bool :=
  let n := nat_of_ascii a in
  (n =? 32)%nat || (n =? 9)%nat || (n =? 10)%nat || (n =? 13)%nat.

Fixpoint digits_Z (acc : Z) (s : string) : Z :=
  match s with
  | String a s' =>
      match digit_of a with
      | Some d => digits_Z (10 * acc + Z.of_nat d) s'
      | None => acc
      end
  | EmptyString => acc
  end.

(** The characters of a JSON string after the opening quote: the content
    and the text after the closing quote. *)
Fixpoint json_string (s : string) : option (string * string) :=
  match s with
  | EmptyString => None
  | String c r =>
      if Ascii.eqb c dquote then Some (EmptyString, r)
      else if Ascii.eqb c backslash then
        match r with
        | String e r' =>
            if Ascii.eqb e dquote || Ascii.eqb e backslash || Ascii.eqb e "/" then
              match json_string r' with
              | Some (t, rest) => Some (String e t, rest)
              | None => None
              end
            else None
        | EmptyString => None
        end
      else if (nat_of_ascii c <? 32)%nat then None
      else
        match json_string r with
        | Some (t, rest) => Some (String c t, rest)
        | None => None
        end
  end.

(** An integer numeral: no sign here, no leading zero, and nothing of a
    fraction or an exponent after it. *)
Definition json_int (s : string) : option (Z * string) :=
  let ds := take_while is_digit s in
  let rest := skip_while is_digit s in
  let leading_zero :=
    match ds with String a (String _ _) => Ascii.eqb a "0" | _ => false end in
  let continues :=
    match rest with
    | String a _ => Ascii.eqb a "." || Ascii.eqb a "e" || Ascii.eqb a "E"
    | EmptyString => false
    end in
  if String.eqb ds "" || leading_zero || continues then None
  else Some (digits_Z 0 ds, rest).

Fixpoint json_value (fuel : nat) (s : string) : option (value * string) :=
  match fuel with
  | O => None
  | S n =>
      match skip_while is_json_ws s with
      | EmptyString => None
      | String c r as s0 =>
          if Ascii.eqb c "{" then
            match skip_while is_json_ws r with
            | String c' r' =>
                if Ascii.eqb c' "}" then Some (obj ∅, r') else json_members n r ∅
            | EmptyString => None
            end
          else if Ascii.eqb c "[" then
            match skip_while is_json_ws r with
            | String c' r' =>
                if Ascii.eqb c' "]" then Some (VArr [], r') else json_elements n r []
            | EmptyString => None
            end
          else if Ascii.eqb c dquote then
            match json_string r with
            | Some (t, rest) => Some (VStr t, rest)
            | None => None
            end
          else if startsWith s0 "true" then Some (VBool true, substring_from 4 s0)
          else if startsWith s0 "false" then Some (VBool false, substring_from 5 s0)
          else if startsWith s0 "null" then Some (VNull, substring_from 4 s0)
          else if Ascii.eqb c "-" then
            match json_int r with
            | Some (z, rest) =>
                Some (VNum (if (z =? 0)%Z then (-0)%float else num_of_Z (- z)), rest)
            | None => None
            end
          else
            match json_int s0 with
            | Some (z, rest) => Some (VNum (num_of_Z z), rest)
            | None => None
            end
      end
  end
with json_members (fuel : nat) (s : string) (acc : gmap string value)
  : option (value * string) :=
  match fuel with
  | O => None
  | S n =>
      match skip_while is_json_ws s with
      | String c r =>
          if Ascii.eqb c dquote then
            match json_string r with
            | Some (k, r1) =>
                match skip_while is_json_ws r1 with
                | String c2 r2 =>
                    if Ascii.eqb c2 ":" then
                      match json_value n r2 with
                      | Some (v, r3) =>
                          match skip_while is_json_ws r3 with
                          | String c4 r4 =>
                              if Ascii.eqb c4 "," then json_members n r4 (<[k:=v]> acc)
                              else if Ascii.eqb c4 "}" then Some (obj (<[k:=v]> acc), r4)
                              else None
                          | EmptyString => None
                          end
                      | None => None
                      end
                    else None
                | EmptyString => None
                end
            | None => None
            end
          else None
      | EmptyString => None
      end
  end
with json_elements (fuel : nat) (s : string) (acc : list value)
  : option (value * string) :=
  match fuel with
  | O => None
  | S n =>
      match json_value n s with
      | Some (v, r1) =>
          match skip_while is_json_ws r1 with
          | String c r2 =>
              if Ascii.eqb c "," then json_elements n r2 (acc ++ [v])
              else if Ascii.eqb c "]" then Some (VArr (acc ++ [v]), r2)
              else None
          | EmptyString => None
          end
      | None => None
      end
  end.

Definition ref_JSON_parse (text : string) : option value :=
  match json_value (S (String.length text)) text with
  | Some (v, rest) =>
      if String.eqb (skip_while is_json_ws rest) "" then Some v else None
  | None => None
  end.

(** Printing: the integers below 2^53, and [NaN]. *)
Definition integer_of (n : float) : option Z :=
  match Prim2SF n with
  | S754_zero _ => Some 0%Z
  | S754_finite s m e =>
      let mag :=
        if (0 <=? e)%Z then Some (Z.pos m * 2 ^ e)%Z
        else if (Z.pos m mod 2 ^ (- e) =? 0)%Z then Some (Z.pos m / 2 ^ (- e))%Z
        else None in
      (fun z : Z => if s then (- z)%Z else z) <$> mag
  | _ => None
  end.

Definition ref_Number_toString (n : float) : string :=
  match integer_of n with
  | Some z => if (Z.abs z <? 2 ^ 53)%Z then pretty z else "NaN"
  | None => "NaN"
  end.

(** Reading a decimal numeral at the start of a text.  With [frac] the
    numeral may have a fraction ([parseFloat]), without it it ends at the
    dot ([parseInt]). *)
Definition read_decimal (frac : bool) (text : string) : float :=
  let s := skip_while is_js_space text in
  let '(neg, s) :=
    match s with
    | String a r =>
        if Ascii.eqb a "-" then (true, r)
        else if Ascii.eqb a "+" then (false, r) else (false, s)
    | EmptyString => (false, s)
    end in
  let int_part := take_while is_digit s in
  let rest := skip_while is_digit s in
  let frac_part :=
    match rest with
    | String a r => if frac && Ascii.eqb a "." then take_while is_digit r else ""
    | EmptyString => ""
    end in
  let digits := int_part +:+ frac_part in
  if String.eqb digits "" || (15 <? String.length digits)%nat then nan
  else
    let m := num_of_Z (digits_Z 0 digits) in
    let scale := num_of_Z (10 ^ Z.of_nat (String.length frac_part)) in
    let x := PrimFloat.div m scale in
    if neg then PrimFloat.opp x else x.

Definition ref_parseInt10 (text : string) : float := read_decimal false text.

Definition ref_parseFloat (text : string) : float := read_decimal true text.

Definition ref_StringToNumber (s : string) : float :=
  let t := trim s in
  if String.eqb t "" then 0%float
  else if String.eqb (skip_while (fun a => is_digit a || Ascii.eqb a ".") t) ""
  then read_decimal true t else nan.

(** Patterns: every character stands for itself, without regard to the
    case of letters, except the dot, which stands for any character that
    is not a line terminator.  A pattern with another special character
    is outside the fragment and is rejected. *)
Definition is_special (a : ascii) : bool :=
  existsb (Ascii.eqb a)
    ["\"; "^"; "$"; "*"; "+"; "?"; "("; ")"; "["; "]"; "{"; "}"; "|"]%char.

Definition is_line_terminator (a : ascii) : bool :=
  let n := nat_of_ascii a in (n =? 10)%nat || (n =? 13)%nat.

Fixpoint matches_here (pattern s : string) : bool :=
  match pattern, s with
  | EmptyString, _ => true
  | String _ _, EmptyString => false
  | String p pattern', String a s' =>
      (if Ascii.eqb p "." then negb (is_line_terminator a)
       else Ascii.eqb (lower p) (lower a))
      && matches_here pattern' s'
  end.

Fixpoint matches_somewhere (pattern s : string) : bool :=
  matches_here pattern s
  || match s with
     | String _ s' => matches_somewhere pattern s'
     | EmptyString => false
     end.

Definition ref_RegExp_i (source : string) : option (string -> bool) :=
  if existsb is_special (list_ascii_of_string source) then None
  else Some (matches_somewhere source).

#[export] Instance builtins : Builtins := {|
  JSON_parse := ref_JSON_parse;
  Number_toString := ref_Number_toString;
  StringToNumber := ref_StringToNumber;
  parseInt10 := ref_parseInt10;
  parseFloat := ref_parseFloat;
  Array_toString_on := fun _ => None;
  RegExp_i := ref_RegExp_i;
  toLocaleString := fun ms => "instant " +:+ pretty ms;
  toLocaleDateString := fun ms => "day of " +:+ pretty ms
|}.

(** Object ids are written as 24 hexadecimal digits. *)
Definition hex_of (a : ascii) : option N :=
  let n := nat_of_ascii a in
  if (48 <=? n)%nat && (n <=? 57)%nat then Some (N.of_nat (n - 48))
  else if (97 <=? n)%nat && (n <=? 102)%nat then Some (N.of_nat (n - 87))
  else if (65 <=? n)%nat && (n <=? 70)%nat then Some (N.of_nat (n - 55))
  else None.

Fixpoint hex_value (acc : N) (s : string) : option N :=
  match s with
  | EmptyString => Some acc
  | String a s' =>
      match hex_of a with
      | Some d => hex_value (16 * acc + d) s'
      | None => None
      end
  end.

Definition ref_castObjectId (v : value) : option ObjectId :=
  match v with
  | VStr s => if (String.length s =? 24)%nat then hex_value 0 s else None
  | _ => None
  end.

Definition ref_castString (v : value) : option string :=
  match v with
  | VStr s => Some s
  | VNum n => Some (ref_Number_toString n)
  | VBool true => Some "true"
  | VBool false => Some "false"
  | _ => None
  end.

#[export] Instance services : Services := {|
  ObjectId_isValid := fun v => bool_decide (is_Some (ref_castObjectId v));
  castObjectId := ref_castObjectId;
  castString := ref_castString;
  generateQrCode := fun text =>
    (fun s => "data:image/png;base64," +:+ s) <$> String_ text;
  sendTicketEmail := fun _ => true;
  bcrypt_hash := fun _ => None
|}.

End Reference.

(** ** The vocabulary of the statements *)

(** *** Invoice numbers and alias keys *)

(** Follows the words of the specification (section 4.1): the three
    prefixes are tried in order and at most one is stripped. *)
Definition spec_strip_one_prefix (s : string) : string :=
  if startsWith s "# INV-" then substring_from 6 s
  else if startsWith s "# " then substring_from 2 s
  else if startsWith s "INV-" then substring_from 4 s
  else s.

(** Follows the words of the amended claim: one test removes the prefix
    [p] from a text that starts with it and leaves every other text as it
    is; the three tests are applied one after the other. *)
Definition strip_if_starts (p s : string) : string :=
  if startsWith s p then substring_from (String.length p) s else s.

Definition strip_each_in_turn (s : string) : string :=
  strip_if_starts "INV-" (strip_if_starts "# " (strip_if_starts "# INV-" s)).

Definition invoice_aliases : list string :=
  ["q38_invoiceId"; "38"; "q11_invoiceId"; "q7_invoiceId"; "q11_autoincrement";
   "invoiceId"].

Definition email_aliases : list string :=
  ["q4_email4"; "q5_email"; "q4_email"; "email"].

Definition church_aliases : list string :=
  ["q10_church"; "q10_youthGroup"; "q12_ltstronggtwhichYouth"; "q9_youthGroup";
   "q12_textbox"; "church"; "youthGroup"].

(** The name keys whose branch looks at the shape of the value, and all
    the single name keys. *)
Definition structured_name_aliases : list string :=
  ["q4_fullName"; "q4_name"; "q3_ltstronggtnameltstronggt"; "q3_name"].

Definition name_aliases : list string := structured_name_aliases ++ ["name"].

Definition phone_aliases : list string :=
  ["q7_phone"; "q7_phoneNumber"; "q16_ltstronggtphoneNumberltstronggt";
   "q11_phoneNumber"; "q11_phoneNumber[full]"; "phone"].

(** *** The product field *)

Section ProductVocabulary.
Context `{Builtins}.

(** The state of the locals when the block of ['1'] is reached. *)
Definition after_paymentArray (productField : value) : Product.t :=
  if truthy (prop productField "paymentArray")
  then fst (paymentArray_block (prop productField "paymentArray") Product.defaults)
  else Product.defaults.

End ProductVocabulary.

(** *** The form id *)

(** The value computed from the outer payload at the start of
    [parseWebhook]. *)
Definition outer_formId (payload : value) : value :=
  prop payload "formID" ||| prop payload "form_id" ||| prop payload "formId"
  ||| VStr "".

(** The binding that a run of assignments leaves for [k]: the last one in
    [entries], or [dflt]. *)
Fixpoint last_binding (k : string) (entries : list (string * value))
    (dflt : option value) : option value :=
  match entries with
  | [] => dflt
  | (k', v) :: rest =>
      last_binding k rest (if String.eqb k' k then Some v else dflt)
  end.

Definition assign_entry (formFields : value) (entry : string * value) : value :=
  let '(key, v) := entry in set_prop formFields key v.

(** *** The world *)

(** The parts of the world that the properties speak about; the log of store
    calls, the id generator, the events and the users are left free. *)
Definition same_data (w w' : World) : Prop :=
  tickets w' = tickets w /\ qr_log w' = qr_log w /\ mail_log w' = mail_log w.

(** The tickets of [l] that are checked in are still there, at the same
    place and checked in, in [l']. *)
Definition checkedIn_kept (l l' : list Ticket.t) : Prop :=
  forall i t, l !! i = Some t -> Ticket.checkedIn t = true ->
    exists t', l' !! i = Some t' /\ Ticket._id t' = Ticket._id t
               /\ Ticket.checkedIn t' = true.

(** [effect R m]: every run of [m] relates the world before to the world
    after by [R], whether it returns or throws. *)
Definition effect {A} (R : World -> World -> Prop) (m : M A) : Prop :=
  forall w w' r, m w = (w', r) -> R w w'.

(** The tickets with a given invoice number. *)
Definition with_invoiceNo (inv : string) (l : list Ticket.t) : list Ticket.t :=
  List.filter (fun t => String.eqb (Ticket.invoiceNo t) inv) l.

(** The relation that the handlers keep on the world. *)
Definition keeps_checkedIn (w w' : World) : Prop :=
  checkedIn_kept (tickets w) (tickets w').

(** The ticket the store finds for an invoice number. *)
Definition stored_ticket (inv : string) (w : World) : option Ticket.t :=
  List.find (ticket_matches (inr inv) None) (tickets w).

(** The id that the store hands out next once the event of the form [f]
    has been found or created. *)
Definition next_id_after_event (f : string) (w : World) : ObjectId :=
  match List.find (fun e => String.eqb (Event.formId e) f) (events w) with
  | Some _ => next_id w
  | None => N.succ (next_id w)
  end.

(** The block "Find or create the user" can go through for a submission
    of the form [f] from the email [m]: the user is in the store, or
    [bcrypt] gives the hash for the user that would be created. *)
Definition user_available `{Services} (f m : string) (w : World) : bool :=
  match List.find (fun u => String.eqb (User.email u) m) (users w) with
  | Some _ => true
  | None =>
      match bcrypt_hash (next_id_after_event f w) with
      | Some _ => true
      | None => false
      end
  end.

(** *** Searching *)

(** Follows the words of the specification (sections 4.4 and 8): the
    text [s] contains the query [q] as a substring, letters compared
    without regard to case. *)
Fixpoint spec_starts_ci (q s : string) : bool :=
  match q, s with
  | EmptyString, _ => true
  | String _ _, EmptyString => false
  | String a q', String b s' => Ascii.eqb (lower a) (lower b) && spec_starts_ci q' s'
  end.

Fixpoint spec_contains_ci (q s : string) : bool :=
  spec_starts_ci q s
  || match s with
     | String _ s' => spec_contains_ci q s'
     | EmptyString => false
     end.

(** *** Worlds and requests of the closed examples *)

(** An empty store, a submission for Jane with invoice "# INV-77", and a
    store that holds her event, her user and her ticket, as the processing
    of that submission at time 1000 leaves them where [bcrypt] is
    installed. *)
Definition empty_world : World :=
  {| events := []; users := []; tickets := []; next_id := 1%N;
     db_log := []; qr_log := []; mail_log := [] |}.

Definition jane_submission : value :=
  obj {[ "formID" := VStr "241234567890";
         "q5_email" := VStr "jane@example.org";
         "q3_name" := obj {[ "first" := VStr "Jane"; "last" := VStr "Doe" ]};
         "q38_invoiceId" := VStr "# INV-77" ]}.

(** What the parser makes of Jane's submission. *)
Definition jane_parsed : ParsedSubmission :=
  {| formId := VStr "241234567890";
     email := VStr "jane@example.org";
     name := "Jane Doe";
     invoiceNo := VStr "77";
     phone := VStr "";
     church := VStr "";
     quantity := 1;
     productDetails := "";
     totalAmount := 0;
     youthMinistry := VUndef;
     eventName := VUndef;
     eventDate := VUndef |}.

(** A scan of Jane's QR code: the invoice number alone. *)
Definition scan_jane : value := obj {[ "invoiceNo" := VStr "77" ]}.

(** Jane's ticket as the store holds it, before and after a check-in at
    time 6000. *)
Definition jane_ticket : Ticket.t :=
  {| Ticket._id := 3%N;
     Ticket.invoiceNo := "77";
     Ticket.user := 2%N;
     Ticket.event := 1%N;
     Ticket.name := "Jane Doe";
     Ticket.email := "jane@example.org";
     Ticket.phone := VStr "";
     Ticket.church := VStr "";
     Ticket.youthMinistry := VUndef;
     Ticket.quantity := 1;
     Ticket.productDetails := "";
     Ticket.totalAmount := 0;
     Ticket.checkedIn := false;
     Ticket.checkInTime := None |}.

Definition world_with_jane : World :=
  {| events := [{| Event._id := 1%N; Event.formId := "241234567890";
                   Event.title := VStr "Youth Alive Event";
                   Event.startTime := 1000; Event.endTime := 604801000 |}];
     users := [{| User._id := 2%N; User.email := "jane@example.org";
                  User.passwordHash := "$2b$10$2" |}];
     tickets := [jane_ticket];
     next_id := 4%N;
     db_log := [Read Events; Write Events 1%N; Read Users; Write Users 2%N;
                Read Tickets; Write Tickets 3%N];
     qr_log := [VStr "77"];
     mail_log := [{| Mail.to := VStr "jane@example.org";
                     Mail.name := "Jane Doe";
                     Mail.eventTitle := VStr "Youth Alive Event";
                     Mail.eventDate := VStr "day of 1000";
                     Mail.invoiceNo := VStr "77";
                     Mail.qrDataUrl := "data:image/png;base64,77" |}] |}.

Definition world_jane_checked_in : World :=
  fst (checkIn (H := Reference.builtins) (H0 := Reference.services)
         6000 scan_jane world_with_jane).

(** ** The live events  ([getLiveEvents], [listEvents]) *)

(** A [Date] object: its time value in epoch milliseconds, or [None] for
    an invalid date. *)
Definition Date := option Z.

(** [TimeClip]: a time value lies within 8.64e15 milliseconds of the
    epoch. *)
Definition max_time : Z := 8640000000000000.

Definition time_clip (t : Z) : Date :=
  if (Z.abs t <=? max_time)%Z then Some t else None.

(** The integer part of a finite number, towards zero. *)
Definition truncate (x : float) : option Z :=
  match Prim2SF x with
  | S754_zero _ => Some 0%Z
  | S754_finite s m e =>
      let mag := if (0 <=? e)%Z then (Z.pos m * 2 ^ e)%Z
                 else (Z.pos m / 2 ^ (- e))%Z in
      Some (if s then (- mag)%Z else mag)
  | _ => None
  end.

(** [new Date(x)] for a number [x]. *)
Definition Date_of_number (x : float) : Date :=
  match truncate x with
  | Some t => time_clip t
  | None => None
  end.

(** Two more builtins, taken as they come: [parseInt(text)] without a
    radix and [new Date(text)]. *)
Class DateBuiltins := {
  parseInt_auto : string -> float;
  Date_parse : string -> Date
}.

(** The interface [JotformEvent]. *)
Module JotformEvent.
Record t := mk {
  formId : value;
  title : value;
  startTime : Date;
  endTime : Date
}.
End JotformEvent.

Definition seven_days_ms : Z := 7 * 24 * 60 * 60 * 1000.

Section LiveEvents.
Context `{Builtins} `{DateBuiltins}.

(** The chain of [if]s on [form.created_at]: a numeric string and a
    number are seconds since the epoch, another string is read as a date,
    anything else gives the current time. *)
Definition created_at_date (now : N) (created_at : value) : Date :=
  match created_at with
  | VStr s =>
      if truthy created_at then
        if negb (PrimFloat.is_nan (StringToNumber s))
        then Date_of_number (PrimFloat.mul (parseInt_auto s) 1000)
        else Date_parse s
      else Some (Z.of_N now)
  | VNum n =>
      if truthy created_at && negb (PrimFloat.is_nan n)
      then Date_of_number (PrimFloat.mul n 1000)
      else Some (Z.of_N now)
  | _ => Some (Z.of_N now)
  end.

(** [if (!startTime || isNaN(startTime.getTime()) || startTime.getTime() <= 0)
    startTime = new Date()]: the time value of the start after this
    statement. *)
Definition validated_start (now : N) (d : Date) : Z :=
  match d with
  | Some t => if (t <=? 0)%Z then Z.of_N now else t
  | None => Z.of_N now
  end.

(** [endTime = new Date(startTime.getTime() + 7 days)], replaced by seven
    days from now when it is invalid. *)
Definition endTime_of (now : N) (start : Z) : Date :=
  match time_clip (start + seven_days_ms) with
  | Some t => Some t
  | None => time_clip (Z.of_N now + seven_days_ms)
  end.

(** Does the validation of the start replace it?  That branch writes a
    warning that names the form: [`Invalid startTime for form ${form.id},
    using current date`]. *)
Definition start_replaced (d : Date) : bool :=
  match d with
  | Some t => (t <=? 0)%Z
  | None => true
  end.

(** The callback of [map]; [None] is an exception that leaves it.  The
    only statement of its [try] that can throw is the warning above, on a
    form whose [id] cannot be converted to a string; the [catch] then
    writes a warning of its own with the same [${form.id}], which throws
    again, out of the callback. *)
Definition event_of_form (now : N) (form : value) : option JotformEvent.t :=
  let parsed := created_at_date now (prop form "created_at") in
  let start := validated_start now parsed in
  let event :=
    {| JotformEvent.formId := prop form "id";
       JotformEvent.title := prop form "title";
       JotformEvent.startTime := Some start;
       JotformEvent.endTime := endTime_of now start |} in
  if start_replaced parsed then _ ← String_ (prop form "id"); Some event
  else Some event.

(** [form.status === 'ENABLED'] *)
Definition is_enabled (form : value) : bool :=
  match prop form "status" with
  | VStr s => String.eqb s "ENABLED"
  | _ => false
  end.

(** [content.filter(form => form.status === 'ENABLED')]; the callback
    throws on an element that is [null] or [undefined], whatever came
    before it. *)
Fixpoint filter_enabled (forms : list value) : option (list value) :=
  match forms with
  | [] => Some []
  | form :: rest =>
      match prop_throw form "status" with
      | None => None
      | Some _ =>
          match filter_enabled rest with
          | Some l => Some (if is_enabled form then form :: l else l)
          | None => None
          end
      end
  end.

(** [response.data.responseCode !== 200] is false *)
Definition is_200 (code : value) : bool :=
  match code with
  | VNum n => PrimFloat.eqb n 200
  | _ => false
  end.

(** [getLiveEvents].  [fetched] is [response.data] of the request to the
    form service, [None] when the request was rejected; the result [None]
    is the [Error('Failed to fetch events from Jotform')] that the outer
    [catch] throws for every exception of the body. *)
Definition getLiveEvents (now : N) (fetched : option value)
  : option (list JotformEvent.t) :=
  match fetched with
  | None => None
  | Some data =>
      match prop_throw data "responseCode" with
      | None => None
      | Some code =>
          if negb (is_200 code) then None
          else
            match prop data "content" with
            | VArr forms =>
                filter_enabled forms ≫= mapM (event_of_form now)
            | _ => None (* content.filter is not a function *)
            end
      end
  end.

End LiveEvents.

(** What [listEvents] sends. *)
Inductive EventsResponse :=
| EventList (count : nat) (data : list Event.t)
| EventsError (status : nat) (message : string).

(** [Event.find(...).sort({ startTime: 1 })]: by ascending start. *)
Definition start_le (a b : Event.t) : Prop :=
  (Event.startTime a <= Event.startTime b)%N.

#[local] Instance start_le_dec : RelDecision start_le.
Proof. intros a b. unfold start_le. apply _. Defined.

Section EventStore.
Context `{Services}.

(** The first event of the form [f] takes the new fields and keeps its
    id. *)
Fixpoint update_event (f : string) (title : value) (startTime endTime : N)
    (l : list Event.t) : list Event.t :=
  match l with
  | [] => []
  | e :: rest =>
      if String.eqb (Event.formId e) f then
        {| Event._id := Event._id e; Event.formId := f; Event.title := title;
           Event.startTime := startTime; Event.endTime := endTime |} :: rest
      else e :: update_event f title startTime endTime rest
  end.

(** Modelled from the spec: [findOneAndUpdate(filter, update, { upsert:
    true, new: true })] on the events, for the missing [event.model]: the
    first event of that form is updated, and when there is none a new one
    is inserted under the next id. *)
Definition Event_upsert (formId title : value) (startTime endTime : N) : M unit :=
  f <- or_throw (castString formId) ;;
  modify (fun w =>
    match List.find (fun e => String.eqb (Event.formId e) f) (events w) with
    | Some e =>
        log_db (Write Events (Event._id e))
          {| events := update_event f title startTime endTime (events w);
             users := users w; tickets := tickets w;
             next_id := next_id w; db_log := db_log w;
             qr_log := qr_log w; mail_log := mail_log w |}
    | None =>
        log_db (Write Events (next_id w))
          {| events := events w ++
                       [{| Event._id := next_id w; Event.formId := f;
                           Event.title := title; Event.startTime := startTime;
                           Event.endTime := endTime |}];
             users := users w; tickets := tickets w;
             next_id := N.succ (next_id w); db_log := db_log w;
             qr_log := qr_log w; mail_log := mail_log w |}
    end).

(** The casts of the members of [$in]. *)
Fixpoint cast_all (l : list value) : option (list string) :=
  match l with
  | [] => Some []
  | v :: rest =>
      match castString v, cast_all rest with
      | Some s, Some ss => Some (s :: ss)
      | _, _ => None
      end
  end.

(** Modelled from the spec: [Event.find({ formId: { $in: ids } }).sort({
    startTime: 1 })]. *)
Definition Event_find_in (formIds : list value) : M (list Event.t) :=
  fs <- or_throw (cast_all formIds) ;;
  _ <- modify (log_db (Read Events)) ;;
  gets (fun w =>
    merge_sort start_le
      (filter (fun e => existsb (String.eqb (Event.formId e)) fs = true) (events w))).

(** The body of the [for] loop of [listEvents]: the two dates are checked
    once more and the event of the form is written.  The store keeps
    instants as natural numbers; the instants that [getLiveEvents] hands
    over are positive ([getLiveEvents_dates] below), so none is cut. *)
Definition upsert_live (now : N) (jotformEvent : JotformEvent.t) : M unit :=
  let startTime :=
    match JotformEvent.startTime jotformEvent with
    | Some t => Z.to_N t
    | None => now
    end in
  let endTime :=
    match JotformEvent.endTime jotformEvent with
    | Some t => Z.to_N t
    | None => (now + seven_days)%N
    end in
  Event_upsert (JotformEvent.formId jotformEvent) (JotformEvent.title jotformEvent)
               startTime endTime.

Fixpoint upsert_each (now : N) (l : list JotformEvent.t) : M unit :=
  match l with
  | [] => ret tt
  | jotformEvent :: rest =>
      _ <- upsert_live now jotformEvent ;;
      upsert_each now rest
  end.

End EventStore.

Section ListEvents.
Context `{Builtins} `{DateBuiltins} `{Services}.

(** [listEvents]; [fetched] is what the form service answered and [now]
    the clock reading of the request. *)
Definition listEvents (now : N) (fetched : option value)
  : World -> World * EventsResponse :=
  fun w =>
    match (jotformEvents <- or_throw (getLiveEvents now fetched) ;;
           _ <- upsert_each now jotformEvents ;;
           Event_find_in (map JotformEvent.formId jotformEvents)) w with
    | (w', Ok found) => (w', EventList (length found) found)
    | (w', Thrown) => (w', EventsError 500 "Error fetching events")
    end.

End ListEvents.

(** ** The vocabulary of the further properties *)

(** The first truthy value of a list, or [dflt]. *)
Fixpoint first_truthy (l : list value) (dflt : value) : value :=
  match l with
  | [] => dflt
  | v :: rest => if truthy v then v else first_truthy rest dflt
  end.

(** Every character of [s] is in the class [p]. *)
Fixpoint string_all (p : ascii -> bool) (s : string) : bool :=
  match s with
  | EmptyString => true
  | String a s' => p a && string_all p s'
  end.

(** The texts made of invoice prefixes only. *)
Definition bare_prefixes : list string :=
  ["# INV-"; "# "; "INV-"; "# INV-# "; "# INV-INV-"; "# INV-# INV-"].

(** The flat field mapping that a nested envelope amounts to: the fields
    of the embedded request on top of the two form-id properties. *)
Definition merged_fields (formId : value) (m : gmap string value) : value :=
  obj (m ∪ {[ "formID" := formId; "formId" := formId ]}).

(** What a match of [label\s*(cls+)] found in [s]: the text before the
    label, the white space after it, the capture and the rest. *)
Definition label_match (label : string) (cls : ascii -> bool) (s cap : string)
  : Prop :=
  cap <> ""
  /\ string_all cls cap = true
  /\ exists pre ws rest,
       s = pre +:+ label +:+ ws +:+ cap +:+ rest
       /\ string_all is_js_space ws = true
       /\ match rest with String a _ => cls a = false | EmptyString => True end.

(** The ids of all the documents of the store. *)
Definition all_ids (w : World) : list ObjectId :=
  (Event._id <$> events w) ++ (User._id <$> users w) ++ (Ticket._id <$> tickets w).

(** The store is in order: no two events of one form, no two users of one
    email, no two tickets of one invoice number, no id given twice, and
    every id below the next one to be given. *)
Record store_ok (w : World) : Prop := {
  formIds_unique : NoDup (Event.formId <$> events w);
  emails_unique : NoDup (User.email <$> users w);
  invoiceNos_unique : NoDup (Ticket.invoiceNo <$> tickets w);
  ids_unique : NoDup (all_ids w);
  ids_below : Forall (fun id => (id < next_id w)%N) (all_ids w)
}.

(** The documents and the id generator are the same in both worlds; the
    logs are left free. *)
Definition same_store (w w' : World) : Prop :=
  events w' = events w /\ users w' = users w /\ tickets w' = tickets w
  /\ next_id w' = next_id w.

(** The relation that every handler keeps on the world. *)
Definition keeps_store_ok (w w' : World) : Prop := store_ok w -> store_ok w'.

(** The two date builtins of the reference runtime: decimal numerals for
    [parseInt]; texts of dates are outside the fragment and give an
    invalid date. *)
Module ReferenceDates.

#[export] Instance dates : DateBuiltins := {|
  parseInt_auto := Reference.ref_parseInt10;
  Date_parse := fun _ => None
|}.

End ReferenceDates.

(** An answer of the form service for the closed examples: two enabled
    forms, created at 1700000000 s and at 1600000000 s, and one disabled
    form between them. *)
Definition forms_answer : value :=
  obj {[ "responseCode" := VNum 200;
         "content" :=
           VArr [ obj {[ "id" := VStr "241234567890"; "title" := VStr "Stadium 24";
                         "status" := VStr "ENABLED";
                         "created_at" := VStr "1700000000" ]};
                  obj {[ "id" := VStr "230000000000"; "title" := VStr "Stadium 23";
                         "status" := VStr "DISABLED";
                         "created_at" := VStr "1650000000" ]};
                  obj {[ "id" := VStr "250000000000"; "title" := VStr "Camp 25";
                         "status" := VStr "ENABLED";
                         "created_at" := VNum 1600000000 ]} ] ]}.

Section TicketVocabulary.
Context `{Builtins}.

(** The document that [webhookHandler] builds for a submission. *)
Definition new_ticket (id : ObjectId) (s : ParsedSubmission) (inv m : string)
    (us : User.t) (ev : Event.t) : Ticket.t :=
  {| Ticket._id := id;
     Ticket.invoiceNo := inv;
     Ticket.user := User._id us;
     Ticket.event := Event._id ev;
     Ticket.name := name s;
     Ticket.email := m;
     Ticket.phone := phone s;
     Ticket.church := church s;
     Ticket.youthMinistry := youthMinistry s;
     Ticket.quantity := num_or (quantity s) 1;
     Ticket.productDetails := productDetails s;
     Ticket.totalAmount := totalAmount s;
     Ticket.checkedIn := false;
     Ticket.checkInTime := None |}.

(** The mail that goes with it. *)
Definition ticket_mail (s : ParsedSubmission) (ev : Event.t) (qr : string) : Mail.t :=
  {| Mail.to := email s;
     Mail.name := name s;
     Mail.eventTitle := Event.title ev;
     Mail.eventDate :=
       eventDate s ||| VStr (toLocaleDateString (Event.startTime ev));
     Mail.invoiceNo := invoiceNo s;
     Mail.qrDataUrl := qr |}.

End TicketVocabulary.

(** A second submission of Jane's, with invoice "INV-80", for the same
    form: her user is in the store already. *)
Definition second_submission : value :=
  obj {[ "formID" := VStr "241234567890";
         "q5_email" := VStr "jane@example.org";
         "q3_name" := obj {[ "first" := VStr "Jane"; "last" := VStr "Doe" ]};
         "q38_invoiceId" := VStr "INV-80" ]}.

(** A submission of John's, with invoice "INV-81": he has no user yet. *)
Definition john_submission : value :=
  obj {[ "formID" := VStr "241234567890";
         "q5_email" := VStr "john@example.org";
         "q3_name" := obj {[ "first" := VStr "John"; "last" := VStr "Roe" ]};
         "q38_invoiceId" := VStr "INV-81" ]}.

(** What the parser makes of these two. *)
Definition second_parsed : ParsedSubmission :=
  {| formId := VStr "241234567890";
     email := VStr "jane@example.org";
     name := "Jane Doe";
     invoiceNo := VStr "80";
     phone := VStr "";
     church := VStr "";
     quantity := 1;
     productDetails := "";
     totalAmount := 0;
     youthMinistry := VUndef;
     eventName := VUndef;
     eventDate := VUndef |}.

Definition john_parsed : ParsedSubmission :=
  {| formId := VStr "241234567890";
     email := VStr "john@example.org";
     name := "John Roe";
     invoiceNo := VStr "81";
     phone := VStr "";
     church := VStr "";
     quantity := 1;
     productDetails := "";
     totalAmount := 0;
     youthMinistry := VUndef;
     eventName := VUndef;
     eventDate := VUndef |}.

(** The reference services on an installation where [bcrypt] can be
    loaded. *)
Definition services_with_bcrypt : Services := {|
  ObjectId_isValid := ObjectId_isValid (Services := Reference.services);
  castObjectId := Reference.ref_castObjectId;
  castString := Reference.ref_castString;
  generateQrCode := generateQrCode (Services := Reference.services);
  sendTicketEmail := fun _ => true;
  bcrypt_hash := fun id => Some ("$2b$10$" +:+ pretty id)
|}.

(** The reference services with a QR generator that is out of order. *)
Definition services_without_qr : Services := {|
  ObjectId_isValid := ObjectId_isValid (Services := Reference.services);
  castObjectId := Reference.ref_castObjectId;
  castString := Reference.ref_castString;
  generateQrCode := fun _ => None;
  sendTicketEmail := fun _ => true;
  bcrypt_hash := bcrypt_hash (Services := Reference.services)
|}.

(** Nothing but the log of store calls differs between the two worlds. *)
Definition unchanged (w w' : World) : Prop := same_store w w' /\ same_data w w'.

(** What a listing of the live events may do to the world: nothing to
    the users, the tickets and the calls to the QR service and the mailer,
    and to the events only updates in place and additions at the end, so
    that the ids and the form ids that were there stay where they are. *)
Definition events_only (w w' : World) : Prop :=
  users w' = users w /\ tickets w' = tickets w
  /\ qr_log w' = qr_log w /\ mail_log w' = mail_log w
  /\ (Event._id <$> events w) `prefix_of` (Event._id <$> events w')
  /\ (Event.formId <$> events w) `prefix_of` (Event.formId <$> events w').

(** * Properties *)

(** ** Strings and prefixes *)

Lemma startsWith_nil (s : string) : startsWith s "" = true.
Proof. destruct s; reflexivity. Qed.

Lemma startsWith_cons (a b : ascii) (p s : string) :
  startsWith (String b s) (String a p) = Ascii.eqb a b && startsWith s p.
Proof.
  unfold startsWith. simpl.
  destruct (ascii_dec a b) as [->|Hne].
  - now rewrite Ascii.eqb_refl.
  - apply Ascii.eqb_neq in Hne. now rewrite Hne.
Qed.

Lemma append_cons (a : ascii) (s t : string) :
  String a s +:+ t = String a (s +:+ t).
Proof. reflexivity. Qed.

Lemma append_nil (t : string) : "" +:+ t = t.
Proof. reflexivity. Qed.

(** A string that starts with [p] is [p] followed by what [substring]
    keeps. *)
Lemma startsWith_split (p s : string) :
  startsWith s p = true -> s = p +:+ substring_from (String.length p) s.
Proof.
  revert s. induction p as [|a p IH]; intros s Hs.
  - reflexivity.
  - destruct s as [|b s]; [discriminate|].
    rewrite startsWith_cons in Hs.
    apply andb_true_iff in Hs as [Hab Hp].
    apply Ascii.eqb_eq in Hab as ->.
    rewrite append_cons. simpl. f_equal. now apply IH.
Qed.

Lemma startsWith_app (p q s : string) :
  startsWith s (p +:+ q)
  = startsWith s p && startsWith (substring_from (String.length p) s) q.
Proof.
  revert s. induction p as [|a p IH]; intros s.
  - rewrite append_nil. simpl. now rewrite startsWith_nil.
  - destruct s as [|b s].
    + reflexivity.
    + rewrite append_cons, !startsWith_cons, IH. simpl.
      now rewrite andb_assoc.
Qed.

Lemma length_append (a b : string) :
  String.length (a +:+ b) = (String.length a + String.length b)%nat.
Proof.
  induction a as [|x a IH]; [reflexivity|].
  rewrite append_cons. simpl. now rewrite IH.
Qed.

(** ** What [parseFormFields] returns *)

Section ParseFacts.
Context `{Builtins}.

(** The submission that [parseFormFields] builds once the name and the
    phone are there. *)
Lemma parseFormFields_inv (now : N) (fields : value) (t : ParsedSubmission) :
  parseFormFields now fields = Some t ->
  fields <> VUndef /\ fields <> VNull
  /\ nameFrom fields = Some (name t)
  /\ phoneOf fields = Some (phone t)
  /\ formId t = prop fields "formID" ||| prop fields "form_id"
                ||| prop fields "formId" ||| VStr ""
  /\ email t = emailOf fields
  /\ invoiceNo t = cleanInvoiceNo (rawInvoiceNo now fields)
  /\ church t = churchOf fields
  /\ quantity t = Product.quantity (productOf fields)
  /\ productDetails t = Product.productDetails (productOf fields)
  /\ totalAmount t = Product.totalAmount (productOf fields)
  /\ youthMinistry t = VUndef /\ eventName t = VUndef /\ eventDate t = VUndef.
Proof.
  unfold parseFormFields. intros Ht.
  assert (Hn : fields <> VUndef /\ fields <> VNull)
    by (split; intros ->; discriminate Ht).
  destruct (nameFrom fields) as [nm|] eqn:En.
  2:{ destruct fields; discriminate Ht. }
  destruct (phoneOf fields) as [ph|] eqn:Ep.
  2:{ destruct fields; discriminate Ht. }
  assert (E : t = {| formId := prop fields "formID" ||| prop fields "form_id"
                               ||| prop fields "formId" ||| VStr "";
                     email := emailOf fields;
                     name := nm;
                     invoiceNo := cleanInvoiceNo (rawInvoiceNo now fields);
                     phone := ph;
                     church := churchOf fields;
                     quantity := Product.quantity (productOf fields);
                     productDetails := Product.productDetails (productOf fields);
                     totalAmount := Product.totalAmount (productOf fields);
                     youthMinistry := VUndef;
                     eventName := VUndef;
                     eventDate := VUndef |}).
  { destruct fields; try (now destruct Hn); cbv [mbind option_bind] in Ht;
      now injection Ht as <-. }
  rewrite E. cbn [formId email name invoiceNo phone church quantity productDetails
                  totalAmount youthMinistry eventName eventDate].
  repeat split; first [exact (proj1 Hn) | exact (proj2 Hn) | reflexivity].
Qed.

Lemma parseFormFields_Some (now : N) (fields : value) (nm : string) (ph : value) :
  fields <> VUndef -> fields <> VNull ->
  nameFrom fields = Some nm -> phoneOf fields = Some ph ->
  parseFormFields now fields
  = Some {| formId := prop fields "formID" ||| prop fields "form_id"
                      ||| prop fields "formId" ||| VStr "";
            email := emailOf fields;
            name := nm;
            invoiceNo := cleanInvoiceNo (rawInvoiceNo now fields);
            phone := ph;
            church := churchOf fields;
            quantity := Product.quantity (productOf fields);
            productDetails := Product.productDetails (productOf fields);
            totalAmount := Product.totalAmount (productOf fields);
            youthMinistry := VUndef;
            eventName := VUndef;
            eventDate := VUndef |}.
Proof.
  intros Hu Hn En Ep. unfold parseFormFields. rewrite En, Ep.
  destruct fields; try reflexivity; congruence.
Qed.

(** [parseFormFields] throws exactly when its argument is [null] or
    [undefined] or the name or the phone cannot be turned into text. *)
Lemma parseFormFields_None (now : N) (fields : value) :
  parseFormFields now fields = None
  <-> fields = VUndef \/ fields = VNull
      \/ nameFrom fields = None \/ phoneOf fields = None.
Proof.
  unfold parseFormFields. split.
  - intros E. destruct fields; auto;
      (destruct (nameFrom _); [|auto]); (destruct (phoneOf _); [|auto]);
      discriminate E.
  - intros [-> | [-> | [E | E]]]; try reflexivity.
    + rewrite E. now destruct fields.
    + rewrite E. destruct fields; try reflexivity; now destruct (nameFrom _).
Qed.

End ParseFacts.

(** ** Invoice numbers *)

Section InvoiceFacts.
Context `{Builtins}.

Lemma strip_prefix_string (p : string) (s : string) :
  strip_prefix p (String.length p) (VStr s)
  = VStr (if startsWith s p then substring_from (String.length p) s else s).
Proof. unfold strip_prefix. now destruct (startsWith s p). Qed.

(** What one strip removes: its prefix or nothing. *)
Lemma strip_prefix_removes (p s : string) :
  exists q r, (q = "" \/ q = p) /\ s = q +:+ r
              /\ strip_prefix p (String.length p) (VStr s) = VStr r.
Proof.
  rewrite strip_prefix_string. destruct (startsWith s p) eqn:E.
  - exists p, (substring_from (String.length p) s). split; [now right|].
    split; [now apply startsWith_split | reflexivity].
  - exists "", s. split; [now left|]. split; reflexivity.
Qed.

Lemma hash_space_INV : "# INV-" = "# " +:+ "INV-".
Proof. reflexivity. Qed.

Lemma strip_prefix_is_strip_if_starts (p s : string) :
  strip_prefix p (String.length p) (VStr s) = VStr (strip_if_starts p s).
Proof. unfold strip_prefix, strip_if_starts. now destruct (startsWith s p). Qed.

Lemma cleanInvoiceNo_string (s : string) :
  cleanInvoiceNo (VStr s) = VStr (strip_each_in_turn s).
Proof.
  unfold cleanInvoiceNo, strip_each_in_turn.
  change 6%nat with (String.length "# INV-").
  change 2%nat with (String.length "# ").
  change 4%nat with (String.length "INV-").
  now rewrite !strip_prefix_is_strip_if_starts.
Qed.

Lemma strip_if_starts_append (p r : string) : strip_if_starts p (p +:+ r) = r.
Proof.
  unfold strip_if_starts.
  assert (Hs : startsWith (p +:+ r) p = true).
  { induction p as [|a p IH]; [apply startsWith_nil|].
    rewrite append_cons, startsWith_cons, Ascii.eqb_refl. exact IH. }
  rewrite Hs. clear Hs.
  induction p as [|a p IH]; [reflexivity|]. rewrite append_cons. exact IH.
Qed.

Lemma strip_if_starts_length (p s : string) :
  (String.length (strip_if_starts p s) <= String.length s)%nat
  /\ (startsWith s p = true ->
      String.length (strip_if_starts p s) + String.length p = String.length s)%nat.
Proof.
  unfold strip_if_starts. destruct (startsWith s p) eqn:E.
  - pose proof (startsWith_split p s E) as Hs.
    apply (f_equal String.length) in Hs. rewrite length_append in Hs.
    split; [lia | intros _; lia].
  - split; [lia | discriminate].
Qed.

(** C6 (as amended): the three prefix tests run one after the other, each
    stripping its prefix when the value at that point starts with it.
    The result is the text with an optional "# INV-", then an optional
    "# ", then an optional "INV-" removed, so up to three prefixes go:
    "# INV-# INV-r" and "# INV-INV-r" both give r.  The result agrees with
    stripping the first matching prefix only exactly when the text does
    not start with "# INV-" or the text after that prefix starts with
    neither "# " nor "INV-".  A value that is not a string is left as it
    is.  "# INV-123" and "INV-123" give "123", "123" is left alone, and
    cleaning "123" again changes nothing. *)
Theorem cleanInvoiceNo_strips_in_sequence :
  (forall s : string, cleanInvoiceNo (VStr s) = VStr (strip_each_in_turn s))
  /\ (forall r : string,
         cleanInvoiceNo (VStr ("# INV-" +:+ "# " +:+ "INV-" +:+ r)) = VStr r
         /\ cleanInvoiceNo (VStr ("# INV-" +:+ "INV-" +:+ r)) = VStr r
         /\ cleanInvoiceNo (VStr ("# INV-" +:+ "# " +:+ r)) = VStr (strip_if_starts "INV-" r))
  /\ (forall s : string,
         cleanInvoiceNo (VStr s) = VStr (spec_strip_one_prefix s)
         <-> (startsWith s "# INV-" = false
              \/ (startsWith (substring_from 6 s) "# " = false
                  /\ startsWith (substring_from 6 s) "INV-" = false)))
  /\ (forall s : string,
         exists p1 p2 p3 r,
           (p1 = "" \/ p1 = "# INV-") /\ (p2 = "" \/ p2 = "# ")
           /\ (p3 = "" \/ p3 = "INV-")
           /\ s = p1 +:+ p2 +:+ p3 +:+ r
           /\ cleanInvoiceNo (VStr s) = VStr r)
  /\ (forall v : value, (forall s, v <> VStr s) -> cleanInvoiceNo v = v)
  /\ (forall now fields t,
         parseFormFields now fields = Some t ->
         invoiceNo t = cleanInvoiceNo (rawInvoiceNo now fields))
  /\ cleanInvoiceNo (VStr "# INV-123") = VStr "123"
  /\ cleanInvoiceNo (VStr "INV-123") = VStr "123"
  /\ cleanInvoiceNo (VStr "123") = VStr "123"
  /\ cleanInvoiceNo (cleanInvoiceNo (VStr "# INV-123")) = cleanInvoiceNo (VStr "# INV-123").
Proof.
  split; [exact cleanInvoiceNo_string|].
  split; [|split; [|split; [|split; [|split; [|repeat split]]]]].
  - intros r. rewrite !cleanInvoiceNo_string. unfold strip_each_in_turn.
    rewrite !strip_if_starts_append.
    split; [reflexivity|]. split; [|reflexivity].
    f_equal.
    assert (E : strip_if_starts "# " ("INV-" +:+ r) = "INV-" +:+ r) by reflexivity.
    rewrite E. apply strip_if_starts_append.
  - intros s. rewrite cleanInvoiceNo_string.
    unfold strip_each_in_turn, spec_strip_one_prefix.
    pose proof (startsWith_app "# " "INV-" s) as Happ.
    rewrite <- hash_space_INV in Happ. simpl String.length in Happ.
    unfold strip_if_starts at 3. simpl String.length.
    destruct (startsWith s "# INV-") eqn:E1.
    + set (rest := substring_from 6 s).
      destruct (strip_if_starts_length "# " rest) as [L2 L2'].
      destruct (strip_if_starts_length "INV-" (strip_if_starts "# " rest)) as [L3 L3'].
      split.
      * intros Heq. right. injection Heq as Heq.
        apply (f_equal String.length) in Heq.
        destruct (startsWith rest "# ") eqn:R2.
        { specialize (L2' eq_refl). simpl String.length in L2'. lia. }
        split; [reflexivity|].
        assert (E2 : strip_if_starts "# " rest = rest)
          by (unfold strip_if_starts; now rewrite R2).
        rewrite E2 in *.
        destruct (startsWith rest "INV-") eqn:R3; [|reflexivity].
        specialize (L3' eq_refl). simpl String.length in L3'. lia.
      * intros [Hf | [R2 R3]]; [discriminate Hf|].
        unfold strip_if_starts. rewrite R2. cbv iota. now rewrite R3.
    + split; [intros _; now left|]. intros _.
      unfold strip_if_starts. simpl String.length.
      destruct (startsWith s "# ") eqn:E2.
      * cbv iota. rewrite andb_true_l in Happ. now rewrite <- Happ.
      * reflexivity.
  - intros s. unfold cleanInvoiceNo.
    destruct (strip_prefix_removes "# INV-" s) as (p1 & r1 & Hp1 & Hs1 & E1).
    simpl String.length in E1. rewrite E1.
    destruct (strip_prefix_removes "# " r1) as (p2 & r2 & Hp2 & Hs2 & E2).
    simpl String.length in E2. rewrite E2.
    destruct (strip_prefix_removes "INV-" r2) as (p3 & r3 & Hp3 & Hs3 & E3).
    simpl String.length in E3. rewrite E3.
    exists p1, p2, p3, r3. repeat split; try assumption.
    now rewrite Hs1, Hs2, Hs3.
  - intros v Hv. destruct v as [| |b|n|s|l|p m]; try reflexivity.
    now destruct (Hv s).
  - intros now fields t Ht.
    now destruct (parseFormFields_inv now fields t Ht) as (_ & _ & _ & _ & _ & _ & E & _).
Qed.

End InvoiceFacts.

(** An instance of C6 as amended: "# 77" starts with "# " only and the
    code strips exactly that; "# INV-INV-7" loses two prefixes. *)
Lemma cleanInvoiceNo_strips_in_sequence_witness :
  (startsWith "# 77" "# INV-" = false
   \/ (startsWith (substring_from 6 "# 77") "# " = false
       /\ startsWith (substring_from 6 "# 77") "INV-" = false))
  /\ cleanInvoiceNo (VStr "# 77") = VStr (spec_strip_one_prefix "# 77")
  /\ cleanInvoiceNo (VStr ("# INV-" +:+ "INV-" +:+ "7")) = VStr "7".
Proof.
  split; [left; reflexivity|]. split.
  - apply (proj1 (proj2 (proj2 (@cleanInvoiceNo_strips_in_sequence Reference.builtins)))).
    left. reflexivity.
  - apply (proj1 (proj2 (@cleanInvoiceNo_strips_in_sequence Reference.builtins))).
Defined.

(** C6 (as stated) fails: on "# INV-INV-7" the first test strips
    "# INV-" and the third then strips "INV-"; two prefixes are gone,
    where stripping at most one would leave "INV-7". *)
Lemma cleanInvoiceNo_strips_two_prefixes :
  cleanInvoiceNo (VStr "# INV-INV-7") = VStr "7"
  /\ spec_strip_one_prefix "# INV-INV-7" = "INV-7"
  /\ cleanInvoiceNo (VStr "# INV-INV-7") <> VStr (spec_strip_one_prefix "# INV-INV-7").
Proof. repeat split. discriminate. Qed.

Section PlaceholderFacts.
Context `{Builtins}.

Lemma rawInvoiceNo_default (now : N) (fields : value) :
  (forall k, In k invoice_aliases -> truthy (prop fields k) = false) ->
  rawInvoiceNo now fields = VStr ("INV-" +:+ pretty now).
Proof.
  intros Hk. unfold rawInvoiceNo.
  rewrite !Hk by (simpl; tauto). reflexivity.
Qed.

(** C5 at the code: when no invoice alias carries a value, the default
    "INV-<epoch millis>" is built, but the cleaning that follows strips its
    "INV-" again, so the parser returns the bare digits of the timestamp:
    that is the invoice number of every submission the parser returns,
    and it is never the placeholder of the specification. *)
Theorem placeholder_invoiceNo_is_bare_timestamp (now : N) (fields : value) :
  (forall k, In k invoice_aliases -> truthy (prop fields k) = false) ->
  rawInvoiceNo now fields = VStr ("INV-" +:+ pretty now)
  /\ cleanInvoiceNo (rawInvoiceNo now fields) = VStr (pretty now)
  /\ invoiceNo <$> parseFormFields now fields
     = (fun _ => VStr (pretty now)) <$> parseFormFields now fields
  /\ (forall t, parseFormFields now fields = Some t ->
        invoiceNo t = VStr (pretty now)
        /\ invoiceNo t <> VStr ("INV-" +:+ pretty now)).
Proof.
  intros Hk.
  assert (E : cleanInvoiceNo (rawInvoiceNo now fields) = VStr (pretty now)).
  { rewrite rawInvoiceNo_default by assumption.
    unfold cleanInvoiceNo, strip_prefix.
    rewrite !append_cons, append_nil, !startsWith_cons. simpl.
    now rewrite startsWith_nil. }
  assert (Et : forall t, parseFormFields now fields = Some t ->
                         invoiceNo t = VStr (pretty now)).
  { intros t Ht.
    destruct (parseFormFields_inv now fields t Ht) as (_ & _ & _ & _ & _ & _ & Ei & _).
    now rewrite Ei. }
  split; [now apply rawInvoiceNo_default|]. split; [exact E|]. split.
  - destruct (parseFormFields now fields) as [t|] eqn:Ht; [|reflexivity].
    cbn. now rewrite (Et t eq_refl).
  - intros t Ht. split; [now apply Et|].
    rewrite (Et t Ht). intros Heq. injection Heq as Heq.
    apply (f_equal String.length) in Heq.
    rewrite length_append in Heq. simpl in Heq. lia.
Qed.

End PlaceholderFacts.

(** The failing input of C5: an empty submission at 1700000000000 ms. *)
Lemma placeholder_invoiceNo_witness :
  (forall k, In k invoice_aliases -> truthy (prop (obj ∅) k) = false)
  /\ invoiceNo <$> parseFormFields (H := Reference.builtins) 1700000000000 (obj ∅)
     = Some (VStr "1700000000000").
Proof.
  assert (Hk : forall k, In k invoice_aliases -> truthy (prop (obj ∅) k) = false)
    by (intros k _; reflexivity).
  split; [exact Hk|].
  exact (proj1 (proj2 (proj2 (@placeholder_invoiceNo_is_bare_timestamp
                         Reference.builtins 1700000000000 (obj ∅) Hk)))).
Defined.

(** ** The product field *)

Section ProductFacts.
Context `{Builtins}.

Lemma prop_throw_Some (v x : value) (k : string) :
  prop_throw v k = Some x -> x = prop v k.
Proof.
  unfold prop_throw. destruct v; intros E; try discriminate E;
    now injection E as <-.
Qed.

Lemma prop_throw_object (v : value) (k : string) :
  v <> VUndef -> v <> VNull -> prop_throw v k = Some (prop v k).
Proof. unfold prop_throw. destruct v; try reflexivity; congruence. Qed.

Lemma Product_eta (acc : Product.t) :
  {| Product.quantity := Product.quantity acc;
     Product.productDetails := Product.productDetails acc;
     Product.totalAmount := Product.totalAmount acc |} = acc.
Proof. now destruct acc. Qed.

(** The inner [try] either runs to its end or logs once.  When it logs,
    the total is as on entry, and the two other locals are as on entry
    too unless the exception came from [parseFloat(paymentData.total)]:
    then they hold what the product string gave. *)
Lemma paymentArray_block_log (paymentArray : value) (acc acc' : Product.t)
    (log : list LogLine) :
  paymentArray_block paymentArray acc = (acc', log) ->
  log = []
  \/ (log = [ErrorParsingPaymentArray]
      /\ Product.totalAmount acc' = Product.totalAmount acc
      /\ (acc' = acc
          \/ exists paymentData productString,
               String_ paymentArray ≫= JSON_parse = Some paymentData
               /\ isArray (prop paymentData "product") = true
               /\ prop (prop paymentData "product") "0" ||| VStr "" = VStr productString
               /\ truthy (prop paymentData "total") = true
               /\ String_ (prop paymentData "total") = None
               /\ acc' = {| Product.quantity :=
                              match match_Quantity productString with
                              | Some d => num_or (parseInt10 d) 1
                              | None => Product.quantity acc
                              end;
                            Product.productDetails := productString;
                            Product.totalAmount := Product.totalAmount acc |})).
Proof.
  unfold paymentArray_block. intros E.
  destruct (String_ paymentArray ≫= JSON_parse) as [paymentData|] eqn:Ep;
    [|injection E as <- <-; right; auto].
  destruct (prop_throw paymentData "product") as [product|] eqn:Epr;
    [|injection E as <- <-; right; auto].
  assert (Eprod : product = prop paymentData "product")
    by (now apply prop_throw_Some).
  destruct (truthy product && isArray product) eqn:Earr.
  - apply andb_prop in Earr as [_ Earr].
    destruct (prop product "0" ||| VStr "") as [| | | |productString| |] eqn:Es;
      try (injection E as <- <-; right; auto).
    destruct (truthy (prop paymentData "total")) eqn:Et;
      [|injection E as <- <-; now left].
    destruct (String_ (prop paymentData "total")) as [text|] eqn:Etext;
      injection E as <- <-; [now left|].
    right. split; [reflexivity|]. split; [reflexivity|]. right.
    exists paymentData, productString. subst product. auto 10.
  - destruct (truthy (prop paymentData "total"));
      [|injection E as <- <-; now left].
    destruct (String_ (prop paymentData "total"));
      injection E as <- <-; [now left | right; auto].
Qed.

(** The block of the key ['1'] either runs to its end or the outer
    [catch] logs once.  When it logs, the total is as on entry; the
    quantity is as on entry or the one just assigned, and the product text
    was assigned only when the exception came from the price. *)
Lemma direct_block_log (one : value) (acc acc' : Product.t) (log : list LogLine) :
  direct_block one acc = (acc', log) ->
  log = []
  \/ (log = [WarnParsingProductDetails]
      /\ Product.totalAmount acc' = Product.totalAmount acc
      /\ (acc' = acc
          \/ exists productData quantity,
               String_ one ≫= JSON_parse = Some productData
               /\ (if truthy (prop productData "quantity")
                   then exists text, String_ (prop productData "quantity") = Some text
                                     /\ quantity = num_or (parseInt10 text) 1
                   else quantity = Product.quantity acc)
               /\ ((truthy (prop productData "name") = true
                    /\ String_ (prop productData "name") = None
                    /\ acc' = {| Product.quantity := quantity;
                                 Product.productDetails := Product.productDetails acc;
                                 Product.totalAmount := Product.totalAmount acc |})
                   \/ (truthy (prop productData "price") = true
                       /\ ToNumber (prop productData "price") = None
                       /\ exists productDetails,
                            (if truthy (prop productData "name")
                             then exists text,
                                    String_ (prop productData "name") = Some text
                                    /\ productDetails
                                       = text +:+ " (Quantity: "
                                         +:+ Number_toString quantity +:+ ")"
                             else productDetails = Product.productDetails acc)
                            /\ acc' = {| Product.quantity := quantity;
                                         Product.productDetails := productDetails;
                                         Product.totalAmount := Product.totalAmount acc |})))).
Proof.
  unfold direct_block. intros E.
  destruct (String_ one ≫= JSON_parse) as [productData|] eqn:Ep;
    [|injection E as <- <-; right; auto].
  destruct (prop_throw productData "quantity") as [q|] eqn:Eq;
    [|injection E as <- <-; right; auto].
  assert (Eq' : q = prop productData "quantity")
    by (now apply prop_throw_Some).
  subst q. clear Eq.
  set (qstep := if truthy (prop productData "quantity")
                then (fun text => num_or (parseInt10 text) 1)
                     <$> String_ (prop productData "quantity")
                else Some (Product.quantity acc)) in E.
  destruct qstep as [quantity|] eqn:Equantity;
    [|injection E as <- <-; right; auto].
  assert (Hq : if truthy (prop productData "quantity")
               then exists text, String_ (prop productData "quantity") = Some text
                                 /\ quantity = num_or (parseInt10 text) 1
               else quantity = Product.quantity acc).
  { subst qstep. destruct (truthy (prop productData "quantity")).
    - destruct (String_ (prop productData "quantity")) as [text|];
        [|discriminate Equantity].
      exists text. split; [reflexivity|]. cbn in Equantity. congruence.
    - congruence. }
  clear Equantity qstep.
  set (nstep := if truthy (prop productData "name")
                then (fun text => text +:+ " (Quantity: "
                                  +:+ Number_toString quantity +:+ ")")
                     <$> String_ (prop productData "name")
                else Some (Product.productDetails acc)) in E.
  destruct nstep as [productDetails|] eqn:Ename.
  2:{ injection E as <- <-. right. split; [reflexivity|]. split; [reflexivity|].
      right. exists productData, quantity. split; [reflexivity|]. split; [exact Hq|].
      left. subst nstep.
      destruct (truthy (prop productData "name")); [|discriminate Ename].
      destruct (String_ (prop productData "name")); [discriminate Ename|]. auto. }
  assert (Hn : if truthy (prop productData "name")
               then exists text,
                      String_ (prop productData "name") = Some text
                      /\ productDetails
                         = text +:+ " (Quantity: " +:+ Number_toString quantity +:+ ")"
               else productDetails = Product.productDetails acc).
  { subst nstep. destruct (truthy (prop productData "name")).
    - destruct (String_ (prop productData "name")) as [text|];
        [|discriminate Ename].
      exists text. split; [reflexivity|]. cbn in Ename. congruence.
    - congruence. }
  clear Ename nstep.
  destruct (truthy (prop productData "price")) eqn:Eprice;
    [|injection E as <- <-; now left].
  destruct (ToNumber (prop productData "price")) as [p|] eqn:Enum;
    injection E as <- <-; [now left|].
  right. split; [reflexivity|]. split; [reflexivity|].
  right. exists productData, quantity. split; [reflexivity|]. split; [exact Hq|].
  right. split; [exact Eprice|]. split; [exact Enum|].
  exists productDetails. auto.
Qed.

(** The log of the whole function is the log of the inner [try] followed
    by the log of the block of ['1']. *)
Lemma parseProductDetails_logged_object (productField : value) :
  truthy productField && is_object productField = true ->
  parseProductDetails_logged productField
  = (let '(acc1, log1) :=
       if truthy (prop productField "paymentArray")
       then paymentArray_block (prop productField "paymentArray") Product.defaults
       else (Product.defaults, []) in
     if truthy (prop productField "1") then
       let '(acc2, log2) := direct_block (prop productField "1") acc1 in
       (acc2, log1 ++ log2)
     else (acc1, log1)).
Proof. intros E. unfold parseProductDetails_logged. now rewrite E. Qed.

(** C7 (as amended): [parseProductDetails] is a total function; both of
    its [catch] blocks only log.  It returns the defaults for a field that
    is neither an object nor a string (absent, [null], a boolean, a number)
    and for an object with neither a [paymentArray] nor a ['1'] entry.  A
    caught exception keeps what was assigned before it.  Malformed JSON in
    the [paymentArray] leaves the defaults, and malformed JSON in ['1']
    leaves what the [paymentArray] part produced.  An exception of the
    inner [try] never changes the total, and changes the quantity and the
    product text only when it comes from the conversion of
    [paymentData.total]; an exception in the block of ['1'] never changes
    the total either, keeps the quantity assigned before a name that
    cannot be converted, and keeps the quantity and the product text
    assigned before a price that cannot be converted. *)
Theorem parseProductDetails_keeps_progress_on_exception (productField : value) :
  let result := parseProductDetails productField in
  let log := snd (parseProductDetails_logged productField) in
  let before := after_paymentArray productField in
  (* unrecognised shapes *)
  (is_object productField = false -> (forall s, productField <> VStr s) ->
   parseProductDetails_logged productField = (Product.defaults, []))
  /\ (truthy (prop productField "paymentArray") = false ->
      truthy (prop productField "1") = false ->
      (forall s, productField <> VStr s) ->
      parseProductDetails_logged productField = (Product.defaults, []))
  (* malformed embedded JSON *)
  /\ (truthy productField && is_object productField = true ->
      truthy (prop productField "paymentArray") = true ->
      String_ (prop productField "paymentArray") ≫= JSON_parse = None ->
      truthy (prop productField "1") = false ->
      parseProductDetails_logged productField
      = (Product.defaults, [ErrorParsingPaymentArray]))
  /\ (truthy productField && is_object productField = true ->
      truthy (prop productField "1") = true ->
      String_ (prop productField "1") ≫= JSON_parse = None ->
      result = before /\ In WarnParsingProductDetails log)
  (* an exception of the inner [try] *)
  /\ (In ErrorParsingPaymentArray log ->
      truthy (prop productField "1") = false ->
      result = before
      /\ Product.totalAmount result = 0%float
      /\ (result = Product.defaults
          \/ exists paymentData productString,
               String_ (prop productField "paymentArray") ≫= JSON_parse
               = Some paymentData
               /\ isArray (prop paymentData "product") = true
               /\ prop (prop paymentData "product") "0" ||| VStr ""
                  = VStr productString
               /\ truthy (prop paymentData "total") = true
               /\ String_ (prop paymentData "total") = None
               /\ result = {| Product.quantity :=
                                match match_Quantity productString with
                                | Some d => num_or (parseInt10 d) 1
                                | None => 1%float
                                end;
                              Product.productDetails := productString;
                              Product.totalAmount := 0 |}))
  /\ (forall paymentData productString,
      truthy productField && is_object productField = true ->
      truthy (prop productField "paymentArray") = true ->
      String_ (prop productField "paymentArray") ≫= JSON_parse = Some paymentData ->
      isArray (prop paymentData "product") = true ->
      prop (prop paymentData "product") "0" ||| VStr "" = VStr productString ->
      truthy (prop paymentData "total") = true ->
      String_ (prop paymentData "total") = None ->
      truthy (prop productField "1") = false ->
      parseProductDetails_logged productField
      = ({| Product.quantity :=
              match match_Quantity productString with
              | Some d => num_or (parseInt10 d) 1
              | None => 1%float
              end;
            Product.productDetails := productString;
            Product.totalAmount := 0 |}, [ErrorParsingPaymentArray]))
  (* an exception in the block of ['1'] *)
  /\ (In WarnParsingProductDetails log ->
      Product.totalAmount result = Product.totalAmount before
      /\ (Product.productDetails result = Product.productDetails before
          \/ exists productData text,
               String_ (prop productField "1") ≫= JSON_parse = Some productData
               /\ String_ (prop productData "name") = Some text
               /\ ToNumber (prop productData "price") = None
               /\ Product.productDetails result
                  = text +:+ " (Quantity: "
                    +:+ Number_toString (Product.quantity result) +:+ ")")
      /\ (Product.quantity result = Product.quantity before
          \/ exists productData text,
               String_ (prop productField "1") ≫= JSON_parse = Some productData
               /\ String_ (prop productData "quantity") = Some text
               /\ Product.quantity result = num_or (parseInt10 text) 1))
  /\ (forall productData text,
      truthy productField && is_object productField = true ->
      truthy (prop productField "1") = true ->
      String_ (prop productField "1") ≫= JSON_parse = Some productData ->
      truthy (prop productData "quantity") = true ->
      String_ (prop productData "quantity") = Some text ->
      truthy (prop productData "name") = true ->
      String_ (prop productData "name") = None ->
      result = {| Product.quantity := num_or (parseInt10 text) 1;
                  Product.productDetails := Product.productDetails before;
                  Product.totalAmount := Product.totalAmount before |}
      /\ In WarnParsingProductDetails log)
  /\ (forall productData text label,
      truthy productField && is_object productField = true ->
      truthy (prop productField "1") = true ->
      String_ (prop productField "1") ≫= JSON_parse = Some productData ->
      truthy (prop productData "quantity") = true ->
      String_ (prop productData "quantity") = Some text ->
      truthy (prop productData "name") = true ->
      String_ (prop productData "name") = Some label ->
      truthy (prop productData "price") = true ->
      ToNumber (prop productData "price") = None ->
      result = {| Product.quantity := num_or (parseInt10 text) 1;
                  Product.productDetails :=
                    label +:+ " (Quantity: "
                    +:+ Number_toString (num_or (parseInt10 text) 1) +:+ ")";
                  Product.totalAmount := Product.totalAmount before |}
      /\ In WarnParsingProductDetails log).
Proof.
  cbv zeta.
  assert (Hdirect : truthy productField && is_object productField = true ->
                    truthy (prop productField "1") = true ->
                    parseProductDetails_logged productField
                    = (fst (direct_block (prop productField "1")
                              (after_paymentArray productField)),
                       (if truthy (prop productField "paymentArray")
                        then snd (paymentArray_block (prop productField "paymentArray")
                                    Product.defaults)
                        else [])
                       ++ snd (direct_block (prop productField "1")
                                 (after_paymentArray productField)))).
  { intros Eo E1. rewrite parseProductDetails_logged_object by exact Eo.
    unfold after_paymentArray. rewrite E1.
    destruct (truthy (prop productField "paymentArray")).
    - destruct (paymentArray_block _ _) as [acc1 log1]. cbn [fst snd].
      now destruct (direct_block _ acc1).
    - now destruct (direct_block _ _). }
  assert (Hinner : truthy productField && is_object productField = true ->
                   truthy (prop productField "1") = false ->
                   parseProductDetails_logged productField
                   = (after_paymentArray productField,
                      if truthy (prop productField "paymentArray")
                      then snd (paymentArray_block (prop productField "paymentArray")
                                  Product.defaults)
                      else [])).
  { intros Eo E1. rewrite parseProductDetails_logged_object by exact Eo.
    unfold after_paymentArray. rewrite E1.
    destruct (truthy (prop productField "paymentArray")); [|reflexivity].
    now destruct (paymentArray_block _ _). }
  assert (Hlog_shape : truthy productField && is_object productField = false ->
                       snd (parseProductDetails_logged productField) = []).
  { intros Eo. unfold parseProductDetails_logged. rewrite Eo.
    now destruct productField. }
  assert (Hwarn : In WarnParsingProductDetails
                    (snd (parseProductDetails_logged productField)) ->
                  truthy productField && is_object productField = true
                  /\ truthy (prop productField "1") = true
                  /\ snd (direct_block (prop productField "1")
                            (after_paymentArray productField))
                     = [WarnParsingProductDetails]).
  { intros Hin.
    destruct (Sumbool.sumbool_of_bool (truthy productField && is_object productField))
      as [Eo|Eo].
    2:{ rewrite Hlog_shape in Hin by exact Eo. destruct Hin. }
    destruct (Sumbool.sumbool_of_bool (truthy (prop productField "1"))) as [E1|E1].
    - split; [exact Eo|]. split; [exact E1|].
      rewrite Hdirect in Hin by assumption. cbn [snd] in Hin.
      apply in_app_or in Hin as [Hin|Hin].
      + destruct (truthy (prop productField "paymentArray")); [|destruct Hin].
        destruct (paymentArray_block _ _) as [acc1 log1] eqn:Eb.
        apply paymentArray_block_log in Eb as [->|[-> _]]; cbn in Hin;
          intuition discriminate.
      + destruct (direct_block _ _) as [acc2 log2] eqn:Eb.
        apply direct_block_log in Eb as [->|[-> _]]; [destruct Hin | reflexivity].
    - rewrite Hinner in Hin by assumption. cbn [snd] in Hin.
      destruct (truthy (prop productField "paymentArray")); [|destruct Hin].
      destruct (paymentArray_block _ _) as [acc1 log1] eqn:Eb.
      apply paymentArray_block_log in Eb as [->|[-> _]]; cbn in Hin;
        intuition discriminate. }
  repeat match goal with |- _ /\ _ => split end.
  - intros Hobj Hstr. unfold parseProductDetails_logged.
    rewrite Hobj, andb_false_r.
    destruct productField; try reflexivity. now destruct (Hstr s).
  - intros Hpa H1 Hstr. unfold parseProductDetails_logged.
    rewrite Hpa, H1.
    destruct (truthy productField && is_object productField); [reflexivity|].
    destruct productField; try reflexivity. now destruct (Hstr s).
  - intros Eo Epa Ep E1. rewrite Hinner by assumption.
    unfold after_paymentArray, paymentArray_block. now rewrite Epa, Ep.
  - intros Eo E1 Ep. unfold parseProductDetails.
    rewrite Hdirect by assumption. cbn [fst snd].
    unfold direct_block. rewrite Ep. cbn [fst snd]. split; [reflexivity|].
    apply in_or_app. right. now left.
  - intros Hin E1. unfold parseProductDetails.
    destruct (Sumbool.sumbool_of_bool (truthy productField && is_object productField))
      as [Eo|Eo].
    2:{ rewrite Hlog_shape in Hin by exact Eo. destruct Hin. }
    rewrite Hinner in * by assumption. cbn [fst snd] in *.
    split; [reflexivity|]. unfold after_paymentArray.
    destruct (truthy (prop productField "paymentArray")); [|destruct Hin].
    destruct (paymentArray_block _ _) as [acc1 log1] eqn:Eb. cbn [fst snd] in *.
    apply paymentArray_block_log in Eb as [->|(-> & Et & Hc)]; [destruct Hin|].
    split; [exact Et|].
    destruct Hc as [->|(paymentData & productString & Hc)]; [now left|].
    right. exists paymentData, productString. exact Hc.
  - intros paymentData productString Eo Epa Ep Earr Es Et Etext E1.
    rewrite Hinner by assumption.
    unfold after_paymentArray, paymentArray_block. rewrite Epa, Ep.
    assert (Epr : prop_throw paymentData "product"
                  = Some (prop paymentData "product")).
    { apply prop_throw_object; intros ->; discriminate Earr. }
    rewrite Epr.
    assert (Etr : truthy (prop paymentData "product") = true)
      by (now destruct (prop paymentData "product")).
    rewrite Etr, Earr, Es, Et, Etext. reflexivity.
  - intros Hin. destruct (Hwarn Hin) as (Eo & E1 & Elog).
    unfold parseProductDetails. rewrite Hdirect by assumption. cbn [fst].
    destruct (direct_block _ _) as [acc2 log2] eqn:Eb. cbn [fst snd] in *.
    apply direct_block_log in Eb as [->|(_ & Et & Hc)]; [discriminate Elog|].
    split; [exact Et|].
    destruct Hc as [->|(productData & quantity & Ep & Hq & Hc)]; [auto|].
    assert (Equantity : Product.quantity acc2 = quantity).
    { destruct Hc as [(_ & _ & ->)|(_ & _ & d & _ & ->)]; reflexivity. }
    split.
    + destruct Hc as [(_ & _ & ->)|(_ & En & d & Hd & ->)]; [now left|].
      cbn [Product.productDetails Product.quantity].
      destruct (truthy (prop productData "name")); [|left; exact Hd].
      destruct Hd as (text & Etext & ->). right. exists productData, text. auto.
    + rewrite Equantity.
      destruct (truthy (prop productData "quantity")); [|left; exact Hq].
      destruct Hq as (text & Etext & ->). right. exists productData, text. auto.
  - intros productData text Eo E1 Ep Eq Etext En Ename.
    unfold parseProductDetails. rewrite Hdirect by assumption. cbn [fst snd].
    unfold direct_block. rewrite Ep.
    assert (Epq : prop_throw productData "quantity"
                  = Some (prop productData "quantity")).
    { apply prop_throw_object; intros ->; discriminate Eq. }
    rewrite Epq, Eq, Etext. cbn [fmap option_fmap option_map].
    rewrite En, Ename. cbn [fmap option_fmap option_map fst snd].
    split; [reflexivity|]. apply in_or_app. right. now left.
  - intros productData text label Eo E1 Ep Eq Etext En Ename Epr Eprice.
    unfold parseProductDetails. rewrite Hdirect by assumption. cbn [fst snd].
    unfold direct_block. rewrite Ep.
    assert (Epq : prop_throw productData "quantity"
                  = Some (prop productData "quantity")).
    { apply prop_throw_object; intros ->; discriminate Eq. }
    rewrite Epq, Eq, Etext. cbn [fmap option_fmap option_map].
    rewrite En, Ename. cbn [fmap option_fmap option_map].
    rewrite Epr, Eprice. cbn [fmap option_fmap option_map fst snd].
    split; [reflexivity|]. apply in_or_app. right. now left.
Qed.

End ProductFacts.

(** C7 (as stated) fails: the [paymentArray] of this field parses and
    gives the product text "VIP"; its ['1'] entry is malformed JSON, the
    outer [catch] logs the exception, and the text already extracted is
    returned, not the defaults. *)
Lemma parseProductDetails_exception_not_defaults :
  let productField :=
    obj {[ "paymentArray" := VStr (Reference.dq "{'product':['VIP']}");
           "1" := VStr "oops" ]} in
  JSON_parse (Builtins := Reference.builtins) "oops" = None
  /\ parseProductDetails_logged (H := Reference.builtins) productField
     = ({| Product.quantity := 1; Product.productDetails := "VIP";
           Product.totalAmount := 0 |}, [WarnParsingProductDetails])
  /\ parseProductDetails (H := Reference.builtins) productField <> Product.defaults.
Proof.
  cbv zeta. split; [reflexivity|]. split; [vm_compute; reflexivity|].
  vm_compute. discriminate.
Qed.

(** An instance of C7 as amended: a number in place of the field and an
    object of another shape give the defaults, and so do a malformed
    [paymentArray] alone and a malformed ['1'] alone; a ['1'] entry whose
    name cannot be converted to a string keeps the quantity 2 that was
    read before it. *)
Lemma parseProductDetails_keeps_progress_witness :
  let parse := parseProductDetails (H := Reference.builtins) in
  let logged := parseProductDetails_logged (H := Reference.builtins) in
  let other := obj {[ "sku" := VStr "A1" ]} in
  let badArray := obj {[ "paymentArray" := VStr "{oops" ]} in
  let badOne := obj {[ "1" := VStr "oops" ]} in
  let badName :=
    obj {[ "1" := VStr (Reference.dq "{'quantity':2,'name':{'toString':1}}") ]} in
  logged (VNum 7) = (Product.defaults, [])
  /\ logged other = (Product.defaults, [])
  /\ logged badArray = (Product.defaults, [ErrorParsingPaymentArray])
  /\ parse badOne = Product.defaults
  /\ parse badName = {| Product.quantity := 2; Product.productDetails := "";
                        Product.totalAmount := 0 |}
  /\ In WarnParsingProductDetails (snd (logged badName)).
Proof.
  cbv zeta.
  split; [|split; [|split; [|split]]].
  - apply (proj1 (@parseProductDetails_keeps_progress_on_exception
                    Reference.builtins (VNum 7))); [reflexivity | discriminate].
  - apply (proj1 (proj2 (@parseProductDetails_keeps_progress_on_exception
                           Reference.builtins (obj {[ "sku" := VStr "A1" ]}))));
      [vm_compute; reflexivity | vm_compute; reflexivity | discriminate].
  - apply (proj1 (proj2 (proj2 (@parseProductDetails_keeps_progress_on_exception
                                  Reference.builtins
                                  (obj {[ "paymentArray" := VStr "{oops" ]})))));
      vm_compute; reflexivity.
  - refine (eq_trans (proj1 (proj1 (proj2 (proj2 (proj2
             (@parseProductDetails_keeps_progress_on_exception Reference.builtins
                (obj {[ "1" := VStr "oops" ]}))))) _ _ _)) _);
      vm_compute; reflexivity.
  - assert (Hw := proj1 (proj2 (proj2 (proj2 (proj2 (proj2 (proj2 (proj2
             (@parseProductDetails_keeps_progress_on_exception Reference.builtins
                (obj {[ "1" := VStr (Reference.dq
                                       "{'quantity':2,'name':{'toString':1}}") ]})))))))))
             (obj {[ "quantity" := VNum 2;
                     "name" := obj {[ "toString" := VNum 1 ]} ]}) "2").
    cbv zeta in Hw.
    destruct Hw as [Hr Hl]; try (vm_compute; reflexivity).
    split; [|exact Hl].
    refine (eq_trans Hr _). vm_compute; reflexivity.
Defined.

(** ** Alias keys *)

Lemma prop_singleton (k k' : string) (v : value) :
  prop (obj {[ k := v ]}) k' = if String.eqb k k' then v else VUndef.
Proof.
  unfold obj. simpl. destruct (String.eqb_spec k k') as [->|Hne].
  - now rewrite lookup_singleton_eq.
  - now rewrite lookup_singleton_ne.
Qed.

Section AliasFacts.
Context `{Builtins}.

(** The reads of a parser block on an object with one key. *)
Ltac eqb_concrete :=
  repeat match goal with
         | |- context [String.eqb ?a ?b] =>
             let r := eval vm_compute in (String.eqb a b) in
             lazymatch r with
             | true => change (String.eqb a b) with true
             | false => change (String.eqb a b) with false
             end
         end.

Ltac single_key Hv :=
  unfold emailOf, churchOf, rawInvoiceNo, nameFrom, phoneOf; cbv beta zeta;
  rewrite ?prop_singleton; eqb_concrete;
  cbv beta iota; unfold jsor;
  repeat (cbn [truthy orb andb negb]; rewrite ?Hv; cbv beta iota).

Ltac each_key Hin :=
  simpl in Hin; repeat (destruct Hin as [<-|Hin]; [|]); try contradiction.

Ltac this_key Hv :=
  eqb_concrete; unfold jsor;
  repeat (cbn [truthy orb andb negb]; rewrite ?Hv; cbv beta iota);
  try reflexivity.

Lemma parseFormFields_single (now : N) (k : string) (v : value) :
  parseFormFields now (obj {[ k := v ]})
  = (let fields := obj {[ k := v ]} in
     name ← nameFrom fields;
     phone ← phoneOf fields;
     Some {| formId := prop fields "formID" ||| prop fields "form_id"
                       ||| prop fields "formId" ||| VStr "";
             email := emailOf fields;
             name := name;
             invoiceNo := cleanInvoiceNo (rawInvoiceNo now fields);
             phone := phone;
             church := churchOf fields;
             quantity := Product.quantity (productOf fields);
             productDetails := Product.productDetails (productOf fields);
             totalAmount := Product.totalAmount (productOf fields);
             youthMinistry := VUndef;
             eventName := VUndef;
             eventDate := VUndef |}).
Proof. reflexivity. Qed.

Lemma nameFrom_single (k : string) (v : value) :
  truthy v = true ->
  nameFrom (obj {[ k := v ]})
  = if existsb (String.eqb k) structured_name_aliases then nameOf v
    else if String.eqb k "name" then String_ v
    else Some "".
Proof.
  intros Hv. unfold nameFrom, structured_name_aliases. cbv beta zeta.
  rewrite !prop_singleton. cbn [existsb].
  destruct (String.eqb_spec k "q4_fullName") as [->|N1]; [this_key Hv|].
  destruct (String.eqb_spec k "q4_name") as [->|N2]; [this_key Hv|].
  destruct (String.eqb_spec k "q3_ltstronggtnameltstronggt") as [->|N3];
    [this_key Hv|].
  destruct (String.eqb_spec k "q3_name") as [->|N4]; [this_key Hv|].
  destruct (String.eqb_spec k "q3_name[first]") as [->|N5]; [this_key Hv|].
  destruct (String.eqb_spec k "name") as [->|N6]; this_key Hv.
Qed.

Lemma phoneOf_single (k : string) (v : value) :
  truthy v = true ->
  phoneOf (obj {[ k := v ]})
  = if String.eqb k "q11_phoneNumber" then
      if is_object v && truthy (prop v "full") then Some (prop v "full")
      else VStr <$> String_ v
    else if existsb (String.eqb k) phone_aliases then Some v
    else Some (VStr "").
Proof.
  intros Hv. unfold phoneOf, phone_aliases. cbv beta zeta.
  rewrite !prop_singleton. cbn [existsb].
  destruct (String.eqb_spec k "q7_phone") as [->|N1]; [this_key Hv|].
  destruct (String.eqb_spec k "q7_phoneNumber") as [->|N2]; [this_key Hv|].
  destruct (String.eqb_spec k "q16_ltstronggtphoneNumberltstronggt") as [->|N3];
    [this_key Hv|].
  destruct (String.eqb_spec k "q11_phoneNumber") as [->|N4]; [this_key Hv|].
  destruct (String.eqb_spec k "q11_phoneNumber[full]") as [->|N5]; [this_key Hv|].
  destruct (String.eqb_spec k "phone") as [->|N6]; this_key Hv.
Qed.

(** C8 (as amended): a submission that carries one truthy value [v] under
    one alias key.  Email, church and invoice number come out the same
    under each of their keys: the value itself, and for the invoice number
    the value after cleaning.  Under the four keys [q4_fullName],
    [q4_name], [q3_ltstronggtnameltstronggt] and [q3_name] an object
    gives the trimmed "<first> <last>" of its members (each [''] when
    falsy) and any other value its string; under the key [name] every
    value gives its string, an object too.  A phone comes out as it is
    under every phone key but [q11_phoneNumber]; there an object gives its
    [full] member when that is truthy, and everything else its string.
    Where a value cannot be converted to a string the parser throws. *)
Theorem single_alias_extraction (now : N) (k : string) (v : value) :
  truthy v = true ->
  let s := parseFormFields now (obj {[ k := v ]}) in
  (In k email_aliases -> email <$> s = Some v)
  /\ (In k church_aliases -> church <$> s = Some v)
  /\ (In k invoice_aliases -> invoiceNo <$> s = Some (cleanInvoiceNo v))
  /\ (In k structured_name_aliases -> is_object v = true ->
      name <$> s
      = (first ← String_ (prop v "first" ||| VStr "");
         last ← String_ (prop v "last" ||| VStr "");
         Some (trim (first +:+ " " +:+ last))))
  /\ (In k structured_name_aliases -> is_object v = true ->
      forall first last,
        prop v "first" = VStr first -> prop v "last" = VStr last ->
        name <$> s = Some (trim (first +:+ " " +:+ last)))
  /\ (In k name_aliases -> is_object v = false -> name <$> s = String_ v)
  /\ (k = "name" -> name <$> s = String_ v)
  /\ (In k phone_aliases -> k <> "q11_phoneNumber" -> phone <$> s = Some v)
  /\ (k = "q11_phoneNumber" -> is_object v = true ->
      phone <$> s = if truthy (prop v "full") then Some (prop v "full")
                    else VStr <$> String_ v)
  /\ (k = "q11_phoneNumber" -> is_object v = false ->
      phone <$> s = VStr <$> String_ v).
Proof.
  intros Hv s. subst s. rewrite parseFormFields_single. cbv zeta.
  rewrite nameFrom_single, phoneOf_single by exact Hv.
  assert (Hstructured : In k structured_name_aliases ->
            forall o : option ParsedSubmission,
              (if existsb (String.eqb k) structured_name_aliases then nameOf v
               else if String.eqb k "name" then String_ v else Some "")
              = nameOf v
              /\ String.eqb k "q11_phoneNumber" = false
              /\ existsb (String.eqb k) phone_aliases = false).
  { intros Hin _. each_key Hin; repeat split; vm_compute; reflexivity. }
  assert (Hstring : forall a, String_ (VStr a ||| VStr "") = Some a).
  { intros a. unfold jsor. cbn [truthy].
    destruct (String.eqb_spec a "") as [->|_]; reflexivity. }
  repeat match goal with |- _ /\ _ => split end.
  - intros Hin. each_key Hin; single_key Hv; reflexivity.
  - intros Hin. each_key Hin; single_key Hv; reflexivity.
  - intros Hin. each_key Hin; single_key Hv; reflexivity.
  - intros Hin Hobj. destruct (Hstructured Hin None) as (-> & -> & ->).
    unfold nameOf. rewrite Hobj.
    destruct (String_ (prop v "first" ||| VStr "")) as [first|]; [|reflexivity].
    destruct (String_ (prop v "last" ||| VStr "")) as [last|]; reflexivity.
  - intros Hin Hobj first last Ef El.
    destruct (Hstructured Hin None) as (-> & -> & ->).
    unfold nameOf. rewrite Hobj, Ef, El, !Hstring. reflexivity.
  - intros Hin Hobj. unfold name_aliases in Hin. apply in_app_or in Hin as [Hin|Hin].
    + destruct (Hstructured Hin None) as (-> & -> & ->).
      unfold nameOf. rewrite Hobj. now destruct (String_ v).
    + each_key Hin. single_key Hv. now destruct (String_ v).
  - intros ->. single_key Hv. now destruct (String_ v).
  - intros Hin Hne. each_key Hin; try congruence; single_key Hv; reflexivity.
  - intros -> Hobj. single_key Hv. rewrite Hobj. cbn [andb].
    destruct (truthy (prop v "full")); [reflexivity|].
    now destruct (String_ v).
  - intros -> Hobj. single_key Hv. rewrite Hobj. cbn [andb].
    now destruct (String_ v).
Qed.

End AliasFacts.

(** An instance of C8 as amended: an email under [q5_email], a
    structured name under [q4_fullName], a plain phone under [q7_phone]. *)
Lemma single_alias_extraction_witness :
  let parse := parseFormFields (H := Reference.builtins) 0 in
  let person := obj {[ "first" := VStr "Jane"; "last" := VStr "Doe" ]} in
  truthy (VStr "jane@example.org") = true
  /\ truthy person = true
  /\ truthy (VStr "0400 000 000") = true
  /\ email <$> parse (obj {[ "q5_email" := VStr "jane@example.org" ]})
     = Some (VStr "jane@example.org")
  /\ name <$> parse (obj {[ "q4_fullName" := person ]}) = Some "Jane Doe"
  /\ phone <$> parse (obj {[ "q7_phone" := VStr "0400 000 000" ]})
     = Some (VStr "0400 000 000").
Proof.
  cbv zeta.
  split; [reflexivity|]. split; [reflexivity|]. split; [reflexivity|].
  split; [|split].
  - apply (proj1 (@single_alias_extraction Reference.builtins 0 "q5_email"
                    (VStr "jane@example.org") eq_refl)).
    simpl. tauto.
  - apply (proj1 (proj2 (proj2 (proj2 (proj2
             (@single_alias_extraction Reference.builtins 0 "q4_fullName"
                (obj {[ "first" := VStr "Jane"; "last" := VStr "Doe" ]}) eq_refl)))))
             (or_introl eq_refl) eq_refl "Jane" "Doe");
      vm_compute; reflexivity.
  - apply (proj1 (proj2 (proj2 (proj2 (proj2 (proj2 (proj2 (proj2
             (@single_alias_extraction Reference.builtins 0 "q7_phone"
                (VStr "0400 000 000") eq_refl))))))))); [simpl; tauto | discriminate].
Defined.

(** C8 (as stated) fails.  The same first-and-last-name object is
    flattened under [q3_name] but printed as an object under [name]; the
    same [{full}] phone object is flattened under [q11_phoneNumber] but
    passed through as an object under [q7_phone]; and a [{full}] name is
    not used at all. *)
Lemma structured_values_depend_on_alias :
  let person := obj {[ "first" := VStr "Jane"; "last" := VStr "Doe" ]} in
  let number := obj {[ "full" := VStr "0400 000 000" ]} in
  let parse := parseFormFields (H := Reference.builtins) 0 in
  name <$> parse (obj {[ "q3_name" := person ]}) = Some "Jane Doe"
  /\ name <$> parse (obj {[ "name" := person ]}) = Some "[object Object]"
  /\ phone <$> parse (obj {[ "q11_phoneNumber" := number ]})
     = Some (VStr "0400 000 000")
  /\ phone <$> parse (obj {[ "q7_phone" := number ]}) = Some number
  /\ name <$> parse (obj {[ "q3_name" := obj {[ "full" := VStr "Jane Doe" ]} ]})
     = Some "".
Proof. cbv zeta. repeat split; vm_compute; reflexivity. Qed.

(** ** The form id in nested mode *)

Lemma formFields_of_foldl (formId : value) (entries : list (string * value)) :
  formFields_of formId entries
  = foldl assign_entry
          (VObj None (<["formId" := formId]> (<["formID" := formId]> ∅))) entries.
Proof. reflexivity. Qed.

Lemma set_prop_own (p : option value) (m : gmap string value) (k' : string)
    (v : value) :
  exists p' m',
    set_prop (VObj p m) k' v = VObj p' m'
    /\ (forall k, k <> "__proto__" ->
                  m' !! k = if String.eqb k' k then Some v else m !! k)
    /\ (k' <> "__proto__" -> p' = p).
Proof.
  unfold set_prop.
  destruct (String.eqb_spec k' "__proto__") as [->|Hne].
  - assert (Hsame : forall k, k <> "__proto__" ->
              m !! k = if String.eqb "__proto__" k then Some v else m !! k).
    { intros k Hk. destruct (String.eqb_spec "__proto__" k); congruence. }
    destruct (setter_applies (VObj p m)); cbv [andb].
    + destruct v; eexists _, _; (split; [reflexivity|]); split;
        try exact Hsame; congruence.
    + eexists _, _. split; [reflexivity|]. split; [|congruence].
      intros k Hk. rewrite lookup_insert_ne by congruence. now apply Hsame.
  - cbv [andb]. eexists _, _. split; [reflexivity|]. split; [|reflexivity].
    intros k Hk. destruct (String.eqb_spec k' k) as [->|Hne'].
    + now rewrite lookup_insert_eq.
    + now rewrite lookup_insert_ne.
Qed.

(** The own properties after the loop, and the prototype when no entry
    is [__proto__]. *)
Lemma foldl_assign_entry (entries : list (string * value)) :
  forall (p : option value) (m : gmap string value),
  exists p' m',
    foldl assign_entry (VObj p m) entries = VObj p' m'
    /\ (forall k, k <> "__proto__" -> m' !! k = last_binding k entries (m !! k))
    /\ ((forall v, ~ In ("__proto__", v) entries) -> p' = p).
Proof.
  induction entries as [|[k1 v1] rest IH]; intros p m.
  - exists p, m. simpl. auto.
  - change (foldl assign_entry (VObj p m) ((k1, v1) :: rest))
      with (foldl assign_entry (set_prop (VObj p m) k1 v1) rest).
    destruct (set_prop_own p m k1 v1) as (p1 & m1 & -> & Hown & Hproto).
    destruct (IH p1 m1) as (p' & m' & -> & Hown' & Hproto').
    exists p', m'. split; [reflexivity|]. split.
    + intros k Hk. rewrite Hown', Hown by assumption. reflexivity.
    + intros Hno. rewrite Hproto'.
      * apply Hproto. intros ->. apply (Hno v1). now left.
      * intros v Hin. apply (Hno v). now right.
Qed.

Lemma last_binding_absent (k : string) (entries : list (string * value))
    (dflt : option value) :
  (forall v, ~ In (k, v) entries) -> last_binding k entries dflt = dflt.
Proof.
  revert dflt. induction entries as [|[k1 v1] rest IH]; intros dflt Hno.
  - reflexivity.
  - simpl. destruct (String.eqb_spec k1 k) as [->|Hne].
    + exfalso. apply (Hno v1). now left.
    + apply IH. intros v Hin. apply (Hno v). now right.
Qed.

Lemma last_binding_present (k : string) (v : value)
    (entries : list (string * value)) (dflt : option value) :
  NoDup (entries.*1) -> (k, v) ∈ entries ->
  last_binding k entries dflt = Some v.
Proof.
  revert dflt. induction entries as [|[k1 v1] rest IH]; intros dflt Hnd Hin.
  - now apply elem_of_nil in Hin.
  - rewrite fmap_cons in Hnd. apply NoDup_cons in Hnd as [Hfresh Hnd].
    apply elem_of_cons in Hin as [Heq|Hin].
    + injection Heq as <- <-. simpl. rewrite String.eqb_refl.
      apply last_binding_absent. intros v' Hin'.
      apply Hfresh. apply list_elem_of_fmap. exists (k, v'). split; [reflexivity|].
      now apply list_elem_of_In.
    + simpl. now apply IH.
Qed.

Lemma outer_formId_cases (payload : value) :
  truthy (outer_formId payload) = true \/ outer_formId payload = VStr "".
Proof.
  unfold outer_formId.
  set (x := prop payload "formID" ||| prop payload "form_id" ||| prop payload "formId").
  unfold jsor. destruct (truthy x) eqn:Ex; [now left | now right].
Qed.

Lemma jsor_outer_formId (payload : value) :
  outer_formId payload ||| VUndef ||| outer_formId payload ||| VStr ""
  = outer_formId payload.
Proof.
  destruct (outer_formId_cases payload) as [Ht| ->].
  - unfold jsor. now rewrite !Ht.
  - reflexivity.
Qed.

Section NestedFormId.
Context `{Builtins}.

Lemma jsor_truthy (a b : value) : truthy a = true -> a ||| b = a.
Proof. intros Ha. unfold jsor. now rewrite Ha. Qed.

(** [parseWebhook] with an embedded request that parses: the fields
    extracted from it are tried first, and the payload itself when
    [parseFormFields] throws on them. *)
Lemma parseWebhook_nested (now : N) (payload rawData : value) (text : string)
    (entries : list (string * value)) :
  truthy (prop payload "rawRequest") = true ->
  String_ (prop payload "rawRequest") = Some text ->
  JSON_parse text = Some rawData ->
  Object_entries rawData = Some entries ->
  parseWebhook now payload
  = match parseFormFields now (formFields_of (outer_formId payload) entries) with
    | Some ticketData => Some ticketData
    | None => parseFormFields now payload
    end.
Proof.
  intros Hraw Htext Hparse Hentries. unfold parseWebhook.
  destruct payload; try discriminate Hraw;
    rewrite Hraw, Htext; cbn [mbind option_bind];
    rewrite Hparse; cbn [mbind option_bind];
    rewrite Hentries; reflexivity.
Qed.

(** The form id of a legacy parse is the outer one. *)
Lemma formId_legacy (now : N) (payload : value) (t : ParsedSubmission) :
  parseFormFields now payload = Some t -> formId t = outer_formId payload.
Proof.
  intros Ht.
  now destruct (parseFormFields_inv now payload t Ht) as (_ & _ & _ & _ & E & _).
Qed.

(** C4 (as amended): in nested mode the parsed request is laid over the
    two injected form-id properties, so an inner value wins.  When
    [parseFormFields] accepts the extracted fields, its result is
    returned; its form id is the outer one when the parsed request has
    none of the keys [formID], [form_id], [formId] (and no [__proto__]
    entry), and when the parsed request is an object with a truthy
    [formID], that inner value is the form id.  When [parseFormFields]
    throws on the extracted fields, the payload itself is parsed, and the
    form id of that result is the outer one. *)
Theorem nested_formId_inner_first (now : N) (payload rawData : value)
    (text : string) (entries : list (string * value)) :
  truthy (prop payload "rawRequest") = true ->
  String_ (prop payload "rawRequest") = Some text ->
  JSON_parse text = Some rawData ->
  Object_entries rawData = Some entries ->
  let formFields := formFields_of (outer_formId payload) entries in
  (forall ticketData,
     parseFormFields now formFields = Some ticketData ->
     parseWebhook now payload = Some ticketData
     /\ ((forall k v, In (k, v) entries ->
                      ~ In k ["formID"; "form_id"; "formId"; "__proto__"]) ->
         formId ticketData = outer_formId payload)
     /\ (forall p m v,
           rawData = VObj p m -> m !! "formID" = Some v -> truthy v = true ->
           formId ticketData = v))
  /\ (parseFormFields now formFields = None ->
      parseWebhook now payload = parseFormFields now payload
      /\ forall ticketData,
           parseWebhook now payload = Some ticketData ->
           formId ticketData = outer_formId payload)
  /\ ((forall k v, In (k, v) entries ->
                   ~ In k ["formID"; "form_id"; "formId"; "__proto__"]) ->
      forall ticketData,
        parseWebhook now payload = Some ticketData ->
        formId ticketData = outer_formId payload).
Proof.
  intros Hraw Htext Hparse Hentries formFields.
  assert (Hweb := parseWebhook_nested now payload rawData text entries
                    Hraw Htext Hparse Hentries).
  fold formFields in Hweb.
  assert (Hnested : forall ticketData,
            parseFormFields now formFields = Some ticketData ->
            ((forall k v, In (k, v) entries ->
                          ~ In k ["formID"; "form_id"; "formId"; "__proto__"]) ->
             formId ticketData = outer_formId payload)
            /\ (forall p m v,
                  rawData = VObj p m -> m !! "formID" = Some v -> truthy v = true ->
                  formId ticketData = v)).
  { intros ticketData Ht.
    destruct (parseFormFields_inv now formFields ticketData Ht)
      as (_ & _ & _ & _ & -> & _).
    subst formFields. rewrite formFields_of_foldl.
    destruct (foldl_assign_entry entries None
                (<["formId" := outer_formId payload]>
                   (<["formID" := outer_formId payload]> ∅)))
      as (p' & m' & -> & Hown & Hproto).
    split.
    - intros Hkeys.
      assert (Habsent : forall k, In k ["formID"; "form_id"; "formId"; "__proto__"] ->
                                  forall v, ~ In (k, v) entries).
      { intros k Hk v Hin. now apply (Hkeys k v). }
      rewrite Hproto by (apply Habsent; simpl; tauto).
      simpl prop.
      rewrite !Hown by discriminate.
      rewrite !last_binding_absent by (apply Habsent; simpl; tauto).
      rewrite lookup_insert_ne by discriminate.
      rewrite lookup_insert_eq.
      rewrite lookup_insert_ne by discriminate.
      rewrite lookup_insert_ne by discriminate.
      rewrite lookup_empty, lookup_insert_eq.
      apply jsor_outer_formId.
    - intros p m v -> Hm Hv. simpl in Hentries. injection Hentries as <-.
      simpl prop at 1. rewrite Hown by discriminate.
      rewrite (last_binding_present "formID" v).
      + now rewrite !(jsor_truthy v) by assumption.
      + apply NoDup_fst_map_to_list.
      + now apply elem_of_map_to_list. }
  split; [|split].
  - intros ticketData Ht. split; [now rewrite Hweb, Ht|]. now apply Hnested.
  - intros Hnone. rewrite Hnone in Hweb. split; [exact Hweb|].
    intros ticketData Ht. rewrite Hweb in Ht. now apply (formId_legacy now).
  - intros Hkeys ticketData Ht. rewrite Hweb in Ht.
    destruct (parseFormFields now formFields) as [t|] eqn:Et.
    + injection Ht as ->. now apply (Hnested ticketData).
    + now apply (formId_legacy now).
Qed.

End NestedFormId.

(** C4 (as stated) fails: the outer payload says "outer", the embedded
    request says "inner", nested mode applies, and the result carries
    "inner". *)
Lemma nested_formId_inner_overrides_outer :
  let payload :=
    obj {[ "formID" := VStr "outer";
           "rawRequest" := VStr (Reference.dq "{'formID':'inner'}") ]} in
  JSON_parse (Builtins := Reference.builtins) (Reference.dq "{'formID':'inner'}")
  = Some (obj {[ "formID" := VStr "inner" ]})
  /\ outer_formId payload = VStr "outer"
  /\ formId <$> parseWebhook (H := Reference.builtins) 0 payload = Some (VStr "inner").
Proof. cbv zeta. repeat split; vm_compute; reflexivity. Qed.

(** An instance of C4 as amended: an embedded request without a form id
    keeps the outer one, an embedded request with a form id brings its
    own. *)
Lemma nested_formId_inner_first_witness :
  let payload :=
    obj {[ "formID" := VStr "241234567890";
           "rawRequest" := VStr (Reference.dq "{'q5_email':'jane@example.org'}") ]} in
  let payload' :=
    obj {[ "formID" := VStr "241234567890";
           "rawRequest" := VStr (Reference.dq "{'formID':'250000000000'}") ]} in
  (exists ticketData,
     parseWebhook (H := Reference.builtins) 0 payload = Some ticketData
     /\ formId ticketData = VStr "241234567890")
  /\ (exists ticketData,
        parseWebhook (H := Reference.builtins) 0 payload' = Some ticketData
        /\ formId ticketData = VStr "250000000000").
Proof.
  cbv zeta. split.
  - pose proof (@nested_formId_inner_first Reference.builtins 0
                  (obj {[ "formID" := VStr "241234567890";
                          "rawRequest" :=
                            VStr (Reference.dq "{'q5_email':'jane@example.org'}") ]})
                  (obj {[ "q5_email" := VStr "jane@example.org" ]})
                  (Reference.dq "{'q5_email':'jane@example.org'}")
                  [("q5_email", VStr "jane@example.org")]) as Hthm.
    cbv zeta in Hthm.
    destruct Hthm as (Hn & _ & _); try (vm_compute; reflexivity).
    match type of Hn with
    | forall t, ?parsed = Some t -> _ =>
        destruct parsed as [ticketData|] eqn:Et;
          [|vm_compute in Et; discriminate Et]
    end.
    exists ticketData. destruct (Hn ticketData eq_refl) as (Hweb & Hout & _).
    split; [exact Hweb|]. refine (eq_trans (Hout _) _); [|vm_compute; reflexivity].
    intros k v [Heq|[]]. injection Heq as <- <-.
    simpl. intuition discriminate.
  - pose proof (@nested_formId_inner_first Reference.builtins 0
                  (obj {[ "formID" := VStr "241234567890";
                          "rawRequest" :=
                            VStr (Reference.dq "{'formID':'250000000000'}") ]})
                  (obj {[ "formID" := VStr "250000000000" ]})
                  (Reference.dq "{'formID':'250000000000'}")
                  [("formID", VStr "250000000000")]) as Hthm.
    cbv zeta in Hthm.
    destruct Hthm as (Hn & _ & _); try (vm_compute; reflexivity).
    match type of Hn with
    | forall t, ?parsed = Some t -> _ =>
        destruct parsed as [ticketData|] eqn:Et;
          [|vm_compute in Et; discriminate Et]
    end.
    exists ticketData. destruct (Hn ticketData eq_refl) as (Hweb & _ & Hin).
    split; [exact Hweb|].
    apply (Hin None {[ "formID" := VStr "250000000000" ]} (VStr "250000000000"));
      vm_compute; reflexivity.
Defined.

(** ** The store and the handlers *)

Section HandlerFacts.
Context `{Builtins} `{Services}.

(** A receiver from which a property can be read without a [TypeError]. *)
Lemma prop_throw_truthy (v : value) (k : string) :
  truthy (prop v k) = true -> prop_throw v k = Some (prop v k).
Proof. destruct v; simpl; intros E; try discriminate E; reflexivity. Qed.

(** What a ticket query does to the world: one read is logged. *)
Lemma Ticket_findOne_run (key : TicketKey) (eventId : option value)
    (k : ObjectId + string) (e : option ObjectId) (w : World) :
  cast_key key = Some k -> cast_event eventId = Some e ->
  Ticket_findOne key eventId w
  = (log_db (Read Tickets) w, Ok (List.find (ticket_matches k e) (tickets w))).
Proof.
  intros Hk He. unfold Ticket_findOne, bind. now rewrite Hk, He.
Qed.

Lemma Ticket_findOne_inv (key : TicketKey) (eventId : option value)
    (w w' : World) (found : option Ticket.t) :
  Ticket_findOne key eventId w = (w', Ok found) ->
  exists k e,
    cast_key key = Some k /\ cast_event eventId = Some e
    /\ w' = log_db (Read Tickets) w
    /\ found = List.find (ticket_matches k e) (tickets w).
Proof.
  unfold Ticket_findOne, bind. intros E.
  destruct (cast_key key) as [k|]; [|discriminate E].
  destruct (cast_event eventId) as [e|]; [|discriminate E].
  simpl in E. injection E as <- <-. now exists k, e.
Qed.

(** The first stretch of a check-in that read the store: which query it
    made. *)
Lemma checkIn_find_inv (body : value) (w w' : World) (found : option Ticket.t) :
  checkIn_find body w = (w', Ok (inr found)) ->
  exists key,
    Ticket_findOne key (event_filter (prop body "eventId")) w = (w', Ok found)
    /\ forall w0,
        checkIn_find body w0
        = match Ticket_findOne key (event_filter (prop body "eventId")) w0 with
          | (w1, Ok f) => (w1, Ok (inr f))
          | (w1, Thrown) => (w1, Thrown)
          end.
Proof.
  unfold checkIn_find, bind. intros E.
  destruct (prop_throw body "ticketId"); [|discriminate E].
  simpl in E |- *.
  destruct (negb (truthy (prop body "ticketId"))
            && negb (truthy (prop body "invoiceNo"))); [discriminate E|].
  destruct (truthy (prop body "ticketId")).
  - destruct (negb (ObjectId_isValid (prop body "ticketId"))); [discriminate E|].
    exists (ById (prop body "ticketId")).
    destruct (Ticket_findOne _ _ w) as [w1 [f|]]; [|discriminate E].
    injection E as <- <-. split; [reflexivity|]. intros w0.
    now destruct (Ticket_findOne _ _ w0) as [? [?|]].
  - exists (ByInvoiceNo (prop body "invoiceNo")).
    destruct (Ticket_findOne _ _ w) as [w1 [f|]]; [|discriminate E].
    injection E as <- <-. split; [reflexivity|]. intros w0.
    now destruct (Ticket_findOne _ _ w0) as [? [?|]].
Qed.

(** C10: a ticket id that is present but not a valid object id is
    answered with 400 "Invalid ticket ID format", a validation failure
    distinct from the 404 of a ticket that was not found; the world is
    left exactly as it was, so no call reached the store. *)
Theorem checkIn_invalid_ticketId (now : N) (body : value) (w : World) :
  truthy (prop body "ticketId") = true ->
  ObjectId_isValid (prop body "ticketId") = false ->
  checkIn now body w = (w, failure 400 "Invalid ticket ID format")
  /\ db_log (fst (checkIn now body w)) = db_log w
  /\ status (snd (checkIn now body w)) <> 404.
Proof.
  intros Hid Hvalid.
  assert (E : checkIn now body w = (w, failure 400 "Invalid ticket ID format")).
  { unfold checkIn, handler, bind, checkIn_find, bind.
    rewrite (prop_throw_truthy _ _ Hid). simpl.
    now rewrite Hid, Hvalid. }
  rewrite E. simpl. repeat split. discriminate.
Qed.

End HandlerFacts.

Section Effects.
Variable R : World -> World -> Prop.
Hypothesis R_refl : forall w, R w w.
Hypothesis R_trans : forall a b c, R a b -> R b c -> R a c.

Lemma effect_ret {A} (a : A) : effect R (ret a).
Proof. intros w w' r E. injection E as <- _. apply R_refl. Qed.

Lemma effect_throw {A} : effect R (@throw A).
Proof. intros w w' r E. injection E as <- _. apply R_refl. Qed.

Lemma effect_or_throw {A} (o : option A) : effect R (or_throw o).
Proof. destruct o; [apply effect_ret | apply effect_throw]. Qed.

Lemma effect_gets {A} (f : World -> A) : effect R (gets f).
Proof. intros w w' r E. injection E as <- _. apply R_refl. Qed.

Lemma effect_modify (f : World -> World) :
  (forall w, R w (f w)) -> effect R (modify f).
Proof. intros Hf w w' r E. injection E as <- _. apply Hf. Qed.

Lemma effect_bind {A B} (m : M A) (k : A -> M B) :
  effect R m -> (forall a, effect R (k a)) -> effect R (bind m k).
Proof.
  intros Hm Hk w w' r E. unfold bind in E.
  destruct (m w) as [w1 [a|]] eqn:Em.
  - eapply R_trans; [eapply Hm, Em | eapply Hk, E].
  - injection E as <- _. eapply Hm, Em.
Qed.

Lemma effect_handler (msg : string) (body : M Response) (w : World) :
  effect R body -> R w (fst (handler msg body w)).
Proof.
  intros Hb. unfold handler.
  destruct (body w) as [w' [r|]] eqn:E; simpl; eapply Hb, E.
Qed.

End Effects.

Ltac effect_step :=
  first
    [ apply effect_ret; assumption
    | apply effect_throw; assumption
    | apply effect_or_throw; assumption
    | apply effect_gets; assumption
    | apply effect_bind; [assumption | | intros ?]
    | apply effect_modify; intros ? ].

Ltac effect_cases :=
  repeat first
    [ effect_step
    | match goal with
      | |- effect _ (if ?c then _ else _) => destruct c
      | |- effect _ (match ?x with _ => _ end) => destruct x
      | |- effect _ (let '(_, _) := ?x in _) => destruct x
      end ].

Section StoreEffects.
Context `{Builtins} `{Services}.

Lemma same_data_refl (w : World) : same_data w w.
Proof. now repeat split. Qed.

Lemma same_data_trans (a b c : World) :
  same_data a b -> same_data b c -> same_data a c.
Proof. unfold same_data. intros (-> & -> & ->) (-> & -> & ->). now repeat split. Qed.

Lemma checkedIn_kept_refl (l : list Ticket.t) : checkedIn_kept l l.
Proof. intros i t Hi Ht. now exists t. Qed.

Lemma checkedIn_kept_trans (a b c : list Ticket.t) :
  checkedIn_kept a b -> checkedIn_kept b c -> checkedIn_kept a c.
Proof.
  intros Hab Hbc i t Hi Ht.
  destruct (Hab i t Hi Ht) as (t1 & Hi1 & Hid1 & Ht1).
  destruct (Hbc i t1 Hi1 Ht1) as (t2 & Hi2 & Hid2 & Ht2).
  exists t2. repeat split; congruence.
Qed.

Lemma checkedIn_kept_app (l : list Ticket.t) (t : Ticket.t) :
  checkedIn_kept l (l ++ [t]).
Proof.
  intros i x Hi Hx. exists x. repeat split; try assumption.
  now apply lookup_app_l_Some.
Qed.

Lemma checkedIn_kept_mark (now : N) (id : ObjectId) (l : list Ticket.t) :
  checkedIn_kept l
    (map (fun t => if N.eqb (Ticket._id t) id then mark_checkedIn now t else t) l).
Proof.
  intros i x Hi Hx.
  exists (if N.eqb (Ticket._id x) id then mark_checkedIn now x else x).
  split; [|destruct (N.eqb (Ticket._id x) id); now split].
  change (map ?f l) with (f <$> l). now rewrite list_lookup_fmap, Hi.
Qed.

Lemma keeps_checkedIn_refl (w : World) : keeps_checkedIn w w.
Proof. apply checkedIn_kept_refl. Qed.

Lemma keeps_checkedIn_trans (a b c : World) :
  keeps_checkedIn a b -> keeps_checkedIn b c -> keeps_checkedIn a c.
Proof. apply checkedIn_kept_trans. Qed.

Lemma same_data_keeps (w w' : World) : same_data w w' -> keeps_checkedIn w w'.
Proof. intros (E & _). unfold keeps_checkedIn. rewrite E. apply checkedIn_kept_refl. Qed.

Lemma effect_weaken {A} (R R' : World -> World -> Prop) (m : M A) :
  (forall w w', R w w' -> R' w w') -> effect R m -> effect R' m.
Proof. intros HR Hm w w' r E. eapply HR, Hm, E. Qed.

Lemma same_data_log (c : DbCall) (w : World) : same_data w (log_db c w).
Proof. now repeat split. Qed.

Lemma Event_findOne_same (formId : value) : effect same_data (Event_findOne formId).
Proof.
  pose proof same_data_refl. pose proof same_data_trans.
  unfold Event_findOne. effect_cases. apply same_data_log.
Qed.

Lemma Event_create_same (formId title : value) (a b : N) :
  effect same_data (Event_create formId title a b).
Proof.
  pose proof same_data_refl. pose proof same_data_trans.
  unfold Event_create. effect_cases. now repeat split.
Qed.

Lemma User_findOne_same (email : value) : effect same_data (User_findOne email).
Proof.
  pose proof same_data_refl. pose proof same_data_trans.
  unfold User_findOne. effect_cases. apply same_data_log.
Qed.

Lemma User_create_same (email : value) (passwordHash : string) :
  effect same_data (User_create email passwordHash).
Proof.
  pose proof same_data_refl. pose proof same_data_trans.
  unfold User_create. effect_cases. now repeat split.
Qed.

Lemma findOrCreateUser_same (s : ParsedSubmission) :
  effect same_data (findOrCreateUser s).
Proof.
  pose proof same_data_refl. pose proof same_data_trans.
  unfold findOrCreateUser.
  apply effect_bind; [assumption | apply User_findOne_same | intros fu].
  destruct fu; [now apply effect_ret|].
  apply effect_bind; [assumption | now apply effect_gets | intros id].
  apply effect_bind; [assumption | now apply effect_or_throw | intros h].
  apply User_create_same.
Qed.

Lemma Ticket_findOne_same (key : TicketKey) (eventId : option value) :
  effect same_data (Ticket_findOne key eventId).
Proof.
  pose proof same_data_refl. pose proof same_data_trans.
  unfold Ticket_findOne. effect_cases. apply same_data_log.
Qed.

(** Searching and looking up leave the tickets and the side-effect logs
    as they are. *)
Lemma searchGuests_same (query : value) (w : World) :
  same_data w (fst (searchGuests query w)).
Proof.
  pose proof same_data_refl. pose proof same_data_trans.
  unfold searchGuests. apply effect_handler; try assumption.
  effect_cases. apply same_data_log.
Qed.

Lemma lookupTicket_same (body : value) (w : World) :
  same_data w (fst (lookupTicket body w)).
Proof.
  pose proof same_data_refl. pose proof same_data_trans.
  unfold lookupTicket. apply effect_handler; try assumption.
  effect_cases; apply same_data_log.
Qed.

Lemma checkIn_keeps (now : N) (body : value) (w : World) :
  keeps_checkedIn w (fst (checkIn now body w)).
Proof.
  pose proof keeps_checkedIn_refl. pose proof keeps_checkedIn_trans.
  unfold checkIn. apply effect_handler; try assumption.
  apply effect_bind; try assumption.
  - unfold checkIn_find. effect_cases; apply same_data_keeps, same_data_log.
  - intros [response|found]; [now apply effect_ret|].
    unfold checkIn_save, Ticket_save_checkIn. effect_cases.
    apply checkedIn_kept_mark.
Qed.

Lemma processSubmission_keeps (now : N) (s : ParsedSubmission) :
  effect keeps_checkedIn (processSubmission now s).
Proof.
  pose proof keeps_checkedIn_refl. pose proof keeps_checkedIn_trans.
  assert (Hw : forall A (m : M A), effect same_data m -> effect keeps_checkedIn m)
    by (intros A m; apply effect_weaken, same_data_keeps).
  unfold processSubmission.
  apply effect_bind; [assumption | | intros ev].
  { unfold findOrCreateEvent.
    apply effect_bind; [assumption | apply Hw, Event_findOne_same | intros fe].
    destruct fe; [now apply effect_ret | apply Hw, Event_create_same]. }
  apply effect_bind; [assumption | | intros us].
  { apply Hw, findOrCreateUser_same. }
  apply effect_bind; [assumption | | intros tk; now apply effect_ret].
  unfold findOrCreateTicket.
  apply effect_bind; [assumption | apply Hw, Ticket_findOne_same | intros ft].
  destruct ft; [now apply effect_ret|].
  unfold Ticket_create, call_generateQrCode, call_sendTicketEmail.
  effect_cases.
  - apply checkedIn_kept_app.
  - apply checkedIn_kept_refl.
  - apply checkedIn_kept_refl.
Qed.

Lemma webhookHandler_keeps (now : N) (body : value) (w : World) :
  keeps_checkedIn w (fst (webhookHandler now body w)).
Proof.
  pose proof keeps_checkedIn_refl. pose proof keeps_checkedIn_trans.
  unfold webhookHandler. apply effect_handler; try assumption.
  apply effect_bind; [assumption | now apply effect_or_throw | intros s].
  destruct (_ || _); [now apply effect_ret | apply processSubmission_keeps].
Qed.

End StoreEffects.

(** ** Check-in *)

Section CheckInFacts.
Context `{Builtins} `{Services}.

Lemma find_map_invariant {A} (p : A -> bool) (f : A -> A) (l : list A) :
  (forall x, p (f x) = p x) ->
  List.find p (map f l) = option_map f (List.find p l).
Proof.
  intros Hp. induction l as [|x l IH]; [reflexivity|].
  simpl. rewrite Hp. now destruct (p x).
Qed.

(** A check-in is its two stretches run back to back. *)
Lemma checkIn_as_steps (now : N) (body : value) (w : World) :
  (let '(w1, t1) := step now (Start body) w in step now t1 w1)
  = (fst (checkIn now body w), Done (snd (checkIn now body w))).
Proof.
  unfold checkIn, handler, bind, step.
  destruct (checkIn_find body w) as [w1 [[response|found]|]]; try reflexivity.
  now destruct (checkIn_save now body found w1) as [w2 [response|]].
Qed.

(** The second stretch on a ticket that is already checked in. *)
Lemma checkIn_refused (now : N) (body : value) (w w1 : World) (ticket : Ticket.t) :
  checkIn_find body w = (w1, Ok (inr (Some ticket))) ->
  Ticket.checkedIn ticket = true ->
  checkIn now body w = (w1, failure 400 (alreadyCheckedInMessage ticket)).
Proof.
  intros Hfind Hin. unfold checkIn, handler, bind. rewrite Hfind. simpl.
  now rewrite Hin.
Qed.

(** C2: a check-in that resolves to a ticket already checked in answers
    with the conflict message, which names the holder and the time of the
    original check-in, and writes nothing: the tickets are as before.
    And no request of the core takes a checked-in ticket back: after any
    request each ticket that was checked in is still in its place,
    checked in. *)
Theorem checkIn_already_checked_in :
  (forall (now : N) (body : value) (w w1 : World) (ticket : Ticket.t),
      checkIn_find body w = (w1, Ok (inr (Some ticket))) ->
      Ticket.checkedIn ticket = true ->
      checkIn now body w = (w1, failure 400 (alreadyCheckedInMessage ticket))
      /\ In ticket (tickets w)
      /\ tickets w1 = tickets w
      /\ (forall d, Ticket.checkInTime ticket = Some d ->
            alreadyCheckedInMessage ticket
            = Ticket.name ticket +:+ " has already been checked in at "
              +:+ toLocaleString d))
  /\ (forall (now : N) (r : Request) (w : World),
         checkedIn_kept (tickets w) (tickets (fst (serve now r w)))).
Proof.
  split.
  - intros now body w w1 ticket Hfind Hin.
    split; [|split; [|split]].
    + now apply checkIn_refused.
    + apply checkIn_find_inv in Hfind as (key & Hfind & _).
      apply Ticket_findOne_inv in Hfind as (k & e & _ & _ & _ & Hfound).
      symmetry in Hfound. now apply List.find_some in Hfound.
    + apply checkIn_find_inv in Hfind as (key & Hfind & _).
      now apply Ticket_findOne_inv in Hfind as (k & e & _ & _ & -> & _).
    + intros d Hd. unfold alreadyCheckedInMessage. now rewrite Hd.
  - intros now [body|query|body|body] w; simpl.
    + apply webhookHandler_keeps.
    + apply same_data_keeps, searchGuests_same.
    + apply checkIn_keeps.
    + apply same_data_keeps, lookupTicket_same.
Qed.

(** The document a query resolves to depends on the tickets alone. *)
Lemma checkIn_find_stable (body : value) (w wx : World) (found : option Ticket.t) :
  checkIn_find body w = (wx, Ok (inr found)) ->
  exists k e,
    found = List.find (ticket_matches k e) (tickets w)
    /\ forall w',
        checkIn_find body w'
        = (log_db (Read Tickets) w',
           Ok (inr (List.find (ticket_matches k e) (tickets w')))).
Proof.
  intros Hfind. apply checkIn_find_inv in Hfind as (key & Hfind & Hany).
  apply Ticket_findOne_inv in Hfind as (k & e & Hk & He & _ & Hfound).
  exists k, e. split; [exact Hfound|]. intros w'.
  now rewrite Hany, (Ticket_findOne_run _ _ k e).
Qed.

(** Once the ticket is marked, every attempt that resolved to it is
    refused, and refusing writes nothing. *)
Lemma checkIn_each_refused (now1 : N) (ticket : Ticket.t) (w : World)
    (later : list (N * value)) :
  Forall (fun attempt : N * value =>
            exists wb, checkIn_find (snd attempt) w = (wb, Ok (inr (Some ticket))))
         later ->
  forall w',
    tickets w' = map (fun t => if N.eqb (Ticket._id t) (Ticket._id ticket)
                               then mark_checkedIn now1 t else t) (tickets w) ->
    Forall (fun response =>
              response = failure 400 (alreadyCheckedInMessage
                                        (mark_checkedIn now1 ticket)))
           (snd (checkIn_each later w'))
    /\ tickets (fst (checkIn_each later w')) = tickets w'.
Proof.
  induction 1 as [|[now body] rest (wb & Hfind) _ IH]; intros w' Hw'.
  - split; [constructor | reflexivity].
  - apply checkIn_find_stable in Hfind as (k & e & Hfound & Hany).
    assert (Hfind' : checkIn_find body w'
                     = (log_db (Read Tickets) w',
                        Ok (inr (Some (mark_checkedIn now1 ticket))))).
    { rewrite Hany, Hw', find_map_invariant.
      - rewrite <- Hfound. simpl. now rewrite N.eqb_refl.
      - intros x. now destruct (N.eqb (Ticket._id x) (Ticket._id ticket)). }
    simpl. rewrite (checkIn_refused now body w' _ _ Hfind' eq_refl).
    destruct (IH (log_db (Read Tickets) w') Hw') as (Hall & Htickets).
    destruct (checkIn_each rest (log_db (Read Tickets) w')) as [w2 responses].
    simpl in *. split; [now constructor | exact Htickets].
Qed.

(** C3 (as amended): [checkIn] reads the ticket and then saves it; the
    store is given no condition.  When the attempts on a ticket run one
    after the other, the first one succeeds with its own time as
    [checkInTime] and every later one is refused with the message that
    names that time, writing nothing.  Each check-in is the two stretches
    of [step], the read and the save, which is where other requests can
    run in between. *)
Theorem checkIn_serial_attempts (now1 : N) (body1 : value)
    (later : list (N * value)) (w wa : World) (ticket : Ticket.t) :
  checkIn_find body1 w = (wa, Ok (inr (Some ticket))) ->
  Ticket.checkedIn ticket = false ->
  Forall (fun attempt : N * value =>
            exists wb, checkIn_find (snd attempt) w = (wb, Ok (inr (Some ticket))))
         later ->
  let w1 := fst (checkIn now1 body1 w) in
  snd (checkIn now1 body1 w)
  = {| status := 200; success := true;
       message := Some ("Welcome " +:+ Ticket.name ticket +:+ "! Check-in successful.");
       data := TicketData (mark_checkedIn now1 ticket) |}
  /\ Forall (fun response =>
               response
               = failure 400 (Ticket.name ticket +:+ " has already been checked in at "
                              +:+ toLocaleString now1))
            (snd (checkIn_each later w1))
  /\ tickets (fst (checkIn_each later w1)) = tickets w1
  /\ (forall now body w0,
         (let '(w', t) := step now (Start body) w0 in step now t w')
         = (fst (checkIn now body w0), Done (snd (checkIn now body w0)))).
Proof.
  intros Hfind1 Hnot Hlater w1.
  assert (E1 : checkIn now1 body1 w
               = (log_db (Write Tickets (Ticket._id ticket))
                    {| events := events wa; users := users wa;
                       tickets := map (fun t => if N.eqb (Ticket._id t) (Ticket._id ticket)
                                                then mark_checkedIn now1 t else t)
                                      (tickets wa);
                       next_id := next_id wa; db_log := db_log wa;
                       qr_log := qr_log wa; mail_log := mail_log wa |},
                  {| status := 200; success := true;
                     message := Some ("Welcome " +:+ Ticket.name ticket
                                      +:+ "! Check-in successful.");
                     data := TicketData (mark_checkedIn now1 ticket) |})).
  { unfold checkIn, handler, bind. rewrite Hfind1. simpl. now rewrite Hnot. }
  assert (Hwa : tickets wa = tickets w).
  { apply checkIn_find_inv in Hfind1 as (key & Hfind1 & _).
    now apply Ticket_findOne_inv in Hfind1 as (k & e & _ & _ & -> & _). }
  assert (Hw1 : tickets w1
                = map (fun t => if N.eqb (Ticket._id t) (Ticket._id ticket)
                                then mark_checkedIn now1 t else t) (tickets w)).
  { subst w1. rewrite E1. simpl. now rewrite Hwa. }
  split; [now rewrite E1|].
  destruct (checkIn_each_refused now1 ticket w later Hlater w1 Hw1)
    as (Hall & Htickets).
  split; [exact Hall|]. split; [exact Htickets|].
  apply checkIn_as_steps.
Qed.

End CheckInFacts.

(** An instance of C10: a scan that carries a malformed ticket id. *)
Lemma checkIn_invalid_ticketId_witness :
  let body := obj {[ "ticketId" := VStr "not-an-id" ]} in
  truthy (prop body "ticketId") = true
  /\ ObjectId_isValid (Services := Reference.services) (prop body "ticketId") = false
  /\ checkIn (H := Reference.builtins) (H0 := Reference.services) 5000 body
       world_with_jane
     = (world_with_jane, failure 400 "Invalid ticket ID format").
Proof.
  cbv zeta.
  split; [vm_compute; reflexivity|]. split; [vm_compute; reflexivity|].
  apply (@checkIn_invalid_ticketId Reference.builtins Reference.services);
    vm_compute; reflexivity.
Defined.

(** An instance of C2: the second scan of Jane's
    code. *)
Lemma checkIn_already_checked_in_witness :
  checkIn_find (H0 := Reference.services) scan_jane world_jane_checked_in
  = (log_db (Read Tickets) world_jane_checked_in,
     Ok (inr (Some (mark_checkedIn 6000%N jane_ticket))))
  /\ Ticket.checkedIn (mark_checkedIn 6000%N jane_ticket) = true
  /\ checkIn (H := Reference.builtins) (H0 := Reference.services) 9000 scan_jane
       world_jane_checked_in
     = (log_db (Read Tickets) world_jane_checked_in,
        failure 400 "Jane Doe has already been checked in at instant 6000").
Proof.
  assert (Hfind :
    checkIn_find (H0 := Reference.services) scan_jane world_jane_checked_in
    = (log_db (Read Tickets) world_jane_checked_in,
       Ok (inr (Some (mark_checkedIn 6000%N jane_ticket)))))
    by (vm_compute; reflexivity).
  split; [exact Hfind|]. split; [reflexivity|].
  exact (proj1 (proj1 (@checkIn_already_checked_in Reference.builtins
                         Reference.services)
                  9000%N scan_jane world_jane_checked_in _ _ Hfind eq_refl)).
Defined.

(** An instance of C3 as amended: three scans of Jane's code, at 6000,
    at 9000 and at 9500, one after the other. *)
Lemma checkIn_serial_attempts_witness :
  checkIn_find (H0 := Reference.services) scan_jane world_with_jane
  = (log_db (Read Tickets) world_with_jane, Ok (inr (Some jane_ticket)))
  /\ Ticket.checkedIn jane_ticket = false
  /\ Forall (fun response =>
               response
               = failure 400 "Jane Doe has already been checked in at instant 6000")
            (snd (checkIn_each (H := Reference.builtins) (H0 := Reference.services)
                    [(9000%N, scan_jane); (9500%N, scan_jane)]
                    world_jane_checked_in)).
Proof.
  assert (Hfind :
    checkIn_find (H0 := Reference.services) scan_jane world_with_jane
    = (log_db (Read Tickets) world_with_jane, Ok (inr (Some jane_ticket))))
    by (vm_compute; reflexivity).
  split; [exact Hfind|]. split; [reflexivity|].
  refine (proj1 (proj2 (@checkIn_serial_attempts Reference.builtins
                          Reference.services 6000%N scan_jane
                          [(9000%N, scan_jane); (9500%N, scan_jane)]
                          world_with_jane _ jane_ticket Hfind eq_refl _))).
  repeat constructor; exists (log_db (Read Tickets) world_with_jane); exact Hfind.
Defined.

(** C3 (as stated) fails: two scans of Jane's code in flight together.
    Both read the ticket (turns 1 and 2) before either saves (turns 3 and
    4): both are answered 200 with a time of their own, none is refused,
    and the store keeps the later time. *)
Lemma concurrent_checkIn_both_succeed :
  let '(w, (a, b)) :=
    run2 (H := Reference.builtins) (H0 := Reference.services)
      [(true, 5000%N); (false, 5001%N); (true, 6000%N); (false, 7000%N)]
      (Start scan_jane) (Start scan_jane) world_with_jane in
  a = Done {| status := 200; success := true;
              message := Some "Welcome Jane Doe! Check-in successful.";
              data := TicketData (mark_checkedIn 6000%N jane_ticket) |}
  /\ b = Done {| status := 200; success := true;
                 message := Some "Welcome Jane Doe! Check-in successful.";
                 data := TicketData (mark_checkedIn 7000%N jane_ticket) |}
  /\ tickets w = [mark_checkedIn 7000%N jane_ticket].
Proof. vm_compute. repeat split. Qed.

(** ** Searching *)

Section SearchFacts.
Context `{Builtins} `{Services}.

#[local] Instance name_le_total : Total name_le.
Proof. intros a b. unfold name_le. apply String.le_total. Qed.

#[local] Instance name_le_trans : Transitive name_le.
Proof. intros a b c. unfold name_le. apply transitivity. Qed.

Lemma StronglySorted_take {A} (R : A -> A -> Prop) (n : nat) (l : list A) :
  StronglySorted R l -> StronglySorted R (take n l).
Proof.
  intros Hl. rewrite <- (take_drop n l) in Hl.
  now apply StronglySorted_app_1_l in Hl.
Qed.

(** One search that reaches the store. *)
Lemma searchGuests_run (query : value) (w : World) (e : ObjectId)
    (searchRegex : option (string -> bool)) :
  truthy (prop query "eventId") = true ->
  castObjectId (prop query "eventId") = Some e ->
  searchRegex_of (prop query "query") = Some searchRegex ->
  exists found sorted,
    searchGuests query w
    = (log_db (Read Tickets) w,
       {| status := 200; success := true; message := None;
          data := TicketList found |})
    /\ (forall t, In t sorted <->
          In t (tickets w) /\ Ticket.event t = e
          /\ match searchRegex with
             | Some re => re (Ticket.name t) = true \/ re (Ticket.email t) = true
             | None => True
             end)
    /\ (forall t, In t found -> In t sorted)
    /\ StronglySorted name_le found
    /\ (length found <= 50)%nat
    /\ sorted ≡ₚ filter (fun t => search_matches e searchRegex t = true) (tickets w)
    /\ StronglySorted name_le sorted
    /\ found = take 50 sorted.
Proof.
  intros Hid He Hre.
  set (matching := filter (fun t => search_matches e searchRegex t = true) (tickets w)).
  exists (take 50 (merge_sort name_le matching)), (merge_sort name_le matching).
  split; [|split; [|split; [|split; [|split; [|split; [|split]]]]]].
  - unfold searchGuests, handler, bind.
    rewrite (prop_throw_truthy _ _ Hid). simpl or_throw. cbv beta iota.
    rewrite Hid, Hre. simpl.
    unfold Ticket_find_sorted, bind. now rewrite He.
  - intros t. rewrite <- !list_elem_of_In, merge_sort_Permutation.
    unfold matching. rewrite list_elem_of_filter.
    unfold search_matches. rewrite andb_true_iff, N.eqb_eq.
    destruct searchRegex as [re|]; [rewrite orb_true_iff|]; tauto.
  - intros t Hin. apply list_elem_of_In in Hin.
    apply elem_of_take in Hin as (i & Hin & _).
    apply list_elem_of_In. now apply list_elem_of_lookup_2 in Hin.
  - apply StronglySorted_take, StronglySorted_merge_sort; apply _.
  - rewrite length_take. lia.
  - apply merge_sort_Permutation.
  - apply StronglySorted_merge_sort; apply _.
  - reflexivity.
Qed.

(** C9 (as amended): without an event id the search is refused with 400
    "Event ID is required" and nothing is read.  With one, a query that
    is given is converted to a string and taken as the source of a
    case-insensitive regular expression, not as a literal substring: the
    answer holds only tickets of that event whose name or email the
    expression matches (every ticket of the event when no query is
    given), in ascending order of name, at most 50 of them, namely the
    first 50 of the matching tickets in that order.  A query that cannot
    be converted to a string, or that is not a valid expression, ends in
    the 500 response. *)
Theorem searchGuests_matches_regex (query : value) (w : World) :
  (truthy (prop query "eventId") = false -> is_object query = true ->
   searchGuests query w = (w, failure 400 "Event ID is required"))
  /\ (forall e source re,
         truthy (prop query "eventId") = true ->
         castObjectId (prop query "eventId") = Some e ->
         truthy (prop query "query") = true ->
         String_ (prop query "query") = Some source ->
         RegExp_i source = Some re ->
         exists found sorted,
           searchGuests query w
           = (log_db (Read Tickets) w,
              {| status := 200; success := true; message := None;
                 data := TicketList found |})
           /\ (forall t, In t sorted <->
                 In t (tickets w) /\ Ticket.event t = e
                 /\ (re (Ticket.name t) = true \/ re (Ticket.email t) = true))
           /\ (forall t, In t found ->
                 In t (tickets w) /\ Ticket.event t = e
                 /\ (re (Ticket.name t) = true \/ re (Ticket.email t) = true))
           /\ StronglySorted name_le found
           /\ (length found <= 50)%nat
           /\ sorted ≡ₚ filter (fun t => search_matches e (Some re) t = true)
                               (tickets w)
           /\ StronglySorted name_le sorted
           /\ found = take 50 sorted)
  /\ (forall e,
         truthy (prop query "eventId") = true ->
         castObjectId (prop query "eventId") = Some e ->
         truthy (prop query "query") = false ->
         exists found sorted,
           searchGuests query w
           = (log_db (Read Tickets) w,
              {| status := 200; success := true; message := None;
                 data := TicketList found |})
           /\ (forall t, In t sorted <-> In t (tickets w) /\ Ticket.event t = e)
           /\ (forall t, In t found -> In t (tickets w) /\ Ticket.event t = e)
           /\ StronglySorted name_le found
           /\ (length found <= 50)%nat
           /\ StronglySorted name_le sorted
           /\ found = take 50 sorted)
  /\ (truthy (prop query "eventId") = true ->
      truthy (prop query "query") = true ->
      String_ (prop query "query") = None
      \/ (exists source, String_ (prop query "query") = Some source
                         /\ RegExp_i source = None) ->
      searchGuests query w = (w, failure 500 "Error searching guests")).
Proof.
  split; [|split; [|split]].
  - intros Hid Hobj. unfold searchGuests, handler, bind.
    destruct query; try discriminate Hobj; simpl prop_throw; simpl or_throw;
      cbv beta iota; now rewrite Hid.
  - intros e source re Hid He Hq Hsource Hre.
    assert (Hregex : searchRegex_of (prop query "query") = Some (Some re)).
    { unfold searchRegex_of. rewrite Hq, Hsource. cbn [mbind option_bind].
      now rewrite Hre. }
    destruct (searchGuests_run query w e (Some re) Hid He Hregex)
      as (found & sorted & Hrun & Hsorted & Hfound & S1 & L & P & S2 & T).
    exists found, sorted. split; [exact Hrun|]. split; [exact Hsorted|].
    split; [|now repeat split].
    intros t Hin. now apply Hsorted, Hfound.
  - intros e Hid He Hq.
    assert (Hregex : searchRegex_of (prop query "query") = Some None).
    { unfold searchRegex_of. now rewrite Hq. }
    destruct (searchGuests_run query w e None Hid He Hregex)
      as (found & sorted & Hrun & Hsorted & Hfound & S1 & L & P & S2 & T).
    exists found, sorted. split; [exact Hrun|].
    assert (Hs : forall t, In t sorted <-> In t (tickets w) /\ Ticket.event t = e).
    { intros t. rewrite Hsorted. tauto. }
    split; [exact Hs|]. split; [|now repeat split].
    intros t Hin. now apply Hs, Hfound.
  - intros Hid Hq Hfail.
    assert (Hregex : searchRegex_of (prop query "query") = None).
    { unfold searchRegex_of. rewrite Hq.
      destruct Hfail as [-> | (source & -> & Hre)]; [reflexivity|].
      cbn [mbind option_bind]. now rewrite Hre. }
    unfold searchGuests, handler, bind.
    rewrite (prop_throw_truthy _ _ Hid). simpl or_throw. cbv beta iota.
    now rewrite Hid, Hregex.
Qed.

End SearchFacts.

(** C9 (as stated) fails: Jane's name and email do not contain the text
    "j.ne", yet a search for it returns her ticket, because the dot of the
    expression stands for any character. *)
Lemma searchGuests_query_is_a_pattern :
  let query :=
    obj {[ "eventId" := VStr "000000000000000000000001"; "query" := VStr "j.ne" ]} in
  snd (searchGuests (H := Reference.builtins) (H0 := Reference.services) query
         world_with_jane)
  = {| status := 200; success := true; message := None;
       data := TicketList [jane_ticket] |}
  /\ spec_contains_ci "j.ne" (Ticket.name jane_ticket) = false
  /\ spec_contains_ci "j.ne" (Ticket.email jane_ticket) = false.
Proof. cbv zeta. repeat split; vm_compute; reflexivity. Qed.

(** An instance of C9 as amended: a search without an event id, the
    search for "jane" in the event of Jane's ticket, a search whose query
    is not a valid expression and one whose query cannot be converted to a
    string. *)
Lemma searchGuests_matches_regex_witness :
  let query :=
    obj {[ "eventId" := VStr "000000000000000000000001"; "query" := VStr "jane" ]} in
  let invalid :=
    obj {[ "eventId" := VStr "000000000000000000000001"; "query" := VStr "(" ]} in
  let unconvertible :=
    obj {[ "eventId" := VStr "000000000000000000000001";
           "query" := obj {[ "toString" := VStr "x" ]} ]} in
  let search := searchGuests (H := Reference.builtins) (H0 := Reference.services) in
  search (obj ∅) world_with_jane
  = (world_with_jane, failure 400 "Event ID is required")
  /\ (exists found sorted,
       search query world_with_jane
       = (log_db (Read Tickets) world_with_jane,
          {| status := 200; success := true; message := None;
             data := TicketList found |})
       /\ (forall t, In t found ->
             In t (tickets world_with_jane) /\ Ticket.event t = 1%N
             /\ (Reference.matches_somewhere "jane" (Ticket.name t) = true
                 \/ Reference.matches_somewhere "jane" (Ticket.email t) = true))
       /\ StronglySorted name_le found
       /\ (length found <= 50)%nat
       /\ found = take 50 sorted)
  /\ search invalid world_with_jane
     = (world_with_jane, failure 500 "Error searching guests")
  /\ search unconvertible world_with_jane
     = (world_with_jane, failure 500 "Error searching guests").
Proof.
  cbv zeta.
  split; [|split; [|split]].
  - apply (proj1 (@searchGuests_matches_regex Reference.builtins
                    Reference.services (obj ∅) world_with_jane));
      vm_compute; reflexivity.
  - destruct (proj1 (proj2 (@searchGuests_matches_regex Reference.builtins
                              Reference.services
                              (obj {[ "eventId" := VStr "000000000000000000000001";
                                      "query" := VStr "jane" ]})
                              world_with_jane))
                1%N "jane" (Reference.matches_somewhere "jane"))
      as (found & sorted & Hrun & _ & Hfound & S1 & L & _ & _ & T);
      try (vm_compute; reflexivity).
    exists found, sorted.
    split; [exact Hrun|]. split; [exact Hfound|]. split; [exact S1|].
    split; [exact L | exact T].
  - apply (proj2 (proj2 (proj2 (@searchGuests_matches_regex Reference.builtins
                           Reference.services _ world_with_jane))));
      [vm_compute; reflexivity | vm_compute; reflexivity |].
    right. exists "(". split; vm_compute; reflexivity.
  - apply (proj2 (proj2 (proj2 (@searchGuests_matches_regex Reference.builtins
                           Reference.services _ world_with_jane))));
      [vm_compute; reflexivity | vm_compute; reflexivity |].
    left. vm_compute; reflexivity.
Defined.

(** ** Processing a submission *)

Section SubmissionFacts.
Context `{Builtins} `{Services}.

Lemma findOrCreateEvent_ok (now : N) (s : ParsedSubmission) (f : string) (w : World) :
  castString (formId s) = Some f ->
  exists w1 ev,
    findOrCreateEvent now s w = (w1, Ok ev) /\ same_data w w1
    /\ users w1 = users w /\ next_id w1 = next_id_after_event f w.
Proof.
  intros Hf.
  unfold findOrCreateEvent, bind, Event_findOne, Event_create, bind,
    next_id_after_event.
  rewrite Hf. simpl.
  destruct (List.find _ (events w)) as [ev|]; simpl.
  - eexists _, ev. split; [reflexivity | now repeat split].
  - eexists _, _. split; [reflexivity | now repeat split].
Qed.

(** The block "Find or create the user": it returns the stored user, or
    the new one when [bcrypt] gives a hash, and throws otherwise. *)
Lemma findOrCreateUser_run (s : ParsedSubmission) (m : string) (w : World) :
  castString (email s) = Some m ->
  same_data w (fst (findOrCreateUser s w))
  /\ match List.find (fun u => String.eqb (User.email u) m) (users w) with
     | Some u => snd (findOrCreateUser s w) = Ok u
     | None =>
         match bcrypt_hash (next_id w) with
         | Some h => exists us, snd (findOrCreateUser s w) = Ok us
         | None => snd (findOrCreateUser s w) = Thrown
         end
     end.
Proof.
  intros Hm. split.
  - exact (findOrCreateUser_same s w _ _ (surjective_pairing _)).
  - unfold findOrCreateUser, bind, User_findOne, User_create, bind.
    rewrite Hm. simpl.
    destruct (List.find _ (users w)) as [us|]; simpl; [reflexivity|].
    destruct (bcrypt_hash (next_id w)) as [h|]; simpl; [|reflexivity].
    eexists. reflexivity.
Qed.

(** The idempotency check: an existing ticket is returned after one read. *)
Lemma findOrCreateTicket_found (s : ParsedSubmission) (us : User.t) (ev : Event.t)
    (inv : string) (t : Ticket.t) (w : World) :
  castString (invoiceNo s) = Some inv ->
  stored_ticket inv w = Some t ->
  findOrCreateTicket s us ev w = (log_db (Read Tickets) w, Ok t).
Proof.
  intros Hinv Ht. unfold findOrCreateTicket, bind.
  rewrite (Ticket_findOne_run _ _ (inr inv) None);
    [| simpl; now rewrite Hinv | reflexivity].
  unfold stored_ticket in Ht. now rewrite Ht.
Qed.

(** Past that check: exactly one ticket is appended, whatever becomes of
    the QR code and of the email, and the mailer is called at most once. *)
Lemma findOrCreateTicket_new (s : ParsedSubmission) (us : User.t) (ev : Event.t)
    (inv m : string) (w : World) :
  castString (invoiceNo s) = Some inv ->
  castString (email s) = Some m ->
  stored_ticket inv w = None ->
  exists t,
    tickets (fst (findOrCreateTicket s us ev w)) = tickets w ++ [t]
    /\ Ticket.invoiceNo t = inv
    /\ (length (mail_log (fst (findOrCreateTicket s us ev w)))
        <= length (mail_log w) + 1)%nat
    /\ (snd (findOrCreateTicket s us ev w) = Ok t
        \/ snd (findOrCreateTicket s us ev w) = Thrown).
Proof.
  intros Hinv Hm Hnone. unfold findOrCreateTicket, bind.
  rewrite (Ticket_findOne_run _ _ (inr inv) None);
    [| simpl; now rewrite Hinv | reflexivity].
  unfold stored_ticket in Hnone. rewrite Hnone.
  unfold Ticket_create, call_generateQrCode, call_sendTicketEmail, bind.
  rewrite Hinv, Hm. simpl.
  eexists. 
  destruct (generateQrCode (invoiceNo s)) as [qr|]; simpl.
  - destruct (sendTicketEmail _); simpl;
      (split; [reflexivity|]); (split; [reflexivity|]);
      rewrite ?length_app; simpl; (split; [lia | tauto]).
  - split; [reflexivity|]. split; [reflexivity|]. split; [lia | tauto].
Qed.

Lemma stored_ticket_same (inv : string) (w w' : World) :
  same_data w w' -> stored_ticket inv w' = stored_ticket inv w.
Proof. intros (E & _). unfold stored_ticket. now rewrite E. Qed.

Lemma with_invoiceNo_none (inv : string) (l : list Ticket.t) :
  List.find (ticket_matches (inr inv) None) l = None -> with_invoiceNo inv l = [].
Proof.
  induction l as [|x l IH]; [reflexivity|]. simpl.
  unfold ticket_matches at 1. rewrite andb_true_r.
  destruct (String.eqb (Ticket.invoiceNo x) inv); [discriminate | exact IH].
Qed.

Lemma with_invoiceNo_some (inv : string) (l : list Ticket.t) (t : Ticket.t) :
  List.find (ticket_matches (inr inv) None) l = Some t ->
  (1 <= length (with_invoiceNo inv l))%nat.
Proof.
  induction l as [|x l IH]; [discriminate|]. simpl.
  unfold ticket_matches at 1. rewrite andb_true_r.
  destruct (String.eqb (Ticket.invoiceNo x) inv); simpl; [lia | exact IH].
Qed.

Lemma with_invoiceNo_app (inv : string) (l : list Ticket.t) (t : Ticket.t) :
  Ticket.invoiceNo t = inv ->
  with_invoiceNo inv (l ++ [t]) = with_invoiceNo inv l ++ [t].
Proof.
  intros <-. unfold with_invoiceNo. rewrite List.filter_app. simpl.
  now rewrite String.eqb_refl.
Qed.

Lemma stored_ticket_app (inv : string) (w w' : World) (t : Ticket.t) :
  tickets w' = tickets w ++ [t] -> Ticket.invoiceNo t = inv ->
  stored_ticket inv w = None -> stored_ticket inv w' = Some t.
Proof.
  unfold stored_ticket. intros -> <- Hnone.
  induction (tickets w) as [|x l IH]; simpl in *.
  - unfold ticket_matches. now rewrite String.eqb_refl.
  - destruct (ticket_matches _ _ x); [discriminate | now apply IH].
Qed.

(** One run of [processSubmission] whose key fields the store accepts. *)
Lemma processSubmission_run (now : N) (s : ParsedSubmission) (f m inv : string)
    (w : World) :
  castString (formId s) = Some f ->
  castString (email s) = Some m ->
  castString (invoiceNo s) = Some inv ->
  let w' := fst (processSubmission now s w) in
  if user_available f m w then
    match stored_ticket inv w with
    | Some t =>
        same_data w w'
        /\ snd (processSubmission now s w)
           = Ok {| status := 200; success := true;
                   message := Some "Webhook processed successfully";
                   data := TicketId (Ticket._id t) |}
    | None =>
        exists t, tickets w' = tickets w ++ [t] /\ Ticket.invoiceNo t = inv
                  /\ (length (mail_log w') <= length (mail_log w) + 1)%nat
    end
  else same_data w w' /\ snd (processSubmission now s w) = Thrown.
Proof.
  intros Hf Hm Hinv w'. subst w'. unfold processSubmission, bind.
  destruct (findOrCreateEvent_ok now s f w Hf) as (w1 & ev & -> & S1 & Eu & En).
  destruct (findOrCreateUser_run s m w1 Hm) as (S2 & Hu).
  rewrite Eu, En in Hu. unfold user_available.
  destruct (findOrCreateUser s w1) as [w2 ru]. cbn [fst snd] in S2, Hu.
  pose proof (same_data_trans _ _ _ S1 S2) as S12.
  set (available := match List.find _ (users w) with
                    | Some _ => true
                    | None => _
                    end).
  assert (Hcase : (available = true /\ exists us, ru = Ok us)
                  \/ (available = false /\ ru = Thrown)).
  { subst available. destruct (List.find _ (users w)) as [u|]; [eauto|].
    destruct (bcrypt_hash (next_id_after_event f w)); [left | right]; auto. }
  destruct Hcase as [(-> & us & ->)|(-> & ->)].
  - rewrite <- (stored_ticket_same inv w w2 S12).
    destruct (stored_ticket inv w2) as [t|] eqn:Et.
    + rewrite (findOrCreateTicket_found s us ev inv t w2 Hinv Et). simpl.
      split; [|reflexivity]. exact S12.
    + destruct (findOrCreateTicket_new s us ev inv m w2 Hinv Hm Et)
        as (t & Ht & Hti & Hmail & Hres).
      exists t. destruct S12 as (Et12 & _ & Em12). rewrite <- Et12, <- Em12.
      destruct (findOrCreateTicket s us ev w2) as [w3 [t'|]]; simpl in *; auto.
  - cbn [fst snd]. split; [exact S12 | reflexivity].
Qed.

Lemma processSubmission_stored (now : N) (s : ParsedSubmission) (f m inv : string)
    (w : World) (t : Ticket.t) :
  castString (formId s) = Some f ->
  castString (email s) = Some m ->
  castString (invoiceNo s) = Some inv ->
  stored_ticket inv w = Some t ->
  same_data w (fst (processSubmission now s w))
  /\ snd (processSubmission now s w)
     = if user_available f m w
       then Ok {| status := 200; success := true;
                  message := Some "Webhook processed successfully";
                  data := TicketId (Ticket._id t) |}
       else Thrown.
Proof.
  intros Hf Hm Hinv Ht.
  pose proof (processSubmission_run now s f m inv w Hf Hm Hinv) as Hrun.
  cbv zeta in Hrun. rewrite Ht in Hrun.
  destruct (user_available f m w); exact Hrun.
Qed.

Lemma processSubmission_fresh (now : N) (s : ParsedSubmission) (f m inv : string)
    (w : World) :
  castString (formId s) = Some f ->
  castString (email s) = Some m ->
  castString (invoiceNo s) = Some inv ->
  stored_ticket inv w = None ->
  let w' := fst (processSubmission now s w) in
  if user_available f m w then
    exists t, tickets w' = tickets w ++ [t] /\ Ticket.invoiceNo t = inv
              /\ (length (mail_log w') <= length (mail_log w) + 1)%nat
  else same_data w w' /\ snd (processSubmission now s w) = Thrown.
Proof.
  intros Hf Hm Hinv Ht.
  pose proof (processSubmission_run now s f m inv w Hf Hm Hinv) as Hrun.
  cbv zeta in Hrun. rewrite Ht in Hrun. exact Hrun.
Qed.

(** C1 at the code: [processSubmission] checks the invoice number after
    the block "Find or create the user", and that block needs [bcrypt] for
    an email that has no user yet.  When the store already holds a ticket
    with the invoice number of the submission, no ticket is created and
    the QR service and the mailer are not called; the id of the stored
    ticket is returned when the user block goes through, and the run ends
    in an exception when it does not.  Two runs with the same invoice
    number never leave more than one ticket with that number (on a store
    that had at most one) and never call the mailer more than once.  They
    leave exactly one ticket when the store held it already or the user
    block of the first run goes through, and then the second run changes
    neither the tickets nor the calls.  When the user block fails in both
    runs and the store held no such ticket, both runs end in an exception
    and no ticket is there. *)
Theorem processSubmission_idempotent :
  (forall (now : N) (s : ParsedSubmission) (f m inv : string) (w : World)
          (t : Ticket.t),
      castString (formId s) = Some f ->
      castString (email s) = Some m ->
      castString (invoiceNo s) = Some inv ->
      stored_ticket inv w = Some t ->
      tickets (fst (processSubmission now s w)) = tickets w
      /\ qr_log (fst (processSubmission now s w)) = qr_log w
      /\ mail_log (fst (processSubmission now s w)) = mail_log w
      /\ snd (processSubmission now s w)
         = if user_available f m w
           then Ok {| status := 200; success := true;
                      message := Some "Webhook processed successfully";
                      data := TicketId (Ticket._id t) |}
           else Thrown)
  /\ (forall (now1 now2 : N) (s1 s2 : ParsedSubmission) (f1 m1 f2 m2 inv : string)
             (w : World),
         castString (formId s1) = Some f1 -> castString (email s1) = Some m1 ->
         castString (formId s2) = Some f2 -> castString (email s2) = Some m2 ->
         castString (invoiceNo s1) = Some inv ->
         castString (invoiceNo s2) = Some inv ->
         (length (with_invoiceNo inv (tickets w)) <= 1)%nat ->
         let w1 := fst (processSubmission now1 s1 w) in
         let w2 := fst (processSubmission now2 s2 w1) in
         (length (with_invoiceNo inv (tickets w2)) <= 1)%nat
         /\ (length (mail_log w2) <= length (mail_log w) + 1)%nat
         /\ (user_available f1 m1 w = true \/ is_Some (stored_ticket inv w) ->
             length (with_invoiceNo inv (tickets w2)) = 1%nat
             /\ tickets w2 = tickets w1
             /\ mail_log w2 = mail_log w1
             /\ qr_log w2 = qr_log w1)
         /\ (user_available f1 m1 w = false ->
             user_available f2 m2 w1 = false ->
             stored_ticket inv w = None ->
             snd (processSubmission now1 s1 w) = Thrown
             /\ snd (processSubmission now2 s2 w1) = Thrown
             /\ tickets w2 = tickets w
             /\ with_invoiceNo inv (tickets w2) = []))
  /\ (forall (now : N) (body : value) (s : ParsedSubmission) (w : World),
         parseWebhook now body = Some s ->
         truthy (email s) = true -> truthy (formId s) = true ->
         truthy (invoiceNo s) = true ->
         webhookHandler now body w
         = handler "Error processing webhook" (processSubmission now s) w).
Proof.
  split; [|split].
  - intros now s f m inv w t Hf Hm Hinv Ht.
    destruct (processSubmission_stored now s f m inv w t Hf Hm Hinv Ht)
      as ((-> & -> & ->) & ->).
    now repeat split.
  - intros now1 now2 s1 s2 f1 m1 f2 m2 inv w Hf1 Hm1 Hf2 Hm2 Hi1 Hi2 Hone w1 w2.
    assert (Hkept : forall t, stored_ticket inv w1 = Some t ->
                              same_data w1 w2).
    { intros t Et.
      exact (proj1 (processSubmission_stored now2 s2 f2 m2 inv w1 t Hf2 Hm2 Hi2 Et)). }
    destruct (stored_ticket inv w) as [t|] eqn:Es.
    + destruct (processSubmission_stored now1 s1 f1 m1 inv w t Hf1 Hm1 Hi1 Es)
        as (S1 & R1). fold w1 in S1.
      assert (Es1 : stored_ticket inv w1 = Some t)
        by (now rewrite (stored_ticket_same inv w w1 S1)).
      destruct (Hkept t Es1) as (T2 & Q2 & M2).
      destruct S1 as (T1 & Q1 & M1).
      apply with_invoiceNo_some in Es.
      rewrite T2, M2, T1, M1.
      split; [exact Hone|]. split; [lia|]. split.
      * intros _. split; [lia|]. now rewrite Q2.
      * intros _ _ Hnone. discriminate Hnone.
    + pose proof (processSubmission_fresh now1 s1 f1 m1 inv w Hf1 Hm1 Hi1 Es) as Hrun1.
      cbv zeta in Hrun1. fold w1 in Hrun1.
      pose proof (with_invoiceNo_none inv (tickets w) Es) as Hzero.
      destruct (user_available f1 m1 w) eqn:Ea1.
      * destruct Hrun1 as (t & Ht & Hti & Hmail).
        assert (Es1 : stored_ticket inv w1 = Some t)
          by (now apply (stored_ticket_app inv w w1 t)).
        destruct (Hkept t Es1) as (T2 & Q2 & M2).
        rewrite T2, M2, Ht, with_invoiceNo_app, Hzero by assumption.
        cbn [app length].
        split; [lia|]. split; [exact Hmail|]. split; [now intros _|].
        intros Hfalse. discriminate Hfalse.
      * destruct Hrun1 as (S1 & R1).
        assert (Es1 : stored_ticket inv w1 = None)
          by (now rewrite (stored_ticket_same inv w w1 S1)).
        pose proof (processSubmission_fresh now2 s2 f2 m2 inv w1 Hf2 Hm2 Hi2 Es1)
          as Hrun2.
        cbv zeta in Hrun2. fold w2 in Hrun2.
        destruct S1 as (T1 & Q1 & M1).
        destruct (user_available f2 m2 w1) eqn:Ea2.
        -- destruct Hrun2 as (t & Ht & Hti & Hmail).
           rewrite Ht, T1, with_invoiceNo_app, Hzero by assumption.
           rewrite M1 in Hmail. cbn [app length].
           split; [lia|]. split; [exact Hmail|]. split.
           ++ intros [Hfalse|[x Hx]]; discriminate.
           ++ intros _ Hfalse. discriminate Hfalse.
        -- destruct Hrun2 as ((T2 & Q2 & M2) & R2).
           rewrite T2, M2, T1, M1, Hzero. cbn [length].
           split; [lia|]. split; [lia|]. split.
           ++ intros [Hfalse|[x Hx]]; discriminate.
           ++ intros _ _ _. now repeat split.
  - intros now body s w Hparse He Hf Hi.
    unfold webhookHandler, handler, bind. rewrite Hparse. simpl.
    now rewrite He, Hf, Hi.
Qed.

End SubmissionFacts.

(** An instance of C1.  Jane's submission delivered again to the store
    that holds her user and her ticket returns that ticket.  Delivered
    twice to the empty store, it ends in an exception both times and
    leaves no ticket where [bcrypt] cannot be loaded, and leaves exactly
    one ticket where it can. *)
Lemma processSubmission_idempotent_witness :
  let s := jane_parsed in
  let run := processSubmission (H := Reference.builtins) (H0 := Reference.services) in
  let run' := processSubmission (H := Reference.builtins)
                (H0 := services_with_bcrypt) in
  parseFormFields (H := Reference.builtins) 2000 jane_submission = Some s
  /\ tickets (fst (run 2000%N s world_with_jane)) = tickets world_with_jane
  /\ snd (run 2000%N s world_with_jane)
     = Ok {| status := 200; success := true;
             message := Some "Webhook processed successfully";
             data := TicketId 3%N |}
  /\ snd (run 1000%N s empty_world) = Thrown
  /\ snd (run 2000%N s (fst (run 1000%N s empty_world))) = Thrown
  /\ with_invoiceNo "77"
       (tickets (fst (run 2000%N s (fst (run 1000%N s empty_world))))) = []
  /\ length (with_invoiceNo "77"
               (tickets (fst (run' 2000%N s (fst (run' 1000%N s empty_world))))))
     = 1%nat.
Proof.
  cbv zeta.
  split; [vm_compute; reflexivity|].
  assert (Hone : (length (with_invoiceNo "77" (tickets empty_world)) <= 1)%nat)
    by (simpl; lia).
  destruct (proj1 (@processSubmission_idempotent Reference.builtins
                     Reference.services)
              2000%N jane_parsed "241234567890" "jane@example.org" "77"
              world_with_jane jane_ticket eq_refl eq_refl eq_refl eq_refl)
    as (E1 & _ & _ & E2).
  split; [exact E1|]. split; [exact E2|].
  destruct (proj1 (proj2 (@processSubmission_idempotent Reference.builtins
                            Reference.services))
              1000%N 2000%N jane_parsed jane_parsed
              "241234567890" "jane@example.org" "241234567890" "jane@example.org"
              "77" empty_world eq_refl eq_refl eq_refl eq_refl eq_refl eq_refl Hone)
    as (_ & _ & _ & Hfail).
  destruct Hfail as (F1 & F2 & _ & F3); try (vm_compute; reflexivity).
  split; [exact F1|]. split; [exact F2|]. split; [exact F3|].
  destruct (proj1 (proj2 (@processSubmission_idempotent Reference.builtins
                            services_with_bcrypt))
              1000%N 2000%N jane_parsed jane_parsed
              "241234567890" "jane@example.org" "241234567890" "jane@example.org"
              "77" empty_world eq_refl eq_refl eq_refl eq_refl eq_refl eq_refl Hone)
    as (_ & _ & Hgood & _).
  destruct Hgood as (G1 & _); [left; vm_compute; reflexivity|].
  exact G1.
Defined.

(** The failing input of C1 at the handler: Jane's submission delivered
    twice to the empty store where [bcrypt] cannot be loaded.  Both
    deliveries are answered with 500; the event is created by the first,
    and no user and no ticket by either. *)
Lemma redelivery_without_bcrypt :
  let deliver := webhookHandler (H := Reference.builtins) (H0 := Reference.services) in
  let first := deliver 1000%N jane_submission empty_world in
  let second := deliver 2000%N jane_submission (fst first) in
  snd first = failure 500 "Error processing webhook"
  /\ snd second = failure 500 "Error processing webhook"
  /\ length (events (fst second)) = 1%nat
  /\ users (fst second) = []
  /\ tickets (fst second) = []
  /\ mail_log (fst second) = [].
Proof. cbv zeta. repeat split; vm_compute; reflexivity. Qed.

(** The same two deliveries where [bcrypt] can be loaded: 200 both times,
    with the id of the one ticket, and one mail. *)
Lemma redelivery_with_bcrypt :
  let deliver := webhookHandler (H := Reference.builtins) (H0 := services_with_bcrypt) in
  let first := deliver 1000%N jane_submission empty_world in
  let second := deliver 2000%N jane_submission (fst first) in
  data (snd first) = TicketId 3%N
  /\ data (snd second) = TicketId 3%N
  /\ status (snd second) = 200%nat
  /\ length (tickets (fst second)) = 1%nat
  /\ length (mail_log (fst second)) = 1%nat.
Proof. cbv zeta. repeat split; vm_compute; reflexivity. Qed.

(** ** The examples of the specification, run on the reference runtime *)

(** Section 8: the human-readable product text. *)
Lemma parseProduct_general_admission :
  parseProductDetails (H := Reference.builtins)
    (VStr "General Admission (Amount: 5.00 AUD, Quantity: 15)")
  = {| Product.quantity := 15;
       Product.productDetails := "General Admission (Amount: 5.00 AUD, Quantity: 15)";
       Product.totalAmount := 75 |}.
Proof. vm_compute. reflexivity. Qed.

(** Section 8: an absent product field. *)
Lemma parseProduct_undefined :
  parseProductDetails (H := Reference.builtins) VUndef = Product.defaults.
Proof. reflexivity. Qed.

(** Section 4.2: the [paymentArray] shape and the shape of the key ['1']. *)
Lemma parseProduct_paymentArray :
  parseProductDetails (H := Reference.builtins)
    (obj {[ "paymentArray" :=
              VStr (Reference.dq
                "{'product':['General Admission (Amount: 5.00 AUD, Quantity: 15)'],'total':'75.00'}") ]})
  = {| Product.quantity := 15;
       Product.productDetails := "General Admission (Amount: 5.00 AUD, Quantity: 15)";
       Product.totalAmount := 75 |}.
Proof. vm_compute. reflexivity. Qed.

Lemma parseProduct_direct :
  parseProductDetails (H := Reference.builtins)
    (obj {[ "1" := VStr (Reference.dq "{'name':'Camp','quantity':3,'price':20}") ]})
  = {| Product.quantity := 3;
       Product.productDetails := "Camp (Quantity: 3)";
       Product.totalAmount := 60 |}.
Proof. vm_compute. reflexivity. Qed.

(** Section 8: a nested envelope and the flat payload with the same
    fields give the same submission. *)
Lemma nested_and_flat_agree :
  parseWebhook (H := Reference.builtins) 1000
    (obj {[ "formID" := VStr "241234567890";
            "rawRequest" :=
              VStr (Reference.dq
                "{'q4_fullName':{'first':'Jane','last':'Doe'},'q5_email':'jane@example.org','q38_invoiceId':'# INV-77'}") ]})
  = parseWebhook (H := Reference.builtins) 1000
      (obj {[ "formID" := VStr "241234567890";
              "q4_fullName" := obj {[ "first" := VStr "Jane"; "last" := VStr "Doe" ]};
              "q5_email" := VStr "jane@example.org";
              "q38_invoiceId" := VStr "# INV-77" ]}).
Proof. vm_compute. reflexivity. Qed.

(** A malformed [rawRequest] falls through to the flat parse. *)
Lemma malformed_rawRequest_falls_through :
  parseWebhook (H := Reference.builtins) 1000
    (obj {[ "formID" := VStr "241234567890"; "email" := VStr "jane@example.org";
            "rawRequest" := VStr "{oops" ]})
  = parseFormFields (H := Reference.builtins) 1000
      (obj {[ "formID" := VStr "241234567890"; "email" := VStr "jane@example.org";
              "rawRequest" := VStr "{oops" ]}).
Proof. vm_compute. reflexivity. Qed.

(** So does an embedded request whose name cannot be converted to a
    string: [parseFormFields] throws on the extracted fields inside the
    inner [try], and the payload itself is parsed, with its own form id
    and email. *)
Lemma unconvertible_name_falls_through :
  let payload :=
    obj {[ "formID" := VStr "241234567890"; "email" := VStr "jane@example.org";
           "rawRequest" :=
             VStr (Reference.dq
               "{'formID':'250000000000','q3_name':{'first':{'toString':1}}}") ]} in
  parseWebhook (H := Reference.builtins) 1000 payload
  = parseFormFields (H := Reference.builtins) 1000 payload
  /\ formId <$> parseWebhook (H := Reference.builtins) 1000 payload
     = Some (VStr "241234567890")
  /\ email <$> parseWebhook (H := Reference.builtins) 1000 payload
     = Some (VStr "jane@example.org").
Proof. cbv zeta. repeat split; vm_compute; reflexivity. Qed.

(** Section 8: a check-in scoped to another event does not find the
    ticket. *)
Lemma checkIn_other_event_not_found :
  snd (checkIn (H := Reference.builtins) (H0 := Reference.services) 6000
         (obj {[ "invoiceNo" := VStr "77";
                 "eventId" := VStr "0000000000000000000000ff" ]})
         world_with_jane)
  = failure 404
      "Ticket not found for this event. This QR code may be for a different event.".
Proof. vm_compute. reflexivity. Qed.

(** * Further properties *)

(** ** The normaliser *)

Section ParserMore.
Context `{Builtins}.

(** X1: the email, the church and the raw invoice number are each the
    first truthy value among their alias keys, taken in the order of the
    alias table; the second look at [q5_email] after the name block never
    changes the email.  This is what the blocks compute, and what every
    submission that the parser returns carries. *)
Theorem alias_order (now : N) (fields : value) :
  emailOf fields = first_truthy (map (prop fields) email_aliases) (VStr "")
  /\ churchOf fields = first_truthy (map (prop fields) church_aliases) (VStr "")
  /\ rawInvoiceNo now fields
     = first_truthy (map (prop fields) invoice_aliases)
                    (VStr ("INV-" +:+ pretty now))
  /\ (forall t, parseFormFields now fields = Some t ->
        email t = first_truthy (map (prop fields) email_aliases) (VStr "")
        /\ church t = first_truthy (map (prop fields) church_aliases) (VStr "")
        /\ invoiceNo t
           = cleanInvoiceNo
               (first_truthy (map (prop fields) invoice_aliases)
                             (VStr ("INV-" +:+ pretty now)))).
Proof.
  assert (He : emailOf fields
               = first_truthy (map (prop fields) email_aliases) (VStr "")).
  { unfold emailOf, email_aliases.
    cbn [map first_truthy].
    destruct (truthy (prop fields "q4_email4")) eqn:E1.
    { cbv zeta. rewrite E1. reflexivity. }
    destruct (truthy (prop fields "q5_email")) eqn:E2.
    { cbv zeta. rewrite E2. reflexivity. }
    destruct (truthy (prop fields "q4_email")) eqn:E3.
    { cbv zeta. rewrite E3. reflexivity. }
    destruct (truthy (prop fields "email")) eqn:E4.
    { cbv zeta. rewrite E4. reflexivity. }
    reflexivity. }
  assert (Hc : churchOf fields
               = first_truthy (map (prop fields) church_aliases) (VStr "")).
  { unfold churchOf, church_aliases, jsor.
    cbn [map first_truthy]. cbv zeta.
    destruct (truthy (prop fields "q10_church")); [reflexivity|].
    destruct (truthy (prop fields "q10_youthGroup")); [reflexivity|].
    destruct (truthy (prop fields "q12_ltstronggtwhichYouth")); [reflexivity|].
    destruct (truthy (prop fields "q9_youthGroup")); [reflexivity|].
    destruct (truthy (prop fields "q12_textbox")); [reflexivity|].
    destruct (truthy (prop fields "church")); [reflexivity|].
    destruct (truthy (prop fields "youthGroup")); reflexivity. }
  assert (Hi : rawInvoiceNo now fields
               = first_truthy (map (prop fields) invoice_aliases)
                              (VStr ("INV-" +:+ pretty now))).
  { unfold rawInvoiceNo, invoice_aliases, jsor.
    cbn [map first_truthy]. cbv zeta.
    destruct (truthy (prop fields "q38_invoiceId")); [reflexivity|].
    destruct (truthy (prop fields "38")); [reflexivity|].
    destruct (truthy (prop fields "q11_invoiceId")); [reflexivity|].
    destruct (truthy (prop fields "q7_invoiceId")); [reflexivity|].
    destruct (truthy (prop fields "q11_autoincrement")); [reflexivity|].
    destruct (truthy (prop fields "invoiceId")); reflexivity. }
  split; [exact He|]. split; [exact Hc|]. split; [exact Hi|].
  intros t Ht.
  destruct (parseFormFields_inv now fields t Ht)
    as (_ & _ & _ & _ & _ & -> & -> & -> & _).
  now rewrite He, Hc, Hi.
Qed.

End ParserMore.

Section NestedMore.
Context `{Builtins}.

(** [parseFormFields] reads its argument through property lookups only,
    and never under the key [__proto__]. *)
Lemma parseFormFields_ext (now : N) (f1 f2 : value) :
  f1 <> VUndef -> f1 <> VNull -> f2 <> VUndef -> f2 <> VNull ->
  (forall k, k <> "__proto__" -> prop f1 k = prop f2 k) ->
  parseFormFields now f1 = parseFormFields now f2.
Proof.
  intros Hu1 Hn1 Hu2 Hn2 Hext.
  assert (Hbody : forall fields, fields <> VUndef -> fields <> VNull ->
            parseFormFields now fields
            = (name ← nameFrom fields;
               phone ← phoneOf fields;
               Some {| formId := prop fields "formID" ||| prop fields "form_id"
                                 ||| prop fields "formId" ||| VStr "";
                       email := emailOf fields;
                       name := name;
                       invoiceNo := cleanInvoiceNo (rawInvoiceNo now fields);
                       phone := phone;
                       church := churchOf fields;
                       quantity := Product.quantity (productOf fields);
                       productDetails := Product.productDetails (productOf fields);
                       totalAmount := Product.totalAmount (productOf fields);
                       youthMinistry := VUndef;
                       eventName := VUndef;
                       eventDate := VUndef |})).
  { intros fields Hu Hn. unfold parseFormFields.
    destruct fields; try reflexivity; congruence. }
  rewrite !Hbody by assumption.
  unfold emailOf, nameFrom, productOf, phoneOf, churchOf, rawInvoiceNo.
  cbv zeta.
  rewrite !Hext by discriminate.
  reflexivity.
Qed.

Lemma formFields_of_object (formId : value) (entries : list (string * value)) :
  formFields_of formId entries <> VUndef /\ formFields_of formId entries <> VNull.
Proof.
  rewrite formFields_of_foldl.
  destruct (foldl_assign_entry entries None
              (<["formId" := formId]> (<["formID" := formId]> ∅)))
    as (p' & m' & -> & _).
  split; discriminate.
Qed.

Lemma formFields_of_lookup (formId : value) (p : option value)
    (m : gmap string value) (k : string) :
  m !! "__proto__" = None -> k <> "__proto__" ->
  prop (formFields_of formId (map_to_list m)) k = prop (merged_fields formId m) k.
Proof.
  intros Hm Hk. rewrite formFields_of_foldl.
  destruct (foldl_assign_entry (map_to_list m) None
              (<["formId" := formId]> (<["formID" := formId]> ∅)))
    as (p' & m' & -> & Hown & Hproto).
  rewrite Hproto.
  2:{ intros v Hin. apply list_elem_of_In, elem_of_map_to_list in Hin. congruence. }
  assert (Hinit : (<["formId" := formId]> (<["formID" := formId]> ∅) : gmap string value) !! k
                  = ({[ "formID" := formId; "formId" := formId ]} : gmap string value) !! k).
  { destruct (String.eqb_spec k "formId") as [->|H1].
    { rewrite lookup_insert_eq, lookup_insert_ne by discriminate.
      now rewrite lookup_singleton_eq. }
    destruct (String.eqb_spec k "formID") as [->|H2].
    { now rewrite lookup_insert_ne, !lookup_insert_eq by discriminate. }
    rewrite !lookup_insert_ne by congruence.
    now rewrite lookup_singleton_ne by congruence. }
  unfold merged_fields, obj. cbn [prop].
  rewrite (Hown k Hk), lookup_union, Hinit.
  destruct (m !! k) as [v|] eqn:Ek.
  - rewrite (last_binding_present k v).
    + destruct (_ !! k); reflexivity.
    + apply NoDup_fst_map_to_list.
    + now apply elem_of_map_to_list.
  - rewrite last_binding_absent.
    2:{ intros v Hin. apply list_elem_of_In, elem_of_map_to_list in Hin. congruence. }
    now rewrite (left_id None _).
Qed.

(** X2: a payload in nested mode is parsed like the flat mapping made of
    the fields of the embedded request laid over the form id of the
    envelope (under [formID] and [formId]), as long as the embedded object
    has no member called [__proto__]: the submission read from that
    mapping is the result, and when [parseFormFields] throws on it (a name
    or a phone that cannot be converted to a string) the exception is
    caught and the payload itself is parsed as a flat mapping. *)
Theorem nested_is_merged_flat (now : N) (payload : value) (text : string)
    (p : option value) (m : gmap string value) :
  truthy (prop payload "rawRequest") = true ->
  String_ (prop payload "rawRequest") = Some text ->
  JSON_parse text = Some (VObj p m) ->
  m !! "__proto__" = None ->
  parseWebhook now payload
  = match parseFormFields now (merged_fields (outer_formId payload) m) with
    | Some ticketData => Some ticketData
    | None => parseFormFields now payload
    end.
Proof.
  intros Hraw Htext Hparse Hm.
  rewrite (parseWebhook_nested now payload (VObj p m) text (map_to_list m))
    by (assumption || reflexivity).
  destruct (formFields_of_object (outer_formId payload) (map_to_list m)) as (Hu & Hn).
  rewrite (parseFormFields_ext now
             (formFields_of (outer_formId payload) (map_to_list m))
             (merged_fields (outer_formId payload) m)); try assumption;
    try discriminate.
  - reflexivity.
  - intros k Hk. now apply formFields_of_lookup.
Qed.

End NestedMore.

(** An instance of X2 on the reference runtime: an envelope of the form
    241234567890 around a request that carries an email and its own
    [formID]. *)
Lemma nested_is_merged_flat_witness :
  let payload :=
    obj {[ "formID" := VStr "241234567890";
           "rawRequest" :=
             VStr (Reference.dq "{'q5_email':'jane@example.org','formID':'25'}") ]} in
  let m : gmap string value :=
    {[ "q5_email" := VStr "jane@example.org"; "formID" := VStr "25" ]} in
  parseWebhook (H := Reference.builtins) 5 payload
  = parseFormFields (H := Reference.builtins) 5
      (merged_fields (outer_formId payload) m)
  /\ email <$> parseWebhook (H := Reference.builtins) 5 payload
     = Some (VStr "jane@example.org").
Proof.
  cbv zeta. split; [|vm_compute; reflexivity].
  refine (eq_trans
            (@nested_is_merged_flat Reference.builtins 5 _
               (Reference.dq "{'q5_email':'jane@example.org','formID':'25'}") None
               {[ "q5_email" := VStr "jane@example.org"; "formID" := VStr "25" ]}
               _ _ _ _) _);
    vm_compute; reflexivity.
Defined.

Section ParseWebhookMore.
Context `{Builtins}.

(** The fields extracted from the embedded request, when there is one
    that parses. *)
Lemma parseWebhook_cases (now : N) (payload : value) :
  parseWebhook now payload = parseFormFields now payload
  \/ exists text rawData entries,
       truthy (prop payload "rawRequest") = true
       /\ String_ (prop payload "rawRequest") = Some text
       /\ JSON_parse text = Some rawData
       /\ Object_entries rawData = Some entries
       /\ parseWebhook now payload
          = parseFormFields now (formFields_of (outer_formId payload) entries)
       /\ is_Some (parseWebhook now payload).
Proof.
  destruct (truthy (prop payload "rawRequest")) eqn:Hraw.
  2:{ left. unfold parseWebhook. rewrite Hraw. now destruct payload. }
  destruct (String_ (prop payload "rawRequest")) as [text|] eqn:Htext.
  2:{ left. unfold parseWebhook. rewrite Hraw, Htext. now destruct payload. }
  destruct (JSON_parse text) as [rawData|] eqn:Hparse.
  2:{ left. unfold parseWebhook. rewrite Hraw, Htext. cbn [mbind option_bind].
      rewrite Hparse. now destruct payload. }
  destruct (Object_entries rawData) as [entries|] eqn:Hentries.
  2:{ left. unfold parseWebhook. rewrite Hraw, Htext. cbn [mbind option_bind].
      rewrite Hparse. cbn [mbind option_bind]. rewrite Hentries.
      now destruct payload. }
  pose proof (parseWebhook_nested now payload rawData text entries
                Hraw Htext Hparse Hentries) as Hweb.
  destruct (parseFormFields now (formFields_of (outer_formId payload) entries))
    as [ticketData|] eqn:Ht.
  - right. exists text, rawData, entries. rewrite Hweb. eauto 10.
  - now left.
Qed.

(** [parseWebhook] throws exactly when the legacy parse of the payload
    throws and no embedded request gave a submission before it. *)
Lemma parseWebhook_throws_iff (now : N) (payload : value) :
  parseWebhook now payload = None
  <-> parseFormFields now payload = None
      /\ (truthy (prop payload "rawRequest") = true ->
          forall text rawData entries,
            String_ (prop payload "rawRequest") = Some text ->
            JSON_parse text = Some rawData ->
            Object_entries rawData = Some entries ->
            parseFormFields now (formFields_of (outer_formId payload) entries) = None).
Proof.
  split.
  - intros E. split.
    + destruct (parseWebhook_cases now payload) as [<-|(t & r & e & _ & _ & _ & _ & _ & Hs)];
        [exact E|].
      rewrite E in Hs. now destruct Hs.
    + intros Hraw text rawData entries Htext Hparse Hentries.
      rewrite (parseWebhook_nested now payload rawData text entries) in E
        by assumption.
      now destruct (parseFormFields now (formFields_of _ entries)).
  - intros (Hflat & Hnested).
    destruct (parseWebhook_cases now payload)
      as [->|(t & r & e & Hraw & Ht & Hr & He & Hw & Hs)]; [exact Hflat|].
    rewrite Hw. now apply (Hnested Hraw t r e).
Qed.

(** X3: when the payload has no usable [rawRequest] (it is missing or
    falsy, or it cannot be converted to a string, or it is not JSON, or it
    is the JSON text of [null], or [parseFormFields] throws on the fields
    extracted from it) the payload itself is parsed as a flat mapping. *)
Theorem parseWebhook_falls_through (now : N) (payload : value) :
  truthy (prop payload "rawRequest") = false
  \/ String_ (prop payload "rawRequest") ≫= JSON_parse = None
  \/ String_ (prop payload "rawRequest") ≫= JSON_parse = Some VNull
  \/ (exists rawData entries,
        String_ (prop payload "rawRequest") ≫= JSON_parse = Some rawData
        /\ Object_entries rawData = Some entries
        /\ parseFormFields now (formFields_of (outer_formId payload) entries) = None) ->
  parseWebhook now payload = parseFormFields now payload.
Proof.
  intros Hraw.
  destruct (parseWebhook_cases now payload)
    as [E|(t & r & e & Hr & Ht & Hp & He & Hw & Hs)]; [exact E|].
  exfalso. rewrite Ht in Hraw. cbn [mbind option_bind] in Hraw. rewrite Hp in Hraw.
  destruct Hraw as [Hf|[Hf|[Hf|(r' & e' & Hf & He' & Hn)]]]; try congruence.
  - injection Hf as ->. discriminate He.
  - injection Hf as <-. rewrite He in He'. injection He' as <-.
    rewrite Hw, Hn in Hs. now destruct Hs.
Qed.

End ParseWebhookMore.

(** An instance of X3 on the reference runtime: a [rawRequest] that is
    not JSON. *)
Lemma parseWebhook_falls_through_witness :
  let payload :=
    obj {[ "formID" := VStr "241234567890"; "q5_email" := VStr "jane@example.org";
           "rawRequest" := VStr "{not json" ]} in
  String_ (H := Reference.builtins) (prop payload "rawRequest")
    ≫= JSON_parse (Builtins := Reference.builtins) = None
  /\ parseWebhook (H := Reference.builtins) 5 payload
     = parseFormFields (H := Reference.builtins) 5 payload
  /\ email <$> parseWebhook (H := Reference.builtins) 5 payload
     = Some (VStr "jane@example.org").
Proof.
  cbv zeta.
  split; [vm_compute; reflexivity|]. split; [|vm_compute; reflexivity].
  apply (@parseWebhook_falls_through Reference.builtins 5).
  right; left; vm_compute; reflexivity.
Defined.

Section InvoiceMore.
Context `{Builtins}.

Lemma rawInvoiceNo_truthy (now : N) (fields : value) :
  truthy (rawInvoiceNo now fields) = true.
Proof.
  unfold rawInvoiceNo, jsor. cbv zeta.
  destruct (truthy (prop fields "q38_invoiceId")) eqn:E1; [exact E1|].
  destruct (truthy (prop fields "38")) eqn:E2; [exact E2|].
  destruct (truthy (prop fields "q11_invoiceId")) eqn:E3; [exact E3|].
  destruct (truthy (prop fields "q7_invoiceId")) eqn:E4; [exact E4|].
  destruct (truthy (prop fields "q11_autoincrement")) eqn:E5; [exact E5|].
  destruct (truthy (prop fields "invoiceId")) eqn:E6; [exact E6|].
  cbn [orb]. cbv iota. rewrite !append_cons. reflexivity.
Qed.

Lemma append_empty_r (s : string) : s +:+ "" = s.
Proof.
  induction s as [|a s IH]; [reflexivity|]. rewrite append_cons. now rewrite IH.
Qed.

(** X4: the parser always selects a truthy raw invoice number, so the
    invoice number of a submission is missing (falsy) exactly when the raw
    value is a text made of invoice prefixes only, which the cleaning
    empties. *)
Theorem invoiceNo_missing_iff (now : N) (fields : value) :
  truthy (rawInvoiceNo now fields) = true
  /\ (truthy (cleanInvoiceNo (rawInvoiceNo now fields)) = false
      <-> exists s, In s bare_prefixes /\ rawInvoiceNo now fields = VStr s)
  /\ (forall t, parseFormFields now fields = Some t ->
        (truthy (invoiceNo t) = false
         <-> exists s, In s bare_prefixes /\ rawInvoiceNo now fields = VStr s)).
Proof.
  pose proof (rawInvoiceNo_truthy now fields) as Ht.
  assert (Hiff : truthy (cleanInvoiceNo (rawInvoiceNo now fields)) = false
                 <-> exists s, In s bare_prefixes /\ rawInvoiceNo now fields = VStr s).
  { revert Ht. generalize (rawInvoiceNo now fields) as raw. intros raw Ht.
    split.
    - intros Hf. destruct raw as [| |b|n|s|l|p m]; try (cbn in Hf, Ht; congruence).
      exists s. split; [|reflexivity].
      unfold cleanInvoiceNo in Hf.
      destruct (strip_prefix_removes "# INV-" s) as (p1 & r1 & Hp1 & Hs1 & E1).
      simpl String.length in E1. rewrite E1 in Hf.
      destruct (strip_prefix_removes "# " r1) as (p2 & r2 & Hp2 & Hs2 & E2).
      simpl String.length in E2. rewrite E2 in Hf.
      destruct (strip_prefix_removes "INV-" r2) as (p3 & r3 & Hp3 & Hs3 & E3).
      simpl String.length in E3. rewrite E3 in Hf.
      cbn [truthy] in Hf. apply negb_false_iff, String.eqb_eq in Hf. subst r3.
      rewrite append_empty_r in Hs3. subst r2 r1 s.
      destruct Hp1 as [-> | ->], Hp2 as [-> | ->], Hp3 as [-> | ->];
        cbn in Ht; try discriminate; cbv; tauto.
    - intros (s & Hin & ->).
      cbv [bare_prefixes In] in Hin.
      repeat (destruct Hin as [<- | Hin]; [reflexivity|]). destruct Hin. }
  split; [exact Ht|]. split; [exact Hiff|].
  intros t Hparse.
  destruct (parseFormFields_inv now fields t Hparse)
    as (_ & _ & _ & _ & _ & _ & -> & _).
  exact Hiff.
Qed.

End InvoiceMore.

Section QuantityMore.
Context `{Builtins}.

Lemma num_or_truthy (x : float) : num_truthy (num_or x 1) = true.
Proof.
  unfold num_or. destruct (num_truthy x) eqn:E; [exact E | reflexivity].
Qed.

Lemma paymentArray_block_quantity (paymentArray : value) (acc : Product.t) :
  num_truthy (Product.quantity acc) = true ->
  num_truthy (Product.quantity (fst (paymentArray_block paymentArray acc))) = true.
Proof.
  intros Hacc. unfold paymentArray_block.
  destruct (String_ paymentArray ≫= JSON_parse) as [paymentData|]; [|exact Hacc].
  destruct (prop_throw paymentData "product") as [product|]; [|exact Hacc].
  destruct (truthy product && isArray product).
  - destruct (prop product "0" ||| VStr ""); try exact Hacc.
    destruct (match_Quantity s);
      destruct (truthy (prop paymentData "total"));
      try destruct (String_ (prop paymentData "total"));
      cbn [fst Product.quantity];
      first [apply num_or_truthy | exact Hacc].
  - destruct (truthy (prop paymentData "total"));
      try destruct (String_ (prop paymentData "total")); exact Hacc.
Qed.

Lemma direct_block_quantity (one : value) (acc : Product.t) :
  num_truthy (Product.quantity acc) = true ->
  num_truthy (Product.quantity (fst (direct_block one acc))) = true.
Proof.
  intros Hacc. unfold direct_block.
  destruct (String_ one ≫= JSON_parse) as [productData|]; [|exact Hacc].
  destruct (prop_throw productData "quantity") as [q|]; [|exact Hacc].
  assert (Hq : forall quantity,
            (if truthy q then (fun text => num_or (parseInt10 text) 1) <$> String_ q
             else Some (Product.quantity acc)) = Some quantity ->
            num_truthy quantity = true).
  { intros quantity. destruct (truthy q).
    - destruct (String_ q); [|discriminate]. cbn. intros [= <-]. apply num_or_truthy.
    - intros [= <-]. exact Hacc. }
  destruct (if truthy q then _ else _) as [quantity|]; [|exact Hacc].
  specialize (Hq quantity eq_refl).
  destruct (if truthy (prop productData "name") then _ else _); [|exact Hq].
  destruct (if truthy (prop productData "price") then _ else _); exact Hq.
Qed.

Lemma parseProductDetails_quantity (productField : value) :
  num_truthy (Product.quantity (parseProductDetails productField)) = true.
Proof.
  unfold parseProductDetails, parseProductDetails_logged.
  destruct (truthy productField && is_object productField).
  - pose proof (paymentArray_block_quantity (prop productField "paymentArray")
                  Product.defaults eq_refl) as Hpa.
    destruct (truthy (prop productField "paymentArray")).
    + destruct (paymentArray_block (prop productField "paymentArray") Product.defaults)
        as [acc1 log1]. cbn [fst] in Hpa.
      pose proof (direct_block_quantity (prop productField "1") acc1 Hpa) as Hd.
      destruct (truthy (prop productField "1")); [|exact Hpa].
      destruct (direct_block (prop productField "1") acc1). exact Hd.
    + pose proof (direct_block_quantity (prop productField "1") Product.defaults
                    eq_refl) as Hd.
      destruct (truthy (prop productField "1")); [|reflexivity].
      destruct (direct_block (prop productField "1") Product.defaults). exact Hd.
  - destruct productField; try reflexivity.
    cbn [fst string_block Product.quantity]. unfold string_block.
    cbn [Product.quantity].
    destruct (match_Quantity s); [apply num_or_truthy | reflexivity].
Qed.

(** X5: whatever the product field is, and whatever the runtime parses
    out of it, the quantity that [parseProductDetails] returns is truthy:
    never zero and never [NaN].  So is the quantity of every parsed
    submission, and the [|| 1] that [webhookHandler] applies to it when
    it builds the ticket never replaces it. *)
Theorem quantity_never_falsy (now : N) (productField fields : value) :
  num_truthy (Product.quantity (parseProductDetails productField)) = true
  /\ num_truthy (Product.quantity (productOf fields)) = true
  /\ (forall t, parseFormFields now fields = Some t ->
        num_truthy (quantity t) = true
        /\ num_or (quantity t) 1 = quantity t).
Proof.
  assert (Hq : num_truthy (Product.quantity (productOf fields)) = true).
  { unfold productOf. cbv zeta.
    destruct (_ || _); [apply parseProductDetails_quantity | reflexivity]. }
  split; [apply parseProductDetails_quantity|]. split; [exact Hq|].
  intros t Ht.
  destruct (parseFormFields_inv now fields t Ht)
    as (_ & _ & _ & _ & _ & _ & _ & _ & -> & _).
  split; [exact Hq|]. unfold num_or. now rewrite Hq.
Qed.

End QuantityMore.

(** ** The two patterns of the product text *)

Lemma take_skip_while (p : ascii -> bool) (s : string) :
  take_while p s +:+ skip_while p s = s.
Proof.
  induction s as [|a s IH]; [reflexivity|]. simpl.
  destruct (p a); [|reflexivity]. rewrite append_cons. now rewrite IH.
Qed.

Lemma take_while_all (p : ascii -> bool) (s : string) :
  string_all p (take_while p s) = true.
Proof.
  induction s as [|a s IH]; [reflexivity|]. simpl.
  destruct (p a) eqn:E; [|reflexivity]. simpl. now rewrite E.
Qed.

Lemma skip_while_stops (p : ascii -> bool) (s : string) :
  match skip_while p s with
  | String a _ => p a = false
  | EmptyString => True
  end.
Proof.
  induction s as [|a s IH]; [exact I|]. simpl.
  destruct (p a) eqn:E; [exact IH | exact E].
Qed.

Lemma match_label_at_sound (label : string) (cls : ascii -> bool) (s cap : string) :
  match_label_at label cls s = Some cap -> label_match label cls s cap.
Proof.
  unfold match_label_at. intros Hm.
  destruct (startsWith s label) eqn:Hl; [|discriminate].
  set (sub := substring_from (String.length label) s) in *.
  set (t := skip_while is_js_space sub) in *.
  destruct (String.eqb_spec (take_while cls t) "") as [|Hne]; [discriminate|].
  injection Hm as <-.
  split; [exact Hne|]. split; [apply take_while_all|].
  exists "", (take_while is_js_space sub), (skip_while cls t).
  split; [|split].
  - rewrite append_nil, take_skip_while. fold t. unfold t.
    rewrite take_skip_while. now apply startsWith_split.
  - apply take_while_all.
  - apply skip_while_stops.
Qed.

Lemma search_label_sound (label : string) (cls : ascii -> bool) (s cap : string) :
  search_label label cls s = Some cap -> label_match label cls s cap.
Proof.
  induction s as [|a s IH]; intros Hs.
  - apply match_label_at_sound. simpl in Hs.
    now destruct (match_label_at label cls "").
  - cbn [search_label] in Hs.
    destruct (match_label_at label cls (String a s)) as [c|] eqn:Hm.
    + injection Hs as <-. now apply match_label_at_sound.
    + destruct (IH Hs) as (Hne & Hall & pre & ws & rest & -> & Hws & Hrest).
      split; [exact Hne|]. split; [exact Hall|].
      exists (String a pre), ws, rest. now rewrite append_cons.
Qed.

Lemma search_label_unfold (label : string) (cls : ascii -> bool) (s : string) :
  search_label label cls s
  = match match_label_at label cls s with
    | Some c => Some c
    | None =>
        match s with
        | String _ s' => search_label label cls s'
        | EmptyString => None
        end
    end.
Proof. destruct s; reflexivity. Qed.

Lemma startsWith_append (p x : string) : startsWith (p +:+ x) p = true.
Proof.
  induction p as [|a p IH]; [apply startsWith_nil|].
  rewrite append_cons, startsWith_cons, Ascii.eqb_refl. exact IH.
Qed.

Lemma substring_from_append (p x : string) :
  substring_from (String.length p) (p +:+ x) = x.
Proof. induction p as [|a p IH]; [reflexivity|]. rewrite append_cons. exact IH. Qed.

Lemma skip_while_all (p : ascii -> bool) (ws x : string) :
  string_all p ws = true -> skip_while p (ws +:+ x) = skip_while p x.
Proof.
  induction ws as [|a ws IH]; [reflexivity|]. cbn [string_all]. intros Hall.
  apply andb_true_iff in Hall as [Ha Hall].
  rewrite append_cons. cbn [skip_while]. rewrite Ha. now apply IH.
Qed.

Lemma take_while_all_app (p : ascii -> bool) (cap rest : string) :
  string_all p cap = true ->
  take_while p (cap +:+ rest) = cap +:+ take_while p rest.
Proof.
  induction cap as [|a cap IH]; [reflexivity|]. cbn [string_all]. intros Hall.
  apply andb_true_iff in Hall as [Ha Hall].
  rewrite !append_cons. cbn [take_while]. rewrite Ha. now rewrite IH.
Qed.

Lemma take_while_stopped (p : ascii -> bool) (rest : string) :
  match rest with String a _ => p a = false | EmptyString => True end ->
  take_while p rest = "".
Proof. destruct rest as [|a rest]; [reflexivity|]. simpl. now intros ->. Qed.

Lemma match_label_at_complete (label : string) (cls : ascii -> bool)
    (ws cap rest : string) :
  (forall a, cls a = true -> is_js_space a = false) ->
  cap <> "" -> string_all cls cap = true -> string_all is_js_space ws = true ->
  match rest with String a _ => cls a = false | EmptyString => True end ->
  match_label_at label cls (label +:+ ws +:+ cap +:+ rest) = Some cap.
Proof.
  intros Hcls Hne Hcap Hws Hrest. unfold match_label_at.
  rewrite startsWith_append, substring_from_append, skip_while_all by assumption.
  assert (Hskip : skip_while is_js_space (cap +:+ rest) = cap +:+ rest).
  { destruct cap as [|a cap]; [congruence|]. simpl in Hcap.
    apply andb_true_iff in Hcap as [Ha _].
    rewrite append_cons. simpl. now rewrite (Hcls a Ha). }
  rewrite Hskip, take_while_all_app, take_while_stopped, append_empty_r by assumption.
  destruct (String.eqb_spec cap ""); congruence.
Qed.

Lemma search_label_complete (label : string) (cls : ascii -> bool) (s cap : string) :
  (forall a, cls a = true -> is_js_space a = false) ->
  label_match label cls s cap -> is_Some (search_label label cls s).
Proof.
  intros Hcls (Hne & Hcap & pre & ws & rest & -> & Hws & Hrest).
  induction pre as [|a pre IH].
  - rewrite append_nil, search_label_unfold, match_label_at_complete by assumption.
    now eexists.
  - rewrite search_label_unfold.
    destruct (match_label_at _ _ _); [now eexists|].
    rewrite append_cons. exact IH.
Qed.

(** X6: the quantity and the amount that the string shape of the product
    field yields are read where the patterns say: a capture of
    [/Quantity:\s*(\d+)/] is a non-empty run of digits that stands in the
    text after the label and optional white space and is not followed by
    another digit, and likewise for [/Amount:\s*([\d.]+)/] with digits and
    dots. *)
Theorem product_patterns_sound (s cap : string) :
  (match_Quantity s = Some cap -> label_match "Quantity:" is_digit s cap)
  /\ (match_Amount s = Some cap ->
      label_match "Amount:" (fun a => is_digit a || Ascii.eqb a ".") s cap).
Proof. split; apply search_label_sound. Qed.

(** X7: the patterns find what is there: a text in which the label
    "Quantity:", optional white space and a run of digits occur gives a
    quantity match, and when the text starts with that occurrence the
    match is exactly its digits. *)
Theorem match_Quantity_complete (s ws cap rest : string) :
  cap <> "" -> string_all is_digit cap = true ->
  string_all is_js_space ws = true ->
  match rest with String a _ => is_digit a = false | EmptyString => True end ->
  match_Quantity ("Quantity:" +:+ ws +:+ cap +:+ rest) = Some cap
  /\ is_Some (match_Quantity (s +:+ "Quantity:" +:+ ws +:+ cap +:+ rest)).
Proof.
  intros Hne Hcap Hws Hrest.
  assert (Hcls : forall a, is_digit a = true -> is_js_space a = false).
  { intros a Ha. unfold is_digit in Ha. unfold is_js_space. cbv zeta in *.
    set (n := nat_of_ascii a) in *.
    apply andb_true_iff in Ha as [H1 H2]. apply Nat.leb_le in H1, H2.
    destruct (Nat.leb_spec 9 n), (Nat.leb_spec n 13), (Nat.eqb_spec n 32),
      (Nat.eqb_spec n 160); cbn [andb orb]; try reflexivity; lia. }
  split.
  - unfold match_Quantity. rewrite search_label_unfold.
    now rewrite match_label_at_complete.
  - apply (search_label_complete _ _ _ cap Hcls).
    split; [exact Hne|]. split; [exact Hcap|]. now exists s, ws, rest.
Qed.

(** An instance of X6: the product text of the specification's examples. *)
Lemma product_patterns_sound_witness :
  let s := "General Admission (Amount: 25.00 AUD, Quantity: 3)" in
  match_Quantity s = Some "3"
  /\ match_Amount s = Some "25.00"
  /\ label_match "Quantity:" is_digit s "3"
  /\ label_match "Amount:" (fun a => is_digit a || Ascii.eqb a ".") s "25.00".
Proof.
  cbv zeta.
  split; [reflexivity|]. split; [reflexivity|]. split.
  - apply (proj1 (product_patterns_sound _ "3")). reflexivity.
  - apply (proj2 (product_patterns_sound _ "25.00")). reflexivity.
Defined.

(** An instance of X7: "Quantity: 12" closed by a bracket, alone and after
    other text. *)
Lemma match_Quantity_complete_witness :
  "12" <> "" /\ string_all is_digit "12" = true
  /\ string_all is_js_space " " = true
  /\ match_Quantity ("Quantity:" +:+ " " +:+ "12" +:+ ")") = Some "12"
  /\ is_Some (match_Quantity ("Youth (" +:+ "Quantity:" +:+ " " +:+ "12" +:+ ")")).
Proof.
  split; [discriminate|]. split; [reflexivity|]. split; [reflexivity|].
  apply (match_Quantity_complete "Youth (" " " "12" ")");
    [discriminate | reflexivity | reflexivity | reflexivity].
Defined.

(** ** The store stays in order *)

Lemma same_store_refl (w : World) : same_store w w.
Proof. repeat split. Qed.

Lemma same_store_trans (a b c : World) :
  same_store a b -> same_store b c -> same_store a c.
Proof.
  intros (E1 & U1 & T1 & N1) (E2 & U2 & T2 & N2).
  repeat split; congruence.
Qed.

Lemma same_store_ok (w w' : World) : same_store w w' -> keeps_store_ok w w'.
Proof.
  intros (He & Hu & Ht & Hn) [H1 H2 H3 H4 H5].
  constructor; unfold all_ids in *; rewrite ?He, ?Hu, ?Ht, ?Hn; assumption.
Qed.

Lemma keeps_store_ok_refl (w : World) : keeps_store_ok w w.
Proof. intros Hw. exact Hw. Qed.

Lemma keeps_store_ok_trans (a b c : World) :
  keeps_store_ok a b -> keeps_store_ok b c -> keeps_store_ok a c.
Proof. unfold keeps_store_ok. auto. Qed.

Lemma find_none_notin {A} (key : A -> string) (p : A -> bool) (f : string)
    (l : list A) :
  (forall x, key x = f -> p x = true) ->
  List.find p l = None -> f ∉ key <$> l.
Proof.
  intros Hp Hfind Hin.
  apply list_elem_of_fmap in Hin as (x & -> & Hx).
  apply list_elem_of_In in Hx.
  apply (List.find_none _ _ Hfind) in Hx. rewrite Hp in Hx; [discriminate|reflexivity].
Qed.

Lemma fmap_map_key {A B} (key : A -> B) (g : A -> A) (l : list A) :
  (forall x, key (g x) = key x) -> key <$> List.map g l = key <$> l.
Proof.
  intros Hg. induction l as [|x l IH]; [reflexivity|].
  cbn. now rewrite Hg, <- IH.
Qed.

Lemma below_fresh (n : N) (l : list N) :
  Forall (fun id => (id < n)%N) l -> n ∉ l.
Proof.
  intros Hall Hin. rewrite Forall_forall in Hall.
  specialize (Hall n Hin). lia.
Qed.

Lemma below_succ (n : N) (l : list N) :
  Forall (fun id => (id < n)%N) l -> Forall (fun id => (id < N.succ n)%N) (n :: l).
Proof.
  intros Hall. constructor; [lia|].
  eapply Forall_impl; [exact Hall|]. intros x Hx. cbn in *. lia.
Qed.

Lemma snoc_first {A} (a b c : list A) (x : A) :
  (a ++ [x]) ++ b ++ c ≡ₚ x :: a ++ b ++ c.
Proof. rewrite <- app_assoc. symmetry. apply Permutation_middle. Qed.

Lemma snoc_second {A} (a b c : list A) (x : A) :
  a ++ (b ++ [x]) ++ c ≡ₚ x :: a ++ b ++ c.
Proof.
  rewrite <- (app_assoc b), (app_assoc a b). cbn.
  rewrite <- Permutation_middle. now rewrite <- app_assoc.
Qed.

Lemma snoc_third {A} (a b c : list A) (x : A) :
  a ++ b ++ c ++ [x] ≡ₚ x :: a ++ b ++ c.
Proof. rewrite !app_assoc. symmetry. apply Permutation_cons_append. Qed.

Lemma NoDup_snoc {A} (l : list A) (x : A) : NoDup l -> x ∉ l -> NoDup (l ++ [x]).
Proof.
  intros Hl Hx. rewrite <- Permutation_cons_append. now apply NoDup_cons.
Qed.

Section StoreOrder.
Context `{Builtins} `{DateBuiltins} `{Services}.

Lemma log_db_same_store (c : DbCall) (w : World) : same_store w (log_db c w).
Proof. repeat split. Qed.

Lemma Event_added_ok (w w' : World) (e : Event.t) :
  events w' = events w ++ [e] -> users w' = users w -> tickets w' = tickets w ->
  next_id w' = N.succ (next_id w) ->
  Event._id e = next_id w -> Event.formId e ∉ Event.formId <$> events w ->
  store_ok w -> store_ok w'.
Proof.
  intros Ee Eu Et En Hid Hf [Ha Hb Hc Hd He].
  constructor; unfold all_ids in *; rewrite ?Ee, ?Eu, ?Et, ?En; try assumption.
  - rewrite fmap_app. now apply NoDup_snoc.
  - rewrite fmap_app. cbn [fmap list_fmap]. rewrite snoc_first, Hid.
    apply NoDup_cons. split; [now apply below_fresh | assumption].
  - rewrite fmap_app. cbn [fmap list_fmap]. rewrite snoc_first, Hid.
    now apply below_succ.
Qed.

Lemma User_added_ok (w w' : World) (u : User.t) :
  events w' = events w -> users w' = users w ++ [u] -> tickets w' = tickets w ->
  next_id w' = N.succ (next_id w) ->
  User._id u = next_id w -> User.email u ∉ User.email <$> users w ->
  store_ok w -> store_ok w'.
Proof.
  intros Ee Eu Et En Hid Hf [Ha Hb Hc Hd He].
  constructor; unfold all_ids in *; rewrite ?Ee, ?Eu, ?Et, ?En; try assumption.
  - rewrite fmap_app. now apply NoDup_snoc.
  - rewrite fmap_app. cbn [fmap list_fmap]. rewrite snoc_second, Hid.
    apply NoDup_cons. split; [now apply below_fresh | assumption].
  - rewrite fmap_app. cbn [fmap list_fmap]. rewrite snoc_second, Hid.
    now apply below_succ.
Qed.

Lemma Ticket_added_ok (w w' : World) (t : Ticket.t) :
  events w' = events w -> users w' = users w -> tickets w' = tickets w ++ [t] ->
  next_id w' = N.succ (next_id w) ->
  Ticket._id t = next_id w ->
  Ticket.invoiceNo t ∉ Ticket.invoiceNo <$> tickets w ->
  store_ok w -> store_ok w'.
Proof.
  intros Ee Eu Et En Hid Hf [Ha Hb Hc Hd He].
  constructor; unfold all_ids in *; rewrite ?Ee, ?Eu, ?Et, ?En; try assumption.
  - rewrite fmap_app. now apply NoDup_snoc.
  - rewrite fmap_app. cbn [fmap list_fmap]. rewrite snoc_third, Hid.
    apply NoDup_cons. split; [now apply below_fresh | assumption].
  - rewrite fmap_app. cbn [fmap list_fmap]. rewrite snoc_third, Hid.
    now apply below_succ.
Qed.

Lemma findOrCreateEvent_store (now : N) (s : ParsedSubmission) :
  effect keeps_store_ok (findOrCreateEvent now s).
Proof.
  intros w w' r E Hw.
  unfold findOrCreateEvent, bind, Event_findOne, Event_create, bind in E.
  destruct (castString (formId s)) as [f|]; simpl in E.
  2:{ injection E as <- _. exact Hw. }
  destruct (List.find _ (events w)) as [ev|] eqn:Ef; simpl in E.
  - injection E as <- _. exact (same_store_ok _ _ (log_db_same_store _ w) Hw).
  - injection E as <- _.
    eapply (Event_added_ok w); try reflexivity; [|exact Hw].
    cbn. eapply find_none_notin; [|exact Ef].
    intros x Hx. now apply String.eqb_eq.
Qed.

Lemma findOrCreateUser_store (s : ParsedSubmission) :
  effect keeps_store_ok (findOrCreateUser s).
Proof.
  intros w w' r E Hw.
  unfold findOrCreateUser, bind, User_findOne, User_create, bind in E.
  destruct (castString (email s)) as [m|]; simpl in E.
  2:{ injection E as <- _. exact Hw. }
  destruct (List.find _ (users w)) as [us|] eqn:Ef; simpl in E.
  - injection E as <- _. exact (same_store_ok _ _ (log_db_same_store _ w) Hw).
  - destruct (bcrypt_hash (next_id w)) as [h|]; simpl in E; injection E as <- _.
    + eapply (User_added_ok w); try reflexivity; [|exact Hw].
      cbn. eapply find_none_notin; [|exact Ef].
      intros x Hx. now apply String.eqb_eq.
    + exact (same_store_ok _ _ (log_db_same_store _ w) Hw).
Qed.

Lemma findOrCreateTicket_store (s : ParsedSubmission) (us : User.t) (ev : Event.t) :
  effect keeps_store_ok (findOrCreateTicket s us ev).
Proof.
  intros w w' r E Hw.
  unfold findOrCreateTicket, bind, Ticket_findOne, Ticket_create,
    call_generateQrCode, call_sendTicketEmail, bind in E.
  cbn [cast_key cast_event] in E.
  destruct (castString (invoiceNo s)) as [inv|]; simpl in E.
  2:{ injection E as <- _. exact Hw. }
  destruct (List.find _ (tickets w)) as [t|] eqn:Ef; simpl in E.
  { injection E as <- _. exact (same_store_ok _ _ (log_db_same_store _ w) Hw). }
  destruct (castString (email s)) as [m|]; simpl in E.
  2:{ injection E as <- _. exact (same_store_ok _ _ (log_db_same_store _ w) Hw). }
  assert (Hfresh : inv ∉ Ticket.invoiceNo <$> tickets w).
  { eapply find_none_notin; [|exact Ef].
    intros x Hx. unfold ticket_matches. rewrite andb_true_r.
    now apply String.eqb_eq. }
  destruct (generateQrCode (invoiceNo s)) as [qr|]; simpl in E.
  - destruct (sendTicketEmail _); simpl in E; injection E as <- _;
      (eapply (Ticket_added_ok w); try reflexivity; [exact Hfresh | exact Hw]).
  - injection E as <- _.
    eapply (Ticket_added_ok w); try reflexivity; [exact Hfresh | exact Hw].
Qed.

Lemma tickets_mapped_ok (g : Ticket.t -> Ticket.t) (w w' : World) :
  (forall t, Ticket._id (g t) = Ticket._id t) ->
  (forall t, Ticket.invoiceNo (g t) = Ticket.invoiceNo t) ->
  events w' = events w -> users w' = users w ->
  tickets w' = List.map g (tickets w) -> next_id w' = next_id w ->
  store_ok w -> store_ok w'.
Proof.
  intros Hid Hinv Ee Eu Et En [Ha Hb Hc Hd He].
  constructor; unfold all_ids in *; rewrite ?Ee, ?Eu, ?Et, ?En;
    rewrite ?(fmap_map_key Ticket._id g) by exact Hid;
    rewrite ?(fmap_map_key Ticket.invoiceNo g) by exact Hinv; assumption.
Qed.

Lemma update_event_keys (f : string) (title : value) (a b : N) (l : list Event.t) :
  Event.formId <$> update_event f title a b l = Event.formId <$> l
  /\ Event._id <$> update_event f title a b l = Event._id <$> l.
Proof.
  induction l as [|e l [IH1 IH2]]; [split; reflexivity|].
  cbn [update_event]. destruct (String.eqb_spec (Event.formId e) f) as [E|E].
  - cbn. now rewrite E.
  - cbn. now rewrite IH1, IH2.
Qed.

Lemma Event_upsert_store (formId title : value) (a b : N) :
  effect keeps_store_ok (Event_upsert formId title a b).
Proof.
  intros w w' r E Hw. unfold Event_upsert, bind in E.
  destruct (castString formId) as [f|]; cbn [or_throw ret throw] in E.
  2:{ injection E as <- _. exact Hw. }
  unfold modify in E.
  destruct (List.find _ (events w)) as [e|] eqn:Ef; injection E as <- _.
  - destruct Hw as [Ha Hb Hc Hd He].
    destruct (update_event_keys f title a b (events w)) as [K1 K2].
    constructor; unfold all_ids in *; cbn [log_db events users tickets next_id];
      rewrite ?K1, ?K2; assumption.
  - eapply (Event_added_ok w); try reflexivity; [|exact Hw].
    cbn. eapply find_none_notin; [|exact Ef].
    intros x Hx. now apply String.eqb_eq.
Qed.

Lemma upsert_each_store (now : N) (l : list JotformEvent.t) :
  effect keeps_store_ok (upsert_each now l).
Proof.
  pose proof keeps_store_ok_refl. pose proof keeps_store_ok_trans.
  induction l as [|ev l IH]; cbn [upsert_each].
  - now apply effect_ret.
  - apply effect_bind; [assumption | apply Event_upsert_store | intros _; exact IH].
Qed.

Lemma Event_find_in_same (formIds : list value) :
  effect same_store (Event_find_in formIds).
Proof.
  pose proof same_store_refl. pose proof same_store_trans.
  unfold Event_find_in. effect_cases. apply log_db_same_store.
Qed.

Lemma listEvents_store (now : N) (fetched : option value) (w : World) :
  keeps_store_ok w (fst (listEvents now fetched w)).
Proof.
  pose proof keeps_store_ok_refl. pose proof keeps_store_ok_trans.
  unfold listEvents.
  match goal with
  | |- context [match ?m w with _ => _ end] =>
      assert (Hm : effect keeps_store_ok m)
  end.
  { apply effect_bind; [assumption | now apply effect_or_throw | intros evs].
    apply effect_bind; [assumption | apply upsert_each_store | intros _].
    eapply effect_weaken; [apply same_store_ok | apply Event_find_in_same]. }
  match goal with
  | |- context [match ?m w with _ => _ end] =>
      destruct (m w) as [w' [found|]] eqn:E
  end; cbn [fst]; exact (Hm _ _ _ E).
Qed.

Lemma searchGuests_store (query : value) (w : World) :
  same_store w (fst (searchGuests query w)).
Proof.
  pose proof same_store_refl. pose proof same_store_trans.
  unfold searchGuests. apply effect_handler; try assumption.
  unfold Ticket_find_sorted. effect_cases. apply log_db_same_store.
Qed.

Lemma lookupTicket_store (body : value) (w : World) :
  same_store w (fst (lookupTicket body w)).
Proof.
  pose proof same_store_refl. pose proof same_store_trans.
  unfold lookupTicket. apply effect_handler; try assumption.
  unfold Ticket_findOne. effect_cases; apply log_db_same_store.
Qed.

Lemma checkIn_store (now : N) (body : value) (w : World) :
  keeps_store_ok w (fst (checkIn now body w)).
Proof.
  pose proof keeps_store_ok_refl. pose proof keeps_store_ok_trans.
  unfold checkIn. apply effect_handler; try assumption.
  apply effect_bind; try assumption.
  - unfold checkIn_find, Ticket_findOne.
    effect_cases; apply same_store_ok, log_db_same_store.
  - intros [response|found]; [now apply effect_ret|].
    unfold checkIn_save, Ticket_save_checkIn. effect_cases.
    intros Hw.
    match goal with
    | |- context [List.map ?g _] =>
        apply (tickets_mapped_ok g _ _) with (7 := Hw); try reflexivity;
          intros t0; cbv beta; destruct (N.eqb _ _); reflexivity
    end.
Qed.

Lemma processSubmission_store (now : N) (s : ParsedSubmission) :
  effect keeps_store_ok (processSubmission now s).
Proof.
  pose proof keeps_store_ok_refl. pose proof keeps_store_ok_trans.
  unfold processSubmission.
  apply effect_bind; [assumption | apply findOrCreateEvent_store | intros ev].
  apply effect_bind; [assumption | apply findOrCreateUser_store | intros us].
  apply effect_bind; [assumption | apply findOrCreateTicket_store | intros tk].
  now apply effect_ret.
Qed.

Lemma webhookHandler_store (now : N) (body : value) (w : World) :
  keeps_store_ok w (fst (webhookHandler now body w)).
Proof.
  pose proof keeps_store_ok_refl. pose proof keeps_store_ok_trans.
  unfold webhookHandler. apply effect_handler; try assumption.
  apply effect_bind; [assumption | now apply effect_or_throw | intros s].
  destruct (_ || _); [now apply effect_ret | apply processSubmission_store].
Qed.

(** X8: every handler leaves the store in order.  If no two events share
    a form id, no two users an email, no two tickets an invoice number, no
    two documents an id, and all ids lie below the id generator, then the
    same holds after a webhook, a search, a check-in, a lookup or a
    listing of the live events, whatever the request was and however it
    was answered. *)
Theorem handlers_keep_store_ok (now : N) (r : Request) (fetched : option value)
    (w : World) :
  store_ok w ->
  store_ok (fst (serve now r w)) /\ store_ok (fst (listEvents now fetched w)).
Proof.
  intros Hw. split; [|now apply listEvents_store].
  destruct r as [body|query|body|body]; cbn [serve].
  - now apply webhookHandler_store.
  - now apply (same_store_ok _ _ (searchGuests_store query w)).
  - now apply checkIn_store.
  - now apply (same_store_ok _ _ (lookupTicket_store body w)).
Qed.

End StoreOrder.

Lemma store_ok_world_with_jane : store_ok world_with_jane.
Proof.
  constructor; apply (bool_decide_unpack _); vm_compute; reflexivity.
Defined.

(** An instance of X8: the store that holds Jane's ticket, after a
    check-in and after a listing of the live events. *)
Lemma handlers_keep_store_ok_witness :
  store_ok world_with_jane
  /\ store_ok
       (fst (serve (H := Reference.builtins) (H0 := Reference.services)
               1800000000000 (CheckIn scan_jane) world_with_jane))
  /\ store_ok
       (fst (listEvents (H := Reference.builtins) (H0 := ReferenceDates.dates)
               (H1 := Reference.services)
               1800000000000 (Some forms_answer) world_with_jane)).
Proof.
  split; [exact store_ok_world_with_jane|].
  exact (@handlers_keep_store_ok Reference.builtins ReferenceDates.dates
           Reference.services 1800000000000 (CheckIn scan_jane) _ world_with_jane
           store_ok_world_with_jane).
Defined.

(** ** The webhook *)

Section WebhookMore.
Context `{Builtins} `{Services}.

Lemma processSubmission_status (now : N) (s : ParsedSubmission) (w w' : World)
    (r : Response) :
  processSubmission now s w = (w', Ok r) -> status r = 200%nat.
Proof.
  unfold processSubmission, bind. intros E.
  destruct (findOrCreateEvent now s w) as [w1 [ev|]]; [|discriminate E].
  destruct (findOrCreateUser s w1) as [w2 [us|]]; [|discriminate E].
  destruct (findOrCreateTicket s us ev w2) as [w3 [t|]]; [|discriminate E].
  injection E as _ <-. reflexivity.
Qed.

(** X9: what [webhookHandler] turns away.  A body that is [null] or
    [undefined] is answered with 500 and the world is left as it was.  The
    answer is 400 exactly when the parsed submission lacks an email, a
    form id or an invoice number, and then nothing was done: no event and
    no user were created and no call reached the store. *)
Theorem webhookHandler_rejections (now : N) (body : value) (w : World) :
  webhookHandler now VUndef w = (w, failure 500 "Error processing webhook")
  /\ webhookHandler now VNull w = (w, failure 500 "Error processing webhook")
  /\ (status (snd (webhookHandler now body w)) = 400%nat
      <-> exists s, parseWebhook now body = Some s
                    /\ truthy (email s) && truthy (formId s) && truthy (invoiceNo s)
                       = false)
  /\ (status (snd (webhookHandler now body w)) = 400%nat ->
      fst (webhookHandler now body w) = w).
Proof.
  split; [reflexivity|]. split; [reflexivity|].
  unfold webhookHandler, handler, bind.
  destruct (parseWebhook now body) as [s|]; cbn [or_throw ret throw].
  2:{ split; [split|]; cbn; [lia | intros (s & E & _); discriminate E | reflexivity]. }
  destruct (truthy (email s)) eqn:E1, (truthy (formId s)) eqn:E2,
    (truthy (invoiceNo s)) eqn:E3;
    cbn [negb orb andb ret fst snd status];
    try (split; [split; [intros _; exists s; split;
                           [reflexivity | rewrite E1, E2, E3; reflexivity]
                        | reflexivity] | reflexivity]).
  destruct (processSubmission now s w) as [w' [r|]] eqn:E; cbn [fst snd].
  - rewrite (processSubmission_status _ _ _ _ _ E).
    split; [split|]; [lia | | lia].
    intros (s' & Es & Hs). injection Es as <-. rewrite E1, E2, E3 in Hs. discriminate Hs.
  - cbn. split; [split|]; [lia | | lia].
    intros (s' & Es & Hs). injection Es as <-. rewrite E1, E2, E3 in Hs. discriminate Hs.
Qed.

End WebhookMore.

(** An instance of X9 on the reference runtime: a submission without an
    email, delivered to the store that holds Jane's ticket. *)
Lemma webhookHandler_rejections_witness :
  let body := obj {[ "formID" := VStr "241234567890";
                     "q38_invoiceId" := VStr "78" ]} in
  status (snd (webhookHandler (H := Reference.builtins) (H0 := Reference.services)
                 1000 body world_with_jane)) = 400%nat
  /\ fst (webhookHandler (H := Reference.builtins) (H0 := Reference.services)
            1000 body world_with_jane) = world_with_jane.
Proof.
  cbv zeta.
  split; [vm_compute; reflexivity|].
  apply (proj2 (proj2 (proj2 (@webhookHandler_rejections Reference.builtins
                                Reference.services 1000 _ world_with_jane)))).
  vm_compute; reflexivity.
Defined.

Lemma find_snoc {A} (p : A -> bool) (l : list A) (x : A) :
  List.find p l = None -> p x = true -> List.find p (l ++ [x]) = Some x.
Proof.
  intros Hl Hx. induction l as [|y l IH]; cbn in *.
  - now rewrite Hx.
  - destruct (p y); [discriminate | now apply IH].
Qed.

Lemma handler_thrown (msg : string) (body : M Response) (w w' : World) :
  body w = (w', Thrown) -> handler msg body w = (w', failure 500 msg).
Proof. unfold handler. now intros ->. Qed.

Lemma handler_ok (msg : string) (body : M Response) (w w' : World) (r : Response) :
  body w = (w', Ok r) -> handler msg body w = (w', r).
Proof. unfold handler. now intros ->. Qed.

Section NewTicket.
Context `{Builtins} `{Services}.

(** The event block: afterwards the store finds the returned event under
    the form id, and nothing but the events has changed. *)
Lemma findOrCreateEvent_finds (now : N) (s : ParsedSubmission) (f : string)
    (w : World) :
  castString (formId s) = Some f ->
  exists w1 ev,
    findOrCreateEvent now s w = (w1, Ok ev)
    /\ List.find (fun e => String.eqb (Event.formId e) f) (events w1) = Some ev
    /\ users w1 = users w /\ tickets w1 = tickets w
    /\ qr_log w1 = qr_log w /\ mail_log w1 = mail_log w
    /\ next_id w1 = next_id_after_event f w.
Proof.
  intros Hf.
  unfold findOrCreateEvent, bind, Event_findOne, Event_create, bind,
    next_id_after_event.
  rewrite Hf. simpl.
  destruct (List.find _ (events w)) as [ev|] eqn:Ef; simpl.
  - eexists _, ev. split; [reflexivity|]. now repeat split.
  - eexists _, _. split; [reflexivity|]. cbn. split; [|now repeat split].
    apply find_snoc; [exact Ef | apply String.eqb_refl].
Qed.

(** The user block where the user is there or [bcrypt] gives a hash. *)
Lemma findOrCreateUser_finds (s : ParsedSubmission) (f m : string) (w0 w : World) :
  castString (email s) = Some m ->
  user_available f m w0 = true ->
  users w = users w0 -> next_id w = next_id_after_event f w0 ->
  exists w2 us,
    findOrCreateUser s w = (w2, Ok us)
    /\ List.find (fun u => String.eqb (User.email u) m) (users w2) = Some us
    /\ events w2 = events w /\ tickets w2 = tickets w
    /\ qr_log w2 = qr_log w /\ mail_log w2 = mail_log w.
Proof.
  intros Hm Ha Hu Hn. unfold user_available in Ha. rewrite <- Hu, <- Hn in Ha.
  unfold findOrCreateUser, bind, User_findOne, User_create, bind.
  rewrite Hm. simpl.
  destruct (List.find _ (users w)) as [us|] eqn:Ef; simpl.
  - eexists _, us. split; [reflexivity|]. now repeat split.
  - destruct (bcrypt_hash (next_id w)) as [h|]; [|discriminate Ha]. simpl.
    eexists _, _. split; [reflexivity|]. cbn. split; [|now repeat split].
    apply find_snoc; [exact Ef | apply String.eqb_refl].
Qed.

(** The ticket block past the idempotency check, run to its end or to
    the failure of the QR code or of the email. *)
Lemma findOrCreateTicket_fresh (s : ParsedSubmission) (us : User.t) (ev : Event.t)
    (inv m : string) (w : World) :
  castString (invoiceNo s) = Some inv ->
  castString (email s) = Some m ->
  stored_ticket inv w = None ->
  let t := new_ticket (next_id w) s inv m us ev in
  let w' := fst (findOrCreateTicket s us ev w) in
  events w' = events w /\ users w' = users w
  /\ tickets w' = tickets w ++ [t]
  /\ qr_log w' = qr_log w ++ [invoiceNo s]
  /\ match generateQrCode (invoiceNo s) with
     | Some qr =>
         mail_log w' = mail_log w ++ [ticket_mail s ev qr]
         /\ snd (findOrCreateTicket s us ev w)
            = if sendTicketEmail (ticket_mail s ev qr) then Ok t else Thrown
     | None =>
         mail_log w' = mail_log w /\ snd (findOrCreateTicket s us ev w) = Thrown
     end.
Proof.
  intros Hinv Hm Hnone. cbv zeta. unfold findOrCreateTicket, bind.
  rewrite (Ticket_findOne_run _ _ (inr inv) None);
    [| simpl; now rewrite Hinv | reflexivity].
  unfold stored_ticket in Hnone. rewrite Hnone.
  unfold Ticket_create, call_generateQrCode, call_sendTicketEmail, bind.
  rewrite Hinv, Hm. simpl.
  destruct (generateQrCode (invoiceNo s)) as [qr|]; simpl.
  - fold (ticket_mail s ev qr).
    destruct (sendTicketEmail (ticket_mail s ev qr)); simpl; now repeat split.
  - now repeat split.
Qed.

(** X10: a submission whose invoice number the store does not know yet,
    from an email that has a user or for which [bcrypt] gives the hash of
    a new one, with the QR service and the mailer working: the answer is
    200 with the id of a new ticket; that ticket is the one document added
    to the tickets, it is not checked in, it carries the fields of the
    submission and points to the event and the user that the store now
    finds under the form id and the email; the QR service was called once,
    with the invoice number, and one mail went out, to the address of the
    submission.  Where the email has no user and [bcrypt] gives no hash,
    the run ends in an exception and no ticket is added. *)
Theorem new_submission_creates_ticket (now : N) (s : ParsedSubmission)
    (f m inv qr : string) (w : World) :
  castString (formId s) = Some f ->
  castString (email s) = Some m ->
  castString (invoiceNo s) = Some inv ->
  stored_ticket inv w = None ->
  generateQrCode (invoiceNo s) = Some qr ->
  (forall mail, sendTicketEmail mail = true) ->
  let w' := fst (processSubmission now s w) in
  if user_available f m w then
    exists id ev us,
      snd (processSubmission now s w)
      = Ok {| status := 200; success := true;
              message := Some "Webhook processed successfully";
              data := TicketId id |}
      /\ tickets w' = tickets w ++ [new_ticket id s inv m us ev]
      /\ stored_ticket inv w' = Some (new_ticket id s inv m us ev)
      /\ List.find (fun e => String.eqb (Event.formId e) f) (events w') = Some ev
      /\ List.find (fun u => String.eqb (User.email u) m) (users w') = Some us
      /\ qr_log w' = qr_log w ++ [invoiceNo s]
      /\ mail_log w' = mail_log w ++ [ticket_mail s ev qr]
  else
    snd (processSubmission now s w) = Thrown
    /\ tickets w' = tickets w /\ qr_log w' = qr_log w /\ mail_log w' = mail_log w.
Proof.
  intros Hf Hm Hinv Hnone Hqr Hmail. cbv zeta.
  destruct (user_available f m w) eqn:Ha.
  2:{ pose proof (processSubmission_fresh now s f m inv w Hf Hm Hinv Hnone) as Hrun.
      cbv zeta in Hrun. rewrite Ha in Hrun.
      destruct Hrun as ((T & Q & M) & R). now repeat split. }
  destruct (findOrCreateEvent_finds now s f w Hf)
    as (w1 & ev & E1 & Fev & U1 & T1 & Q1 & M1 & N1).
  destruct (findOrCreateUser_finds s f m w w1 Hm Ha U1 N1)
    as (w2 & us & E2 & Fus & Ev2 & T2 & Q2 & M2).
  assert (Hnone2 : stored_ticket inv w2 = None).
  { unfold stored_ticket in *. now rewrite T2, T1. }
  pose proof (findOrCreateTicket_fresh s us ev inv m w2 Hinv Hm Hnone2) as Hfresh.
  cbv zeta in Hfresh. rewrite Hqr, Hmail in Hfresh.
  destruct Hfresh as (Ev3 & U3 & T3 & Q3 & M3 & R3).
  unfold processSubmission, bind. rewrite E1, E2.
  destruct (findOrCreateTicket s us ev w2) as [w3 r3]. cbn [fst snd] in *.
  subst r3. unfold ret. cbn [fst snd].
  exists (next_id w2), ev, us.
  split; [reflexivity|].
  split; [now rewrite T3, T2, T1|].
  split; [apply (stored_ticket_app inv w2 w3 _ T3 eq_refl Hnone2)|].
  split; [now rewrite Ev3, Ev2|].
  split; [now rewrite U3|].
  split; [now rewrite Q3, Q2, Q1 | now rewrite M3, M2, M1].
Qed.

(** X11: a ticket is kept when its notification fails, and the
    notification is not tried again.  When the user block goes through
    and then the QR service rejects, or the mailer does, the delivery of a
    new submission is answered with 500, yet its ticket is in the store; a
    later delivery of the same invoice number calls neither the QR service
    nor the mailer, and it is answered with 200 and the id of that ticket
    when its own user block goes through, as it does for the same email,
    and with 500 otherwise. *)
Theorem failed_notification_not_retried (now now2 : N) (s s2 : ParsedSubmission)
    (f m inv f2 m2 : string) (w : World) :
  castString (formId s) = Some f ->
  castString (email s) = Some m ->
  castString (invoiceNo s) = Some inv ->
  castString (formId s2) = Some f2 ->
  castString (email s2) = Some m2 ->
  castString (invoiceNo s2) = Some inv ->
  stored_ticket inv w = None ->
  user_available f m w = true ->
  generateQrCode (invoiceNo s) = None \/ (forall mail, sendTicketEmail mail = false) ->
  let first := handler "Error processing webhook" (processSubmission now s) w in
  let second :=
    handler "Error processing webhook" (processSubmission now2 s2) (fst first) in
  snd first = failure 500 "Error processing webhook"
  /\ exists t,
       stored_ticket inv (fst first) = Some t
       /\ Ticket.checkedIn t = false
       /\ snd second
          = (if user_available f2 m2 (fst first)
             then {| status := 200; success := true;
                     message := Some "Webhook processed successfully";
                     data := TicketId (Ticket._id t) |}
             else failure 500 "Error processing webhook")
       /\ (m2 = m -> user_available f2 m2 (fst first) = true)
       /\ tickets (fst second) = tickets (fst first)
       /\ qr_log (fst second) = qr_log (fst first)
       /\ mail_log (fst second) = mail_log (fst first).
Proof.
  intros Hf Hm Hinv Hf2 Hm2 Hinv2 Hnone Ha Hfail. cbv zeta.
  destruct (findOrCreateEvent_finds now s f w Hf)
    as (w1 & ev & E1 & Fev & U1 & T1 & Q1 & M1 & N1).
  destruct (findOrCreateUser_finds s f m w w1 Hm Ha U1 N1)
    as (w2 & us & E2 & Fus & Ev2 & T2 & Q2 & M2).
  assert (Hnone2 : stored_ticket inv w2 = None).
  { unfold stored_ticket in *. now rewrite T2, T1. }
  pose proof (findOrCreateTicket_fresh s us ev inv m w2 Hinv Hm Hnone2) as Hfresh.
  cbv zeta in Hfresh. destruct Hfresh as (Ev3 & U3 & T3 & Q3 & R3).
  assert (Hthrown : snd (findOrCreateTicket s us ev w2) = Thrown).
  { destruct (generateQrCode (invoiceNo s)) as [qr|].
    - destruct Hfail as [Hq|Hs]; [discriminate Hq|].
      destruct R3 as (_ & ->). now rewrite Hs.
    - now destruct R3. }
  assert (Erun : processSubmission now s w
                 = (fst (findOrCreateTicket s us ev w2), Thrown)).
  { unfold processSubmission, bind. rewrite E1, E2.
    destruct (findOrCreateTicket s us ev w2) as [w3 r3]. cbn [fst snd] in *.
    now subst r3. }
  rewrite (handler_thrown _ _ _ _ Erun). cbn [fst snd].
  split; [reflexivity|].
  set (w3 := fst (findOrCreateTicket s us ev w2)) in *.
  exists (new_ticket (next_id w2) s inv m us ev).
  assert (Hst : stored_ticket inv w3 = Some (new_ticket (next_id w2) s inv m us ev))
    by apply (stored_ticket_app inv w2 w3 _ T3 eq_refl Hnone2).
  split; [exact Hst|]. split; [reflexivity|].
  destruct (processSubmission_stored now2 s2 f2 m2 inv w3 _ Hf2 Hm2 Hinv2 Hst)
    as ((Ht & Hq & Hml) & Hr).
  destruct (processSubmission now2 s2 w3) as [w4 r4] eqn:E4. cbn [fst snd] in *.
  subst r4.
  assert (Hsame : m2 = m -> user_available f2 m2 w3 = true).
  { intros ->. unfold user_available. now rewrite U3, Fus. }
  destruct (user_available f2 m2 w3).
  - rewrite (handler_ok _ _ _ _ _ E4). cbn [fst snd]. now repeat split.
  - rewrite (handler_thrown _ _ _ _ E4). cbn [fst snd]. now repeat split.
Qed.

End NewTicket.

(** An instance of X10 on the reference runtime.  A second submission of
    Jane's arrives at the store that holds her user.  John's submission
    arrives there too: he has no user yet, and the ticket is created where
    [bcrypt] can be loaded. *)
Lemma new_submission_creates_ticket_witness :
  (parseFormFields (H := Reference.builtins) 2000 second_submission
   = Some second_parsed
   /\ stored_ticket "80" world_with_jane = None
   /\ user_available (H := Reference.services)
        "241234567890" "jane@example.org" world_with_jane = true
   /\ exists id ev us,
        let run := processSubmission (H := Reference.builtins)
                     (H0 := Reference.services) 2000 second_parsed
                     world_with_jane in
        snd run = Ok {| status := 200; success := true;
                        message := Some "Webhook processed successfully";
                        data := TicketId id |}
        /\ tickets (fst run)
           = tickets world_with_jane
             ++ [new_ticket id second_parsed "80" "jane@example.org" us ev]
        /\ qr_log (fst run) = qr_log world_with_jane ++ [VStr "80"])
  /\ (parseFormFields (H := Reference.builtins) 2000 john_submission
      = Some john_parsed
      /\ stored_ticket "81" world_with_jane = None
      /\ user_available (H := services_with_bcrypt)
           "241234567890" "john@example.org" world_with_jane = true
      /\ exists id ev us,
           let run := processSubmission (H := Reference.builtins)
                        (H0 := services_with_bcrypt) 2000 john_parsed
                        world_with_jane in
           snd run = Ok {| status := 200; success := true;
                           message := Some "Webhook processed successfully";
                           data := TicketId id |}
           /\ tickets (fst run)
              = tickets world_with_jane
                ++ [new_ticket id john_parsed "81" "john@example.org" us ev]
           /\ List.find (fun u => String.eqb (User.email u) "john@example.org")
                (users (fst run)) = Some us).
Proof.
  split.
  - assert (Ha : user_available (H := Reference.services)
                   "241234567890" "jane@example.org" world_with_jane = true)
      by (vm_compute; reflexivity).
    split; [vm_compute; reflexivity|]. split; [vm_compute; reflexivity|].
    split; [exact Ha|].
    pose proof (@new_submission_creates_ticket Reference.builtins Reference.services
                  2000 second_parsed "241234567890" "jane@example.org" "80"
                  "data:image/png;base64,80" world_with_jane
                  eq_refl eq_refl eq_refl eq_refl
                  ltac:(vm_compute; reflexivity) ltac:(intros; reflexivity)) as Hthm.
    cbv zeta in Hthm. rewrite Ha in Hthm.
    destruct Hthm as (id & ev & us & R & T & _ & _ & _ & Q & _).
    exists id, ev, us. cbv zeta. split; [exact R|]. split; [exact T | exact Q].
  - assert (Ha : user_available (H := services_with_bcrypt)
                   "241234567890" "john@example.org" world_with_jane = true)
      by (vm_compute; reflexivity).
    split; [vm_compute; reflexivity|]. split; [vm_compute; reflexivity|].
    split; [exact Ha|].
    pose proof (@new_submission_creates_ticket Reference.builtins services_with_bcrypt
                  2000 john_parsed "241234567890" "john@example.org" "81"
                  "data:image/png;base64,81" world_with_jane
                  eq_refl eq_refl eq_refl eq_refl
                  ltac:(vm_compute; reflexivity) ltac:(intros; reflexivity)) as Hthm.
    cbv zeta in Hthm. rewrite Ha in Hthm.
    destruct Hthm as (id & ev & us & R & T & _ & _ & U & _ & _).
    exists id, ev, us. cbv zeta. split; [exact R|]. split; [exact T | exact U].
Defined.

(** An instance of X11: a second submission of Jane's while the QR
    generator is out of order, and its second delivery. *)
Lemma failed_notification_not_retried_witness :
  let s := second_parsed in
  let first :=
    handler "Error processing webhook"
      (processSubmission (H := Reference.builtins) (H0 := services_without_qr) 2000 s)
      world_with_jane in
  let second :=
    handler "Error processing webhook"
      (processSubmission (H := Reference.builtins) (H0 := services_without_qr) 3000 s)
      (fst first) in
  stored_ticket "80" world_with_jane = None
  /\ user_available (H := services_without_qr)
       "241234567890" "jane@example.org" world_with_jane = true
  /\ generateQrCode (Services := services_without_qr) (invoiceNo s) = None
  /\ snd first = failure 500 "Error processing webhook"
  /\ exists t,
       stored_ticket "80" (fst first) = Some t
       /\ snd second
          = {| status := 200; success := true;
               message := Some "Webhook processed successfully";
               data := TicketId (Ticket._id t) |}
       /\ qr_log (fst second) = qr_log (fst first)
       /\ mail_log (fst second) = mail_log (fst first).
Proof.
  cbv zeta.
  assert (Ha : user_available (H := services_without_qr)
                 "241234567890" "jane@example.org" world_with_jane = true)
    by (vm_compute; reflexivity).
  split; [vm_compute; reflexivity|]. split; [exact Ha|]. split; [reflexivity|].
  pose proof (@failed_notification_not_retried Reference.builtins services_without_qr
                2000 3000 second_parsed second_parsed
                "241234567890" "jane@example.org" "80"
                "241234567890" "jane@example.org" world_with_jane
                eq_refl eq_refl eq_refl eq_refl eq_refl eq_refl
                ltac:(vm_compute; reflexivity) Ha (or_introl eq_refl)) as Hthm.
  cbv zeta in Hthm.
  destruct Hthm as (R1 & t & St & _ & R2 & Hsame & _ & Q & M).
  rewrite (Hsame eq_refl) in R2.
  split; [exact R1|]. exists t.
  split; [exact St|]. split; [exact R2|]. split; [exact Q | exact M].
Defined.

(** ** Check-in and lookup *)

Lemma unchanged_refl (w : World) : unchanged w w.
Proof. split; repeat split. Qed.

Lemma unchanged_trans (a b c : World) : unchanged a b -> unchanged b c -> unchanged a c.
Proof.
  intros [S1 D1] [S2 D2]. split.
  - now apply (same_store_trans a b c).
  - destruct D1 as (T1 & Q1 & M1), D2 as (T2 & Q2 & M2). repeat split; congruence.
Qed.

Lemma unchanged_log (c : DbCall) (w : World) : unchanged w (log_db c w).
Proof. split; repeat split. Qed.

Lemma map_id_on {A} (f : A -> A) (l : list A) :
  (forall x, x ∈ l -> f x = x) -> List.map f l = l.
Proof.
  induction l as [|y l IH]; intros Hf; [reflexivity|].
  cbn. rewrite Hf by (apply elem_of_cons; now left).
  f_equal. apply IH. intros x Hx. apply Hf. apply elem_of_cons. now right.
Qed.

(** Saving by id on a store without duplicate ids changes one place. *)
Lemma map_mark_insert (g : Ticket.t -> Ticket.t) (l : list Ticket.t) (i : nat)
    (x : Ticket.t) :
  NoDup (Ticket._id <$> l) -> l !! i = Some x ->
  List.map (fun t => if N.eqb (Ticket._id t) (Ticket._id x) then g t else t) l
  = <[i := g x]> l.
Proof.
  revert i. induction l as [|y l IH]; intros i Hnd Hi; [discriminate Hi|].
  rewrite fmap_cons in Hnd. apply NoDup_cons in Hnd as [Hy Hnd].
  destruct i as [|i]; cbn in Hi |- *.
  - injection Hi as ->. rewrite N.eqb_refl. f_equal.
    apply map_id_on. intros t Ht.
    destruct (N.eqb_spec (Ticket._id t) (Ticket._id x)) as [E|]; [|reflexivity].
    exfalso. apply Hy. rewrite <- E. apply list_elem_of_fmap. now exists t.
  - destruct (N.eqb_spec (Ticket._id y) (Ticket._id x)) as [E|].
    + exfalso. apply Hy. rewrite E. apply list_elem_of_fmap. exists x.
      split; [reflexivity|]. now apply list_elem_of_lookup_2 in Hi.
    + f_equal. now apply IH.
Qed.

Section CheckInMore.
Context `{Builtins} `{Services}.

Lemma checkIn_find_unchanged (body : value) : effect unchanged (checkIn_find body).
Proof.
  pose proof unchanged_refl. pose proof unchanged_trans.
  unfold checkIn_find, Ticket_findOne. effect_cases; apply unchanged_log.
Qed.

Lemma checkIn_find_answers (body : value) (w w1 : World) (r : Response) :
  checkIn_find body w = (w1, Ok (inl r)) -> status r = 400%nat.
Proof.
  unfold checkIn_find, bind. intros E.
  destruct (prop_throw body "ticketId"); [|discriminate E]. cbn [or_throw ret] in E.
  destruct (negb (truthy (prop body "ticketId"))
            && negb (truthy (prop body "invoiceNo"))).
  { injection E as _ <-. reflexivity. }
  destruct (truthy (prop body "ticketId")).
  - destruct (negb (ObjectId_isValid (prop body "ticketId"))).
    + injection E as _ <-. reflexivity.
    + destruct (Ticket_findOne _ _ w) as [? [?|]]; discriminate E.
  - destruct (Ticket_findOne _ _ w) as [? [?|]]; discriminate E.
Qed.

(** X12: a check-in that is not answered with 200 has written nothing:
    the events, the users, the tickets, the id generator and the calls to
    the QR service and to the mailer are as they were. *)
Theorem checkIn_unsuccessful_writes_nothing (now : N) (body : value) (w : World) :
  status (snd (checkIn now body w)) <> 200%nat ->
  unchanged w (fst (checkIn now body w)).
Proof.
  unfold checkIn, handler, bind. intros Hs.
  pose proof (checkIn_find_unchanged body w) as Hfind.
  destruct (checkIn_find body w) as [w1 [[response|found]|]];
    specialize (Hfind _ _ eq_refl); cbn [ret fst snd] in *; try exact Hfind.
  unfold checkIn_save, Ticket_save_checkIn, bind, modify in *.
  destruct found as [ticket|]; cbn [ret fst snd] in *; [|exact Hfind].
  destruct (Ticket.checkedIn ticket); cbn [ret fst snd status] in *;
    [exact Hfind | congruence].
Qed.

(** X13: a check-in that is answered with 200 has marked one ticket.  On
    a store whose tickets have distinct ids, the tickets afterwards are
    the tickets before with one place changed: a ticket that was not
    checked in stands there checked in at the time of the request, and it
    is the ticket that the response shows.  Nothing else of the store has
    changed. *)
Theorem checkIn_success_marks_one (now : N) (body : value) (w : World) :
  status (snd (checkIn now body w)) = 200%nat ->
  NoDup (Ticket._id <$> tickets w) ->
  let w' := fst (checkIn now body w) in
  exists i ticket,
    tickets w !! i = Some ticket
    /\ Ticket.checkedIn ticket = false
    /\ tickets w' = <[i := mark_checkedIn now ticket]> (tickets w)
    /\ data (snd (checkIn now body w)) = TicketData (mark_checkedIn now ticket)
    /\ events w' = events w /\ users w' = users w /\ next_id w' = next_id w
    /\ qr_log w' = qr_log w /\ mail_log w' = mail_log w.
Proof.
  intros Hs Hnd. cbv zeta. revert Hs.
  unfold checkIn, handler, bind.
  destruct (checkIn_find body w) as [w1 [[response|found]|]] eqn:Ef;
    cbn [ret fst snd status failure].
  - rewrite (checkIn_find_answers _ _ _ _ Ef). lia.
  - pose proof (checkIn_find_unchanged body w _ _ Ef)
      as ((Hev & Hus & Htk & Hnx) & (_ & Hqr & Hml)).
    apply checkIn_find_stable in Ef as (k & e & Hfound & _).
    unfold checkIn_save, Ticket_save_checkIn, bind, modify.
    destruct found as [ticket|]; cbn [ret fst snd status failure]; [|lia].
    destruct (Ticket.checkedIn ticket) eqn:Hc; cbn [ret fst snd status failure];
      [lia|].
    intros _. symmetry in Hfound. apply List.find_some in Hfound as [Hin _].
    apply list_elem_of_In, list_elem_of_lookup_1 in Hin as [i Hi].
    exists i, ticket. cbn [log_db tickets events users next_id qr_log mail_log data].
    rewrite Htk. split; [exact Hi|]. split; [exact Hc|].
    split; [now apply map_mark_insert|]. now repeat split.
  - cbn. lia.
Qed.

End CheckInMore.

(** An instance of X12: a scan of an unknown invoice number at the store
    that holds Jane's ticket. *)
Lemma checkIn_unsuccessful_writes_nothing_witness :
  let body := obj {[ "invoiceNo" := VStr "78" ]} in
  status (snd (checkIn (H := Reference.builtins) (H0 := Reference.services)
                 6000 body world_with_jane)) <> 200%nat
  /\ unchanged world_with_jane
       (fst (checkIn (H := Reference.builtins) (H0 := Reference.services)
               6000 body world_with_jane)).
Proof.
  cbv zeta.
  assert (Hs : status (snd (checkIn (H := Reference.builtins)
                              (H0 := Reference.services) 6000
                              (obj {[ "invoiceNo" := VStr "78" ]}) world_with_jane))
               <> 200%nat) by (vm_compute; lia).
  split; [exact Hs|].
  exact (@checkIn_unsuccessful_writes_nothing Reference.builtins Reference.services
           6000 _ world_with_jane Hs).
Defined.

(** An instance of X13: the scan of Jane's QR code. *)
Lemma checkIn_success_marks_one_witness :
  let w' := fst (checkIn (H := Reference.builtins) (H0 := Reference.services)
                   6000 scan_jane world_with_jane) in
  status (snd (checkIn (H := Reference.builtins) (H0 := Reference.services)
                 6000 scan_jane world_with_jane)) = 200%nat
  /\ NoDup (Ticket._id <$> tickets world_with_jane)
  /\ exists i ticket,
       tickets world_with_jane !! i = Some ticket
       /\ Ticket.checkedIn ticket = false
       /\ tickets w' = <[i := mark_checkedIn 6000 ticket]> (tickets world_with_jane)
       /\ data (snd (checkIn (H := Reference.builtins) (H0 := Reference.services)
                       6000 scan_jane world_with_jane))
          = TicketData (mark_checkedIn 6000 ticket)
       /\ events w' = events world_with_jane /\ users w' = users world_with_jane
       /\ next_id w' = next_id world_with_jane
       /\ qr_log w' = qr_log world_with_jane /\ mail_log w' = mail_log world_with_jane.
Proof.
  cbv zeta.
  assert (Hnd : NoDup (Ticket._id <$> tickets world_with_jane))
    by (apply (bool_decide_unpack _); vm_compute; reflexivity).
  split; [vm_compute; reflexivity|]. split; [exact Hnd|].
  apply (@checkIn_success_marks_one Reference.builtins Reference.services
           6000 scan_jane world_with_jane); [vm_compute; reflexivity | exact Hnd].
Defined.

Section ScanFlow.
Context `{Builtins} `{Services}.

Lemma prop_throw_other (v : value) (k k' : string) :
  truthy (prop v k) = true -> prop_throw v k' = Some (prop v k').
Proof. destruct v; simpl; intros E; try discriminate E; reflexivity. Qed.

(** A lookup and a check-in by invoice number: the query they make. *)
Lemma lookupTicket_query (body : value) (inv : string) (e : option ObjectId)
    (w : World) :
  truthy (prop body "invoiceNo") = true ->
  castString (prop body "invoiceNo") = Some inv ->
  cast_event (event_filter (prop body "eventId")) = Some e ->
  lookupTicket body w
  = (log_db (Read Tickets) w,
     match List.find (ticket_matches (inr inv) e) (tickets w) with
     | Some ticket =>
         {| status := 200; success := true; message := Some "Ticket found";
            data := TicketData ticket |}
     | None =>
         failure 404
           (if truthy (prop body "eventId")
            then "Ticket not found for this event. Please verify the QR code and event."
            else "Ticket not found")
     end).
Proof.
  intros Hi Hinv He. unfold lookupTicket, handler, bind.
  rewrite (prop_throw_truthy _ _ Hi). cbn [or_throw ret]. rewrite Hi. cbn [negb].
  rewrite (Ticket_findOne_run _ _ (inr inv) e);
    [| cbn [cast_key]; now rewrite Hinv | exact He].
  now destruct (List.find _ (tickets w)).
Qed.

Lemma checkIn_find_query (body : value) (inv : string) (e : option ObjectId)
    (w : World) :
  truthy (prop body "ticketId") = false ->
  truthy (prop body "invoiceNo") = true ->
  castString (prop body "invoiceNo") = Some inv ->
  cast_event (event_filter (prop body "eventId")) = Some e ->
  checkIn_find body w
  = (log_db (Read Tickets) w,
     Ok (inr (List.find (ticket_matches (inr inv) e) (tickets w)))).
Proof.
  intros Ht Hi Hinv He. unfold checkIn_find, bind.
  rewrite (prop_throw_other _ "invoiceNo" "ticketId" Hi). cbn [or_throw ret].
  rewrite Ht, Hi. cbn [negb andb].
  rewrite (Ticket_findOne_run _ _ (inr inv) e);
    [| cbn [cast_key]; now rewrite Hinv | exact He].
  reflexivity.
Qed.

(** X14: the scan of a QR code, from lookup to check-in and back.  For a
    body that carries an invoice number and neither a ticket id nor an
    event, and a stored ticket of that number that is not checked in:
    the lookup shows the ticket, the check-in answers 200 with the ticket
    marked at the time of the request, and a lookup after it shows the
    ticket as the check-in returned it. *)
Theorem scan_then_checkIn_then_lookup (now : N) (body : value) (inv : string)
    (ticket : Ticket.t) (w : World) :
  truthy (prop body "ticketId") = false ->
  truthy (prop body "invoiceNo") = true ->
  truthy (prop body "eventId") = false ->
  castString (prop body "invoiceNo") = Some inv ->
  stored_ticket inv w = Some ticket ->
  Ticket.checkedIn ticket = false ->
  snd (lookupTicket body w)
  = {| status := 200; success := true; message := Some "Ticket found";
       data := TicketData ticket |}
  /\ snd (checkIn now body w)
     = {| status := 200; success := true;
          message := Some ("Welcome " +:+ Ticket.name ticket
                           +:+ "! Check-in successful.");
          data := TicketData (mark_checkedIn now ticket) |}
  /\ snd (lookupTicket body (fst (checkIn now body w)))
     = {| status := 200; success := true; message := Some "Ticket found";
          data := TicketData (mark_checkedIn now ticket) |}.
Proof.
  intros Ht Hi He Hinv Hst Hc.
  assert (Hev : cast_event (event_filter (prop body "eventId")) = Some None).
  { unfold event_filter. now rewrite He. }
  unfold stored_ticket in Hst.
  assert (Hrun : checkIn now body w
                 = (fst (checkIn now body w),
                    {| status := 200; success := true;
                       message := Some ("Welcome " +:+ Ticket.name ticket
                                        +:+ "! Check-in successful.");
                       data := TicketData (mark_checkedIn now ticket) |})
                   /\ tickets (fst (checkIn now body w))
                      = List.map (fun t => if N.eqb (Ticket._id t) (Ticket._id ticket)
                                           then mark_checkedIn now t else t)
                                 (tickets w)).
  { unfold checkIn, handler, bind.
    rewrite (checkIn_find_query body inv None w Ht Hi Hinv Hev), Hst.
    unfold checkIn_save, Ticket_save_checkIn, bind, modify. rewrite Hc.
    cbn [ret fst snd]. split; reflexivity. }
  destruct Hrun as [Hrun Htk].
  split; [|split].
  - rewrite (lookupTicket_query body inv None w Hi Hinv Hev), Hst. reflexivity.
  - now rewrite Hrun.
  - rewrite (lookupTicket_query body inv None _ Hi Hinv Hev), Htk.
    rewrite find_map_invariant.
    + rewrite Hst. cbn [option_map snd]. now rewrite N.eqb_refl.
    + intros x. now destruct (N.eqb (Ticket._id x) (Ticket._id ticket)).
Qed.

(** X15: tickets are looked up within the event of the request.  When
    the body names an event and no stored ticket of the invoice number
    belongs to that event, the lookup and the check-in are both answered
    with 404 and the message about the event, and the check-in writes
    nothing, although a ticket of that invoice number may exist for
    another event. *)
Theorem other_event_not_found (now : N) (body : value) (inv : string)
    (e : ObjectId) (w : World) :
  truthy (prop body "ticketId") = false ->
  truthy (prop body "invoiceNo") = true ->
  truthy (prop body "eventId") = true ->
  castString (prop body "invoiceNo") = Some inv ->
  castObjectId (prop body "eventId") = Some e ->
  (forall t, In t (tickets w) -> Ticket.invoiceNo t = inv -> Ticket.event t <> e) ->
  snd (lookupTicket body w)
  = failure 404
      "Ticket not found for this event. Please verify the QR code and event."
  /\ snd (checkIn now body w)
     = failure 404
         "Ticket not found for this event. This QR code may be for a different event."
  /\ tickets (fst (checkIn now body w)) = tickets w.
Proof.
  intros Ht Hi He Hinv Hev Hother.
  assert (Hce : cast_event (event_filter (prop body "eventId")) = Some (Some e)).
  { unfold event_filter. rewrite He. cbn [cast_event]. now rewrite Hev. }
  assert (Hnone : List.find (ticket_matches (inr inv) (Some e)) (tickets w) = None).
  { destruct (List.find _ (tickets w)) as [t|] eqn:Ef; [|reflexivity].
    apply List.find_some in Ef as [Hin Hm]. unfold ticket_matches in Hm.
    apply andb_true_iff in Hm as [Hm1 Hm2].
    apply String.eqb_eq in Hm1. apply N.eqb_eq in Hm2.
    now destruct (Hother t Hin Hm1). }
  split; [|split].
  - rewrite (lookupTicket_query body inv (Some e) w Hi Hinv Hce), Hnone.
    cbn [snd]. now rewrite He.
  - unfold checkIn, handler, bind.
    rewrite (checkIn_find_query body inv (Some e) w Ht Hi Hinv Hce), Hnone.
    cbn [checkIn_save ret snd]. unfold notFoundMessage. now rewrite He.
  - unfold checkIn, handler, bind.
    rewrite (checkIn_find_query body inv (Some e) w Ht Hi Hinv Hce), Hnone.
    reflexivity.
Qed.

End ScanFlow.

(** An instance of X14: the scan of Jane's QR code. *)
Lemma scan_then_checkIn_then_lookup_witness :
  stored_ticket "77" world_with_jane = Some jane_ticket
  /\ snd (lookupTicket (H0 := Reference.services) scan_jane world_with_jane)
     = {| status := 200; success := true; message := Some "Ticket found";
          data := TicketData jane_ticket |}
  /\ snd (checkIn (H := Reference.builtins) (H0 := Reference.services)
            6000 scan_jane world_with_jane)
     = {| status := 200; success := true;
          message := Some ("Welcome " +:+ Ticket.name jane_ticket
                           +:+ "! Check-in successful.");
          data := TicketData (mark_checkedIn 6000 jane_ticket) |}
  /\ snd (lookupTicket (H0 := Reference.services) scan_jane
            (fst (checkIn (H := Reference.builtins) (H0 := Reference.services)
                    6000 scan_jane world_with_jane)))
     = {| status := 200; success := true; message := Some "Ticket found";
          data := TicketData (mark_checkedIn 6000 jane_ticket) |}.
Proof.
  split; [vm_compute; reflexivity|].
  apply (@scan_then_checkIn_then_lookup Reference.builtins Reference.services
           6000 scan_jane "77" jane_ticket world_with_jane);
    vm_compute; reflexivity.
Defined.

(** An instance of X15: Jane's invoice number scanned for the event
    0000000000000000000000ff, which is not hers. *)
Lemma other_event_not_found_witness :
  let body := obj {[ "invoiceNo" := VStr "77";
                     "eventId" := VStr "0000000000000000000000ff" ]} in
  castObjectId (Services := Reference.services) (prop body "eventId") = Some 255%N
  /\ (forall t, In t (tickets world_with_jane) ->
        Ticket.invoiceNo t = "77" -> Ticket.event t <> 255%N)
  /\ snd (lookupTicket (H0 := Reference.services) body world_with_jane)
     = failure 404
         "Ticket not found for this event. Please verify the QR code and event."
  /\ snd (checkIn (H := Reference.builtins) (H0 := Reference.services)
            6000 body world_with_jane)
     = failure 404
         "Ticket not found for this event. This QR code may be for a different event."
  /\ tickets (fst (checkIn (H := Reference.builtins) (H0 := Reference.services)
                     6000 body world_with_jane))
     = tickets world_with_jane.
Proof.
  cbv zeta.
  assert (Hother : forall t, In t (tickets world_with_jane) ->
            Ticket.invoiceNo t = "77" -> Ticket.event t <> 255%N).
  { intros t [<- | []] _. vm_compute. discriminate. }
  split; [vm_compute; reflexivity|]. split; [exact Hother|].
  apply (@other_event_not_found Reference.builtins Reference.services
           6000 _ "77" 255%N world_with_jane);
    try (vm_compute; reflexivity).
  exact Hother.
Defined.

(** ** The live events *)

Lemma prop_throw_none (v : value) (k : string) :
  prop_throw v k = None <-> v = VUndef \/ v = VNull.
Proof.
  split.
  - destruct v; cbn; intros E; try discriminate E; auto.
  - intros [-> | ->]; reflexivity.
Qed.

Lemma filter_enabled_none (forms : list value) :
  filter_enabled forms = None
  <-> exists form, In form forms /\ (form = VUndef \/ form = VNull).
Proof.
  induction forms as [|form rest IH]; cbn [filter_enabled].
  - split; [discriminate | intros (? & [] & _)].
  - destruct (prop_throw form "status") eqn:Ep.
    + destruct (filter_enabled rest) as [l|].
      * split; [discriminate|]. intros (x & [<- | Hin] & Hx).
        -- apply (proj2 (prop_throw_none form "status")) in Hx. congruence.
        -- assert (Hn : Some l = None) by (apply IH; now exists x).
           discriminate Hn.
      * split; [|reflexivity]. intros _.
        destruct (proj1 IH eq_refl) as (x & Hin & Hx). exists x. split; [now right|easy].
    + split; [|reflexivity]. intros _. exists form. split; [now left|].
      now apply prop_throw_none in Ep.
Qed.

Lemma filter_enabled_some (forms enabled : list value) :
  filter_enabled forms = Some enabled -> enabled = List.filter is_enabled forms.
Proof.
  revert enabled. induction forms as [|form rest IH]; cbn [filter_enabled List.filter];
    intros enabled E.
  - now injection E as <-.
  - destruct (prop_throw form "status"); [|discriminate E].
    destruct (filter_enabled rest) as [l|]; [|discriminate E].
    injection E as <-. rewrite (IH l eq_refl). reflexivity.
Qed.

Section LiveEventsFacts.
Context `{Builtins} `{DateBuiltins} `{Services}.

(** The callback of [map] throws exactly on a form whose start is
    replaced and whose [id] cannot be converted to a string. *)
Lemma event_of_form_None (now : N) (form : value) :
  event_of_form now form = None
  <-> start_replaced (created_at_date now (prop form "created_at")) = true
      /\ String_ (prop form "id") = None.
Proof.
  unfold event_of_form. cbv zeta.
  destruct (start_replaced _).
  - destruct (String_ (prop form "id")); cbn; split;
      [discriminate | intros [_ E]; discriminate E | auto | reflexivity].
  - split; [discriminate | intros [E _]; discriminate E].
Qed.

Lemma event_of_form_Some (now : N) (form : value) (ev : JotformEvent.t) :
  event_of_form now form = Some ev ->
  let start := validated_start now (created_at_date now (prop form "created_at")) in
  ev = {| JotformEvent.formId := prop form "id";
          JotformEvent.title := prop form "title";
          JotformEvent.startTime := Some start;
          JotformEvent.endTime := endTime_of now start |}.
Proof.
  unfold event_of_form. cbv zeta.
  destruct (start_replaced _); [destruct (String_ (prop form "id")); cbn|];
    intros E; try discriminate E; now injection E as <-.
Qed.

(** The events that [getLiveEvents] returns, form by form. *)
Lemma getLiveEvents_Some (now : N) (fetched : option value)
    (live : list JotformEvent.t) :
  getLiveEvents now fetched = Some live ->
  exists data forms,
    fetched = Some data /\ prop data "content" = VArr forms
    /\ Forall2 (fun form ev => event_of_form now form = Some ev)
               (List.filter is_enabled forms) live.
Proof.
  unfold getLiveEvents. intros E.
  destruct fetched as [data|]; [|discriminate E].
  destruct (prop_throw data "responseCode"); [|discriminate E].
  destruct (negb _); [discriminate E|].
  destruct (prop data "content") as [| | | | |forms|] eqn:Ec; try discriminate E.
  destruct (filter_enabled forms) as [enabled|] eqn:Ef; [|discriminate E].
  cbn [mbind option_bind] in E.
  apply filter_enabled_some in Ef as ->.
  exists data, forms. split; [reflexivity|]. split; [exact Ec|].
  now apply mapM_Some.
Qed.

(** X16: [getLiveEvents] fails in exactly these cases: the request was
    rejected; the answer is [null] or [undefined]; its [responseCode] is
    not the number 200; its [content] is not an array; the array holds a
    [null] or [undefined] element, enabled forms before it or not; or the
    array holds an enabled form whose start is replaced by the current
    time while its [id] cannot be converted to a string, so that the
    warning that names the form throws, in the [try] and again in the
    [catch].  [listEvents] then answers 500 "Error fetching events" and
    leaves the world as it was. *)
Theorem getLiveEvents_fails_iff (now : N) (fetched : option value) (w : World) :
  (getLiveEvents now fetched = None
   <-> fetched = None
       \/ exists data,
            fetched = Some data
            /\ (data = VUndef \/ data = VNull
                \/ is_200 (prop data "responseCode") = false
                \/ isArray (prop data "content") = false
                \/ (exists forms form,
                      prop data "content" = VArr forms /\ In form forms
                      /\ (form = VUndef \/ form = VNull))
                \/ (exists forms form,
                      prop data "content" = VArr forms /\ In form forms
                      /\ is_enabled form = true
                      /\ start_replaced
                           (created_at_date now (prop form "created_at")) = true
                      /\ String_ (prop form "id") = None)))
  /\ (getLiveEvents now fetched = None ->
      listEvents now fetched w = (w, EventsError 500 "Error fetching events")).
Proof.
  split.
  - unfold getLiveEvents. destruct fetched as [data|]; [|split; auto].
    assert (Hcode : forall code, prop_throw data "responseCode" = Some code ->
                                 code = prop data "responseCode").
    { intros code Ep. unfold prop_throw in Ep. destruct data; congruence. }
    split.
    + intros E. right. exists data. split; [reflexivity|].
      destruct (prop_throw data "responseCode") as [code|] eqn:Ep.
      2:{ apply prop_throw_none in Ep as [-> | ->]; auto. }
      rewrite (Hcode code eq_refl) in E.
      destruct (is_200 (prop data "responseCode")) eqn:E200;
        [|right; right; left; reflexivity].
      cbn [negb] in E.
      destruct (prop data "content") as [| |b|n|s|forms|p m] eqn:Ec;
        try (do 3 right; left; reflexivity).
      destruct (filter_enabled forms) as [enabled|] eqn:Ef.
      * cbn [mbind option_bind] in E.
        apply filter_enabled_some in Ef as ->.
        apply mapM_None, Exists_exists in E as (form & Hin & Hnone).
        apply list_elem_of_In, List.filter_In in Hin as [Hin Hen].
        apply event_of_form_None in Hnone as [Hrep Hid].
        do 5 right. now exists forms, form.
      * do 4 right. left.
        apply filter_enabled_none in Ef as (form & Hin & Hform).
        now exists forms, form.
    + intros [Hn | (d & Hd & Hcases)]; [discriminate Hn|]. injection Hd as <-.
      destruct Hcases
        as [-> | [-> | [E | [E | [(fs & form & Efs & Hin & Hform)
                                 | (fs & form & Efs & Hin & Hen & Hrep & Hid)]]]]];
        try reflexivity.
      * destruct (prop_throw data "responseCode") as [code|] eqn:Ep; [|reflexivity].
        rewrite (Hcode code eq_refl), E. reflexivity.
      * destruct (prop_throw data "responseCode"); [|reflexivity].
        destruct (negb _); [reflexivity|].
        destruct (prop data "content"); try reflexivity. discriminate E.
      * destruct (prop_throw data "responseCode"); [|reflexivity].
        destruct (negb _); [reflexivity|]. rewrite Efs.
        assert (Hnone : filter_enabled fs = None)
          by (apply filter_enabled_none; now exists form).
        now rewrite Hnone.
      * destruct (prop_throw data "responseCode"); [|reflexivity].
        destruct (negb _); [reflexivity|]. rewrite Efs.
        destruct (filter_enabled fs) as [enabled|] eqn:Ef; [|reflexivity].
        cbn [mbind option_bind].
        apply filter_enabled_some in Ef as ->.
        apply mapM_None, Exists_exists. exists form. split.
        -- apply list_elem_of_In, List.filter_In. now split.
        -- now apply event_of_form_None.
  - intros E. unfold listEvents, bind. now rewrite E.
Qed.

Lemma events_of_forms (now : N) (enabled : list value) (live : list JotformEvent.t) :
  Forall2 (fun form ev => event_of_form now form = Some ev) enabled live ->
  map JotformEvent.formId live = map (fun form => prop form "id") enabled
  /\ map JotformEvent.title live = map (fun form => prop form "title") enabled
  /\ length live = length enabled.
Proof.
  induction 1 as [|form ev enabled live Hev _ (IH1 & IH2 & IH3)];
    [now repeat split|].
  apply event_of_form_Some in Hev. cbv zeta in Hev. subst ev.
  cbn [map length JotformEvent.formId JotformEvent.title].
  now rewrite IH1, IH2, IH3.
Qed.

(** X17: what [getLiveEvents] returns: one event for each element of
    [content] whose [status] is the string "ENABLED", in the order of
    [content], with the [id] and the [title] of the form copied as they
    are. *)
Theorem getLiveEvents_enabled_forms (now : N) (fetched : option value)
    (live : list JotformEvent.t) :
  getLiveEvents now fetched = Some live ->
  exists data forms,
    fetched = Some data /\ prop data "content" = VArr forms
    /\ map JotformEvent.formId live
       = map (fun form => prop form "id") (List.filter is_enabled forms)
    /\ map JotformEvent.title live
       = map (fun form => prop form "title") (List.filter is_enabled forms)
    /\ (length live <= length forms)%nat.
Proof.
  intros E.
  destruct (getLiveEvents_Some now fetched live E) as (data & forms & -> & Ec & Hall).
  exists data, forms. split; [reflexivity|]. split; [exact Ec|].
  destruct (events_of_forms now _ live Hall) as (-> & -> & ->).
  split; [reflexivity|]. split; [reflexivity|]. apply List.filter_length_le.
Qed.

End LiveEventsFacts.

(** An instance of X16 on the reference runtime: the form service answers
    with the code 401. *)
Lemma getLiveEvents_fails_iff_witness :
  let fetched := Some (obj {[ "responseCode" := VNum 401;
                              "message" := VStr "Invalid API key" ]}) in
  getLiveEvents (H := Reference.builtins) (H0 := ReferenceDates.dates)
    1800000000000 fetched = None
  /\ listEvents (H := Reference.builtins) (H0 := ReferenceDates.dates)
       (H1 := Reference.services) 1800000000000 fetched world_with_jane
     = (world_with_jane, EventsError 500 "Error fetching events").
Proof.
  cbv zeta. split; [vm_compute; reflexivity|].
  apply (proj2 (@getLiveEvents_fails_iff Reference.builtins ReferenceDates.dates
                  Reference.services 1800000000000 _ world_with_jane)).
  vm_compute; reflexivity.
Defined.

(** The last case of X16 on the reference runtime: an enabled form
    created at second 0, whose start is therefore replaced, with an [id]
    that cannot be converted to a string. *)
Lemma getLiveEvents_unconvertible_id :
  let form := obj {[ "id" := obj {[ "toString" := VNum 1 ]};
                     "title" := VStr "Stadium 24";
                     "status" := VStr "ENABLED";
                     "created_at" := VStr "0" ]} in
  let fetched := Some (obj {[ "responseCode" := VNum 200;
                              "content" := VArr [form] ]}) in
  is_enabled form = true
  /\ start_replaced (created_at_date (H := Reference.builtins)
                       (H0 := ReferenceDates.dates) 1800000000000
                       (prop form "created_at")) = true
  /\ String_ (H := Reference.builtins) (prop form "id") = None
  /\ getLiveEvents (H := Reference.builtins) (H0 := ReferenceDates.dates)
       1800000000000 fetched = None.
Proof. cbv zeta. repeat split; vm_compute; reflexivity. Qed.

(** An instance of X17: the answer with two enabled forms and a disabled
    one. *)
Lemma getLiveEvents_enabled_forms_witness :
  exists live,
    getLiveEvents (H := Reference.builtins) (H0 := ReferenceDates.dates)
      1800000000000 (Some forms_answer) = Some live
    /\ map JotformEvent.formId live = [VStr "241234567890"; VStr "250000000000"]
    /\ exists data forms,
         Some forms_answer = Some data /\ prop data "content" = VArr forms
         /\ map JotformEvent.formId live
            = map (fun form => prop form "id") (List.filter is_enabled forms)
         /\ map JotformEvent.title live
            = map (fun form => prop form "title") (List.filter is_enabled forms)
         /\ (length live <= length forms)%nat.
Proof.
  eexists. split; [vm_compute; reflexivity|]. split; [vm_compute; reflexivity|].
  apply (@getLiveEvents_enabled_forms Reference.builtins ReferenceDates.dates
           1800000000000 (Some forms_answer)).
  vm_compute; reflexivity.
Defined.

Lemma Forall2_elem_of_r {A B} (P : A -> B -> Prop) (l : list A) (k : list B) (y : B) :
  Forall2 P l k -> y ∈ k -> exists x, x ∈ l /\ P x y.
Proof.
  induction 1 as [|x y' l k Hxy _ IH]; intros Hin.
  - now apply elem_of_nil in Hin.
  - apply elem_of_cons in Hin as [->|Hin].
    + exists x. split; [apply elem_of_cons; now left | exact Hxy].
    + destruct (IH Hin) as (x' & Hx' & Hp). exists x'.
      split; [apply elem_of_cons; now right | exact Hp].
Qed.

Section LiveDates.
Context `{Builtins} `{DateBuiltins} `{Services}.

Lemma validated_start_positive (now : N) (d : Date) :
  (0 < now)%N -> (0 < validated_start now d)%Z.
Proof.
  intros Hnow. unfold validated_start.
  destruct d as [t|]; [|lia]. destruct (Z.leb_spec t 0); lia.
Qed.

Lemma endTime_of_cases (now : N) (start : Z) :
  (Z.of_N now + seven_days_ms <= max_time)%Z -> (0 < start)%Z ->
  exists e,
    endTime_of now start = Some e
    /\ (e = start + seven_days_ms
        \/ (max_time < start + seven_days_ms /\ e = Z.of_N now + seven_days_ms))%Z.
Proof.
  intros Hnow Hs. unfold endTime_of, time_clip.
  assert (H7 : (0 < seven_days_ms)%Z) by reflexivity.
  destruct (Z.leb_spec (Z.abs (start + seven_days_ms)) max_time) as [Hle|Hgt].
  - eexists. split; [reflexivity|]. now left.
  - destruct (Z.leb_spec (Z.abs (Z.of_N now + seven_days_ms)) max_time) as [Hle'|Hgt'].
    + eexists. split; [reflexivity|]. right. split; [lia | reflexivity].
    + lia.
Qed.

(** X18: the dates of the live events.  With the clock after the epoch
    and at least seven days before the end of the date range, every
    event that [getLiveEvents] returns has a valid start after the epoch
    and a valid end; the end is seven days after the start, except when
    that would leave the date range, where it is seven days after the
    clock reading instead.  The second validation in [listEvents] therefore
    replaces neither date, and the stored instants are these. *)
Theorem getLiveEvents_dates (now : N) (fetched : option value)
    (live : list JotformEvent.t) :
  (0 < now)%N ->
  (Z.of_N now + seven_days_ms <= max_time)%Z ->
  getLiveEvents now fetched = Some live ->
  Forall (fun ev =>
            exists s e,
              JotformEvent.startTime ev = Some s
              /\ JotformEvent.endTime ev = Some e
              /\ (0 < s)%Z /\ (0 < e)%Z
              /\ (e = s + seven_days_ms
                  \/ (max_time < s + seven_days_ms
                      /\ e = Z.of_N now + seven_days_ms))%Z
              /\ upsert_live now ev
                 = Event_upsert (JotformEvent.formId ev) (JotformEvent.title ev)
                                (Z.to_N s) (Z.to_N e)
              /\ Z.of_N (Z.to_N s) = s /\ Z.of_N (Z.to_N e) = e)
         live.
Proof.
  intros Hnow Hrange E.
  destruct (getLiveEvents_Some now fetched live E) as (data & forms & _ & _ & Hall).
  apply Forall_forall. intros ev Hin.
  destruct (Forall2_elem_of_r _ _ _ _ Hall Hin) as (form & _ & Hev).
  apply event_of_form_Some in Hev. cbv zeta in Hev. subst ev.
  set (s := validated_start now (created_at_date now (prop form "created_at"))).
  pose proof (validated_start_positive now
                (created_at_date now (prop form "created_at")) Hnow) as Hs.
  fold s in Hs.
  destruct (endTime_of_cases now s Hrange Hs) as (e & He & Hcases).
  assert (H7 : (0 < seven_days_ms)%Z) by reflexivity.
  exists s, e. cbn [event_of_form JotformEvent.startTime JotformEvent.endTime].
  fold s. rewrite He.
  split; [reflexivity|]. split; [reflexivity|]. split; [exact Hs|].
  split; [lia|]. split; [exact Hcases|].
  split; [|lia].
  unfold upsert_live. cbn [JotformEvent.startTime JotformEvent.endTime
                             JotformEvent.formId JotformEvent.title].
  fold s. rewrite ?He. reflexivity.
Qed.

End LiveDates.

(** An instance of X18: the answer with two enabled forms, read when the
    clock shows 1800000000000 ms. *)
Lemma getLiveEvents_dates_witness :
  (0 < 1800000000000)%N
  /\ (Z.of_N 1800000000000 + seven_days_ms <= max_time)%Z
  /\ exists live,
       getLiveEvents (H := Reference.builtins) (H0 := ReferenceDates.dates)
         1800000000000 (Some forms_answer) = Some live
       /\ map JotformEvent.startTime live
          = [Some 1700000000000%Z; Some 1600000000000%Z]
       /\ Forall (fun ev =>
                    exists s e,
                      JotformEvent.startTime ev = Some s
                      /\ JotformEvent.endTime ev = Some e
                      /\ (0 < s)%Z /\ (0 < e)%Z
                      /\ (e = s + seven_days_ms
                          \/ (max_time < s + seven_days_ms
                              /\ e = Z.of_N 1800000000000 + seven_days_ms))%Z
                      /\ upsert_live (H := Reference.services) 1800000000000 ev
                         = Event_upsert (H := Reference.services)
                             (JotformEvent.formId ev) (JotformEvent.title ev)
                             (Z.to_N s) (Z.to_N e)
                      /\ Z.of_N (Z.to_N s) = s /\ Z.of_N (Z.to_N e) = e)
                 live.
Proof.
  split; [reflexivity|]. split; [vm_compute; discriminate|].
  eexists. split; [vm_compute; reflexivity|]. split; [vm_compute; reflexivity|].
  apply (@getLiveEvents_dates Reference.builtins ReferenceDates.dates
           Reference.services 1800000000000 (Some forms_answer));
    [reflexivity | vm_compute; discriminate | vm_compute; reflexivity].
Defined.

(** ** Listing the events *)

Lemma events_only_refl (w : World) : events_only w w.
Proof. unfold events_only. repeat split; reflexivity. Qed.

Lemma events_only_trans (a b c : World) :
  events_only a b -> events_only b c -> events_only a c.
Proof.
  intros (U1 & T1 & Q1 & M1 & I1 & F1) (U2 & T2 & Q2 & M2 & I2 & F2).
  unfold events_only. repeat split; try congruence; etransitivity; eassumption.
Qed.

Lemma events_only_log (c : DbCall) (w : World) : events_only w (log_db c w).
Proof. exact (events_only_refl w). Qed.

#[local] Instance start_le_total : Total start_le.
Proof. intros a b. unfold start_le. lia. Qed.

#[local] Instance start_le_trans : Transitive start_le.
Proof. intros a b c. unfold start_le. lia. Qed.

Section ListEventsFacts.
Context `{Builtins} `{DateBuiltins} `{Services}.

Lemma Event_upsert_events_only (formId title : value) (a b : N) :
  effect events_only (Event_upsert formId title a b).
Proof.
  intros w w' r E. unfold Event_upsert, bind in E.
  destruct (castString formId) as [f|]; cbn [or_throw ret throw] in E.
  2:{ injection E as <- _. apply events_only_refl. }
  unfold modify in E.
  destruct (List.find _ (events w)) as [e|] eqn:Ef; injection E as <- _.
  - destruct (update_event_keys f title a b (events w)) as [K1 K2].
    unfold events_only. cbn [log_db events users tickets qr_log mail_log].
    rewrite K1, K2. repeat split; reflexivity.
  - unfold events_only. cbn [log_db events users tickets qr_log mail_log].
    rewrite !fmap_app. repeat split; now apply prefix_app_r.
Qed.

Lemma upsert_each_events_only (now : N) (l : list JotformEvent.t) :
  effect events_only (upsert_each now l).
Proof.
  pose proof events_only_refl. pose proof events_only_trans.
  induction l as [|ev l IH]; cbn [upsert_each].
  - now apply effect_ret.
  - apply effect_bind; [assumption | apply Event_upsert_events_only | intros _; exact IH].
Qed.

Lemma Event_find_in_events_only (formIds : list value) :
  effect events_only (Event_find_in formIds).
Proof.
  pose proof events_only_refl. pose proof events_only_trans.
  unfold Event_find_in. effect_cases. apply events_only_log.
Qed.

(** X19: a listing of the live events touches nothing but the events:
    the users, the tickets and the calls to the QR service and to the
    mailer are as they were.  No event is removed and none changes its id
    or its form id: the events that were there are updated in place and
    new ones come after them. *)
Theorem listEvents_touches_events_only (now : N) (fetched : option value)
    (w : World) :
  events_only w (fst (listEvents now fetched w)).
Proof.
  pose proof events_only_refl. pose proof events_only_trans.
  unfold listEvents.
  match goal with
  | |- context [match ?m w with _ => _ end] =>
      assert (Hm : effect events_only m)
  end.
  { apply effect_bind; [assumption | now apply effect_or_throw | intros evs].
    apply effect_bind; [assumption | apply upsert_each_events_only | intros _].
    apply Event_find_in_events_only. }
  match goal with
  | |- context [match ?m w with _ => _ end] =>
      destruct (m w) as [w' [found|]] eqn:E
  end; cbn [fst]; exact (Hm _ _ _ E).
Qed.

End ListEventsFacts.

Lemma existsb_eqb_elem_of (f : string) (fs : list string) :
  existsb (String.eqb f) fs = true <-> f ∈ fs.
Proof.
  rewrite List.existsb_exists. split.
  - intros (x & Hin & Heq). apply String.eqb_eq in Heq as ->.
    now apply list_elem_of_In.
  - intros Hin. exists f. split; [now apply list_elem_of_In | apply String.eqb_refl].
Qed.

Lemma filter_key_length {A} (key : A -> string) (fs : list string) (l1 l2 : list A) :
  key <$> l1 = key <$> l2 ->
  length (filter (fun e => key e ∈ fs) l1) = length (filter (fun e => key e ∈ fs) l2).
Proof.
  revert l2. induction l1 as [|x l1 IH]; intros [|y l2] E; try discriminate E;
    [reflexivity|].
  rewrite !fmap_cons in E. injection E as Exy E.
  rewrite !filter_cons, Exy.
  destruct (decide (key y ∈ fs)); cbn [length]; now rewrite (IH l2 E).
Qed.

Section ListEventsMore.
Context `{Builtins} `{DateBuiltins} `{Services}.

Lemma find_formId_elem_of (f : string) (l : list Event.t) (e : Event.t) :
  List.find (fun e => String.eqb (Event.formId e) f) l = Some e ->
  f ∈ Event.formId <$> l.
Proof.
  intros Hfind. apply List.find_some in Hfind as [Hin Heq].
  apply String.eqb_eq in Heq as <-.
  apply list_elem_of_fmap. exists e. split; [reflexivity | now apply list_elem_of_In].
Qed.

(** One upsert whose form id the store accepts: it succeeds, the form has
    an event afterwards, and when it had one before nothing was added. *)
Lemma Event_upsert_ok (formId title : value) (a b : N) (f : string) (w : World) :
  castString formId = Some f ->
  exists w',
    Event_upsert formId title a b w = (w', Ok tt)
    /\ f ∈ Event.formId <$> events w'
    /\ (f ∈ Event.formId <$> events w ->
        Event.formId <$> events w' = Event.formId <$> events w
        /\ Event._id <$> events w' = Event._id <$> events w
        /\ next_id w' = next_id w).
Proof.
  intros Hf. unfold Event_upsert, bind. rewrite Hf. cbn [or_throw ret]. unfold modify.
  destruct (List.find _ (events w)) as [e|] eqn:Ef; eexists; (split; [reflexivity|]).
  - destruct (update_event_keys f title a b (events w)) as [K1 K2].
    cbn [log_db events next_id]. rewrite K1, K2. split.
    + now apply (find_formId_elem_of f _ e).
    + intros _. now repeat split.
  - cbn [log_db events next_id]. rewrite fmap_app. split.
    + apply elem_of_app. right. cbn. apply elem_of_cons. now left.
    + intros Hin. exfalso. revert Hin. eapply find_none_notin; [|exact Ef].
      intros x Hx. now apply String.eqb_eq.
Qed.

Lemma upsert_each_inv (now : N) (l : list JotformEvent.t) :
  forall w w', upsert_each now l w = (w', Ok tt) ->
  exists fs, cast_all (map JotformEvent.formId l) = Some fs
             /\ Forall (fun f => f ∈ Event.formId <$> events w') fs.
Proof.
  induction l as [|ev l IH]; intros w w' E.
  - exists []. split; [reflexivity | constructor].
  - cbn [upsert_each] in E. unfold bind in E.
    destruct (castString (JotformEvent.formId ev)) as [f|] eqn:Ef.
    2:{ unfold upsert_live, Event_upsert, bind in E. rewrite Ef in E. discriminate E. }
    unfold upsert_live in E.
    destruct (Event_upsert_ok (JotformEvent.formId ev) (JotformEvent.title ev)
                (match JotformEvent.startTime ev with
                 | Some t => Z.to_N t | None => now end)
                (match JotformEvent.endTime ev with
                 | Some t => Z.to_N t | None => (now + seven_days)%N end)
                f w Ef) as (w1 & E1 & Hin1 & _).
    rewrite E1 in E.
    destruct (IH w1 w' E) as (fs & Hfs & Hall).
    exists (f :: fs). split.
    + cbn [map cast_all]. now rewrite Ef, Hfs.
    + constructor; [|exact Hall].
      pose proof (upsert_each_events_only now l w1 w' _ E) as (_ & _ & _ & _ & _ & Hpre).
      destruct Hpre as [k ->]. apply elem_of_app. now left.
Qed.

Lemma upsert_each_settled (now : N) (l : list JotformEvent.t) (fs : list string) :
  forall w,
    cast_all (map JotformEvent.formId l) = Some fs ->
    Forall (fun f => f ∈ Event.formId <$> events w) fs ->
    exists w',
      upsert_each now l w = (w', Ok tt)
      /\ Event.formId <$> events w' = Event.formId <$> events w
      /\ Event._id <$> events w' = Event._id <$> events w
      /\ next_id w' = next_id w.
Proof.
  revert fs. induction l as [|ev l IH]; intros fs w Hfs Hall.
  - exists w. now repeat split.
  - cbn [map cast_all] in Hfs.
    destruct (castString (JotformEvent.formId ev)) as [f|] eqn:Ef; [|discriminate Hfs].
    destruct (cast_all (map JotformEvent.formId l)) as [fs'|] eqn:Efs;
      [|discriminate Hfs].
    injection Hfs as <-. apply Forall_cons in Hall as [Hf Hall].
    destruct (Event_upsert_ok (JotformEvent.formId ev) (JotformEvent.title ev)
                (match JotformEvent.startTime ev with
                 | Some t => Z.to_N t | None => now end)
                (match JotformEvent.endTime ev with
                 | Some t => Z.to_N t | None => (now + seven_days)%N end)
                f w Ef) as (w1 & E1 & _ & Hsame).
    destruct (Hsame Hf) as (K1 & K2 & K3).
    destruct (IH fs' w1 eq_refl) as (w' & E' & K1' & K2' & K3').
    { now rewrite K1. }
    exists w'. cbn [upsert_each]. unfold bind, upsert_live. rewrite E1.
    split; [exact E'|]. repeat split; congruence.
Qed.

(** A listing that succeeded, step by step. *)
Lemma listEvents_run (now : N) (fetched : option value) (w w' : World) (n : nat)
    (found : list Event.t) :
  listEvents now fetched w = (w', EventList n found) ->
  exists live fs w1,
    getLiveEvents now fetched = Some live
    /\ upsert_each now live w = (w1, Ok tt)
    /\ cast_all (map JotformEvent.formId live) = Some fs
    /\ Forall (fun f => f ∈ Event.formId <$> events w1) fs
    /\ w' = log_db (Read Events) w1
    /\ found = merge_sort start_le
                 (filter (fun e => existsb (String.eqb (Event.formId e)) fs = true)
                         (events w1))
    /\ n = length found.
Proof.
  unfold listEvents, bind. intros E.
  destruct (getLiveEvents now fetched) as [live|]; [|discriminate E].
  cbn [or_throw ret] in E.
  destruct (upsert_each now live w) as [w1 [[]|]] eqn:Eu; [|discriminate E].
  destruct (upsert_each_inv now live w w1 Eu) as (fs & Hfs & Hall).
  unfold Event_find_in, bind in E. rewrite Hfs in E.
  cbn [or_throw ret] in E. unfold modify, gets in E.
  injection E as <- <- <-.
  exists live, fs, w1. now repeat split.
Qed.

Lemma filter_live (fs : list string) (l : list Event.t) :
  filter (fun e => existsb (String.eqb (Event.formId e)) fs = true) l
  = filter (fun e => Event.formId e ∈ fs) l.
Proof. apply list_filter_iff. intros e. apply existsb_eqb_elem_of. Qed.

(** A start that is replaced at the clock reading [now2] is replaced at
    [now] too, unless [now2] is the epoch itself. *)
Lemma start_replaced_clock (now now2 : N) (created_at : value) :
  (0 < now2)%N \/ now2 = now ->
  start_replaced (created_at_date now2 created_at) = true ->
  start_replaced (created_at_date now created_at) = true.
Proof.
  intros Hclock.
  assert (Hnow : start_replaced (Some (Z.of_N now2)) = true ->
                 start_replaced (Some (Z.of_N now)) = true).
  { destruct Hclock as [Hpos| ->]; [|auto]. cbn [start_replaced].
    intros E. apply Z.leb_le in E. lia. }
  unfold created_at_date. destruct created_at as [| |b|n|s|l|p m]; try exact Hnow.
  - destruct (truthy (VNum n) && negb (PrimFloat.is_nan n)); [auto | exact Hnow].
  - destruct (truthy (VStr s)); [|exact Hnow].
    destruct (negb (PrimFloat.is_nan (StringToNumber s))); auto.
Qed.

(** The form ids of the live events do not depend on the clock, and
    neither does the success of [getLiveEvents] between two readings after
    the epoch. *)
Lemma getLiveEvents_formIds (now now2 : N) (fetched : option value)
    (live : list JotformEvent.t) :
  (0 < now2)%N \/ now2 = now ->
  getLiveEvents now fetched = Some live ->
  exists live2,
    getLiveEvents now2 fetched = Some live2
    /\ map JotformEvent.formId live2 = map JotformEvent.formId live.
Proof.
  intros Hclock. unfold getLiveEvents. intros E.
  destruct fetched as [data|]; [|discriminate E].
  destruct (prop_throw data "responseCode"); [|discriminate E].
  destruct (negb _); [discriminate E|].
  destruct (prop data "content") as [| |b|x|s|forms|p m]; try discriminate E.
  destruct (filter_enabled forms) as [enabled|]; [|discriminate E].
  cbn [mbind option_bind] in *. apply mapM_Some in E.
  induction E as [|form ev enabled live Hev _ (live2 & E2 & Hids)].
  - exists []. split; reflexivity.
  - destruct (event_of_form now2 form) as [ev2|] eqn:Eev2.
    + exists (ev2 :: live2). split.
      * apply mapM_Some. constructor; [exact Eev2 | now apply mapM_Some].
      * apply event_of_form_Some in Hev, Eev2. cbv zeta in Hev, Eev2.
        subst ev ev2. cbn [map JotformEvent.formId]. now rewrite Hids.
    + apply event_of_form_None in Eev2 as [Hrep Hid].
      apply (start_replaced_clock now now2 _ Hclock) in Hrep.
      assert (Hnone : event_of_form now form = None)
        by (now apply event_of_form_None).
      rewrite Hnone in Hev. discriminate Hev.
Qed.

(** X20: what a successful listing returns.  The store accepted the form
    id of every live event, each of these forms has an event in the store
    afterwards, and the response holds exactly the stored events of these
    forms, in ascending order of their start, with their number as
    [count]. *)
Theorem listEvents_lists_live_events (now : N) (fetched : option value)
    (w w' : World) (n : nat) (found : list Event.t) :
  listEvents now fetched w = (w', EventList n found) ->
  exists live fs,
    getLiveEvents now fetched = Some live
    /\ cast_all (map JotformEvent.formId live) = Some fs
    /\ Forall (fun f => f ∈ Event.formId <$> events w') fs
    /\ found ≡ₚ filter (fun e => Event.formId e ∈ fs) (events w')
    /\ StronglySorted start_le found
    /\ n = length found.
Proof.
  intros E.
  destruct (listEvents_run now fetched w w' n found E)
    as (live & fs & w1 & Hlive & _ & Hfs & Hall & -> & -> & ->).
  exists live, fs. split; [exact Hlive|]. split; [exact Hfs|].
  split; [exact Hall|]. cbn [log_db events].
  split; [|split; [|reflexivity]].
  - now rewrite merge_sort_Permutation, filter_live.
  - apply StronglySorted_merge_sort; apply _.
Qed.

(** X21: listing again creates nothing.  After a successful listing, a
    second one with the same answer of the form service, at any clock
    reading after the epoch (or at the same reading), finds every form in
    the store: it adds no event, gives no new id, and returns as many
    events as the first. *)
Theorem listEvents_again_creates_nothing (now now2 : N) (fetched : option value)
    (w w1 : World) (n : nat) (found : list Event.t) :
  (0 < now2)%N \/ now2 = now ->
  listEvents now fetched w = (w1, EventList n found) ->
  let w2 := fst (listEvents now2 fetched w1) in
  Event.formId <$> events w2 = Event.formId <$> events w1
  /\ Event._id <$> events w2 = Event._id <$> events w1
  /\ next_id w2 = next_id w1
  /\ exists found2, snd (listEvents now2 fetched w1) = EventList n found2.
Proof.
  intros Hclock E. cbv zeta.
  destruct (listEvents_run now fetched w w1 n found E)
    as (live & fs & wa & Hlive & _ & Hfs & Hall & -> & -> & ->).
  destruct (getLiveEvents_formIds now now2 fetched live Hclock Hlive)
    as (live2 & Hlive2 & Hids).
  rewrite <- Hids in Hfs.
  destruct (upsert_each_settled now2 live2 fs (log_db (Read Events) wa) Hfs Hall)
    as (wb & Eb & K1 & K2 & K3).
  unfold listEvents, bind. rewrite Hlive2. cbn [or_throw ret]. rewrite Eb.
  unfold Event_find_in, bind. rewrite Hfs. cbn [or_throw ret].
  unfold modify, gets. cbn [fst snd log_db events next_id] in *.
  split; [exact K1|]. split; [exact K2|]. split; [exact K3|].
  eexists. f_equal.
  rewrite !merge_sort_Permutation, !filter_live.
  now apply (filter_key_length Event.formId).
Qed.

End ListEventsMore.

(** An instance of X20: the answer with two enabled forms, listed at the
    store that holds Jane's ticket and the event of her form. *)
Lemma listEvents_lists_live_events_witness :
  let run := listEvents (H := Reference.builtins) (H0 := ReferenceDates.dates)
               (H1 := Reference.services)
               1800000000000 (Some forms_answer) world_with_jane in
  exists found,
    snd run = EventList 2 found
    /\ map Event.formId found = ["250000000000"; "241234567890"]
    /\ exists live fs,
         getLiveEvents (H := Reference.builtins) (H0 := ReferenceDates.dates)
           1800000000000 (Some forms_answer) = Some live
         /\ cast_all (H := Reference.services) (map JotformEvent.formId live) = Some fs
         /\ Forall (fun f => f ∈ Event.formId <$> events (fst run)) fs
         /\ found ≡ₚ filter (fun e => Event.formId e ∈ fs) (events (fst run))
         /\ StronglySorted start_le found
         /\ 2%nat = length found.
Proof.
  cbv zeta. eexists.
  split; [vm_compute; reflexivity|]. split; [vm_compute; reflexivity|].
  apply (@listEvents_lists_live_events Reference.builtins ReferenceDates.dates
           Reference.services 1800000000000 (Some forms_answer) world_with_jane).
  vm_compute; reflexivity.
Defined.

(** An instance of X21: the same listing, made a second time a minute
    later. *)
Lemma listEvents_again_creates_nothing_witness :
  let run := listEvents (H := Reference.builtins) (H0 := ReferenceDates.dates)
               (H1 := Reference.services)
               1800000000000 (Some forms_answer) world_with_jane in
  let again := listEvents (H := Reference.builtins) (H0 := ReferenceDates.dates)
                 (H1 := Reference.services)
                 1800000060000 (Some forms_answer) (fst run) in
  (exists found, run = (fst run, EventList 2 found))
  /\ Event.formId <$> events (fst again) = Event.formId <$> events (fst run)
  /\ Event._id <$> events (fst again) = Event._id <$> events (fst run)
  /\ next_id (fst again) = next_id (fst run)
  /\ exists found2, snd again = EventList 2 found2.
Proof.
  cbv zeta.
  split; [eexists; vm_compute; reflexivity|].
  eapply (@listEvents_again_creates_nothing Reference.builtins ReferenceDates.dates
            Reference.services 1800000000000 1800000060000 (Some forms_answer)
            world_with_jane).
  - left. reflexivity.
  - vm_compute; reflexivity.
Defined.
